(** * Rook: CSI toleration settings and the object-bucket provisioner

    A shallow embedding of [pkg/operator/ceph/csi/util.go] (toleration
    settings) and of the bucket provisioner that drives the RGW admin API and
    the S3 data plane (Provision, Grant, Revoke, Delete, Update), followed by
    the properties established about them.

    Go values are embedded as follows.
    - [error] is the interface value; the nil error is [None : option error].
    - A pointer that the code tests against nil, or dereferences after a
      remote answer, is an [option]; dereferencing [None] is the run-time
      panic [Panic].
    - [int], [int32] and [int64] values are [Z] (the operator is built for
      64-bit targets, so [int] and [int64] have the same range).
    - [map[string]string] is an association list read with [map_get], the
      missing key giving the empty string as in Go. *)

From Stdlib Require Import ZArith String Ascii List Bool Lia.
Import ListNotations.
Local Open Scope string_scope.
Local Open Scope Z_scope.

(** ** Go runtime and library values *)

Module Go.

(** The error values that the code builds or inspects.  [errorString] is
    [errors.New]/[errors.Errorf] (and any collaborator error carrying only
    text), [withMessage] is the wrapper built by [errors.Wrap]/[errors.Wrapf]
    of github.com/pkg/errors, [adminError] is a go-ceph admin API error with
    its reason code and its text, [awsError] is an [awserr.Error] with its
    [Code()] and its text, and [numError] is [*strconv.NumError]. *)
Inductive error : Type :=
| errorString (msg : string)
| withMessage (cause : error) (msg : string)
| adminError (code : string) (text : string)
| awsError (code : string) (text : string)
| numError (fn : string) (num : string) (reason : string).

(** [errors.Wrap(err, msg)] and [errors.Wrapf(err, format, args...)]: "If err
    is nil, Wrap returns nil." *)
Definition errors_Wrap (err : option error) (msg : string) : option error :=
  match err with
  | None => None
  | Some e => Some (withMessage e msg)
  end.

(** The reason codes of go-ceph that the provisioner tests for. *)
Definition ErrNoSuchUser : string := "NoSuchUser".

(** [errors.Is(err, target)] for a go-ceph reason [target]: the reason code
    of the value is compared, then [Unwrap] is followed. *)
Fixpoint errors_Is (err : error) (target : string) : bool :=
  match err with
  | adminError code _ => String.eqb code target
  | withMessage cause _ => errors_Is cause target
  | _ => false
  end.

(** [aerr, ok := err.(awserr.Error)] followed by [aerr.Code()]: a type
    assertion on the value itself, no unwrapping. *)
Definition as_awserr (err : error) : option string :=
  match err with
  | awsError code _ => Some code
  | _ => None
  end.

(** [strconv.Quote], for text without characters to escape. *)
Definition Quote (s : string) : string :=
  String (ascii_of_nat 34) (s ++ String (ascii_of_nat 34) EmptyString).

(** [err.Error()]. *)
Fixpoint Error (e : error) : string :=
  match e with
  | errorString m => m
  | withMessage c m => m ++ ": " ++ Error c
  | adminError _ text => text
  | awsError _ text => text
  | numError f n r => "strconv." ++ f ++ ": parsing " ++ Quote n ++ ": " ++ r
  end.

(** [strings.Contains]. *)
Definition strings_Contains (s substr : string) : bool :=
  match String.index 0 substr s with
  | Some _ => true
  | None => false
  end.

(** [strconv.Atoi]: an optional sign, then one or more decimal digits; the
    value must fit [int] (64 bits). *)
Fixpoint position_in (digits : string) (i : Z) (c : ascii) : option Z :=
  match digits with
  | EmptyString => None
  | String d rest => if Ascii.eqb c d then Some i else position_in rest (i + 1) c
  end.

Definition digit_of (c : ascii) : option Z := position_in "0123456789" 0 c.

Fixpoint digits_value (acc : Z) (s : string) : option Z :=
  match s with
  | EmptyString => Some acc
  | String c rest =>
      match digit_of c with
      | Some d => digits_value (acc * 10 + d) rest
      | None => None
      end
  end.

Definition ErrSyntax : string := "invalid syntax".
Definition ErrRange : string := "value out of range".

Definition minInt64 : Z := - 2 ^ 63.
Definition maxInt64 : Z := 2 ^ 63 - 1.

Definition strconv_Atoi (s : string) : Z * option error :=
  let '(neg, body) :=
    match s with
    | String "-" rest => (true, rest)
    | String "+" rest => (false, rest)
    | _ => (false, s)
    end in
  match body with
  | EmptyString => (0, Some (numError "Atoi" s ErrSyntax))
  | _ =>
      match digits_value 0 body with
      | None => (0, Some (numError "Atoi" s ErrSyntax))
      | Some n =>
          let v := if neg then - n else n in
          if v <? minInt64 then (minInt64, Some (numError "Atoi" s ErrRange))
          else if maxInt64 <? v then (maxInt64, Some (numError "Atoi" s ErrRange))
          else (v, None)
      end
  end.

(** [strconv.ParseUint(s, 10, 64)]: one or more decimal digits, no sign; the
    value must fit 64 bits. *)
Definition maxUint64 : Z := 2 ^ 64 - 1.

Definition strconv_ParseUint (s : string) : Z * option error :=
  match s with
  | EmptyString => (0, Some (numError "ParseUint" s ErrSyntax))
  | _ =>
      match digits_value 0 s with
      | None => (0, Some (numError "ParseUint" s ErrSyntax))
      | Some n =>
          if maxUint64 <? n then (maxUint64, Some (numError "ParseUint" s ErrRange))
          else (n, None)
      end
  end.

(** [strconv.Itoa]: the decimal digits, written from the last one, after a
    minus sign for a negative number.  Twenty digits suffice for 64 bits. *)
Definition digit_char (d : Z) : ascii :=
  match String.get (Z.to_nat d) "0123456789" with
  | Some c => c
  | None => "0"%char
  end.

Fixpoint format_digits (fuel : nat) (n : Z) (acc : string) : string :=
  match fuel with
  | O => acc
  | S fuel' =>
      let acc' := String (digit_char (n mod 10)) acc in
      if n <? 10 then acc' else format_digits fuel' (n / 10) acc'
  end.

Definition strconv_Itoa (i : Z) : string :=
  if i <? 0 then String "-" (format_digits 20 (- i) "")
  else format_digits 20 i "".

(** The conversion [uint16(p)]. *)
Definition uint16 (p : Z) : Z := p mod 2 ^ 16.

(** [map[string]string] lookup: the zero value for a missing key. *)
Fixpoint map_get (m : list (string * string)) (k : string) : string :=
  match m with
  | [] => ""
  | (k', v) :: rest => if String.eqb k' k then v else map_get rest k
  end.

(** Arguments of a formatted log line or message. *)
Inductive Arg : Type :=
| AStr (s : string)
| AInt (z : Z)
| AErr (e : error)
| AVal (description : string).

Inductive Level : Type := DEBUG | INFO | WARNING | ERROR.

Record LogEntry : Type := mkLog {
  log_level : Level;
  log_format : string;
  log_args : list Arg
}.

End Go.

Import Go.

(** ** pkg/operator/ceph/csi/util.go *)

Module Csi.

(** [corev1.TolerationOperator] is a string type. *)
Definition TolerationOpExists : string := "Exists".
Definition TolerationOpEqual : string := "Equal".

(** [corev1.Toleration]. *)
Record Toleration : Type := mkToleration {
  Key : string;
  Operator : string;
  Value : string;
  Effect : string;
  TolerationSeconds : option Z
}.

Definition set_Operator (op : string) (t : Toleration) : Toleration :=
  {| Key := Key t; Operator := op; Value := Value t; Effect := Effect t;
     TolerationSeconds := TolerationSeconds t |}.

Definition set_Value (v : string) (t : Toleration) : Toleration :=
  {| Key := Key t; Operator := Operator t; Value := v; Effect := Effect t;
     TolerationSeconds := TolerationSeconds t |}.

Section Settings.

(** The operator settings of the cluster behind [clientset]:
    [k8sutil.GetOperatorSetting(clientset, configMapName, key, default)],
    and the YAML decoder [k8sutil.YamlToTolerations]; both live outside
    this file. *)
Variable GetOperatorSetting : string -> string -> string -> string * option error.
Variable YamlToTolerations : string -> list Toleration * option error.
Variable OperatorSettingConfigMapName : string.

(** The body of the loop [for i := range tolerations]. *)
Definition normalize (t : Toleration) : Toleration :=
  let t := if String.eqb (Key t) "" then set_Operator TolerationOpExists t else t in
  if String.eqb (Operator t) TolerationOpExists then set_Value "" t else t.

(** [getToleration]; the second component is what was sent to the logger. *)
Definition getToleration (tolerationsName : string)
    (defaultTolerations : list Toleration) : list Toleration * list LogEntry :=
  let '(tolerationsRaw, err) :=
    GetOperatorSetting OperatorSettingConfigMapName tolerationsName "" in
  match err with
  | Some e =>
      (defaultTolerations,
       [mkLog WARNING "failed to read %q. %v" [AStr tolerationsName; AErr e]])
  | None =>
      if String.eqb tolerationsRaw "" then (defaultTolerations, [])
      else
        let '(tolerations, err) := YamlToTolerations tolerationsRaw in
        match err with
        | Some e =>
            (defaultTolerations,
             [mkLog WARNING "failed to parse %q for %q. %v"
                [AStr tolerationsRaw; AStr tolerationsName; AErr e]])
        | None => (map normalize tolerations, [])
        end
  end.

End Settings.

(** A toleration as the loop leaves it. *)
Definition normalized (t : Toleration) : Prop :=
  (Key t = "" -> Operator t = TolerationOpExists) /\
  (Operator t = TolerationOpExists -> Value t = "").


(** *** Resources, node affinity and ports *)

Section Workloads.

(** Kubernetes data that the file passes along without looking inside. *)
Variable ResourceRequirements : Type.
Variable ContainerFields : Type.
Variable NodeAffinity : Type.
Variable PodAffinity : Type.

(** The operator settings and the decoders of [k8sutil], [fmt.Sprintf] and
    [strings.TrimSpace]. *)
Variable GetOperatorSetting : string -> string -> string -> string * option error.
Variable OperatorSettingConfigMapName : string.
Variable Sprintf : string -> list Arg -> string.
Variable TrimSpace : string -> string.

(** [corev1.Container]: its name, its resources and the rest. *)
Record Container : Type := mkContainer {
  c_Name : string;
  c_Resources : ResourceRequirements;
  c_fields : ContainerFields
}.

(** [k8sutil.ContainerResource]. *)
Record ContainerResource : Type := mkContainerResource {
  r_Name : string;
  r_Resource : ResourceRequirements
}.

(** [corev1.Affinity] and [corev1.PodSpec], with the fields that the file
    assigns. *)
Record Affinity : Type := mkAffinity {
  a_NodeAffinity : option NodeAffinity;
  a_PodAffinity : option PodAffinity;
  a_PodAntiAffinity : option PodAffinity
}.

Record PodSpec : Type := mkPodSpec {
  Containers : list Container;
  Tolerations : list Toleration;
  pod_Affinity : option Affinity
}.

Variable YamlToContainerResource : string -> list ContainerResource * option error.
Variable GenerateNodeAffinity : string -> option NodeAffinity * option error.

(** [getComputeResource], with what it sent to the logger. *)
Definition getComputeResource (key : string) : list ContainerResource * list LogEntry :=
  (* Add Resource list if any *)
  let resource := [] in
  let '(resourceRaw, err) := GetOperatorSetting OperatorSettingConfigMapName key "" in
  let logs1 :=
    match err with
    | Some e =>
        [mkLog WARNING "resource requirement for %q will not be applied. %v"
           [AStr key; AErr e]]
    | None => []
    end in
  if negb (String.eqb resourceRaw "") then
    let '(resource, err) := YamlToContainerResource resourceRaw in
    let logs2 :=
      match err with
      | Some e => [mkLog WARNING "failed to parse %q. %v" [AStr resourceRaw; AErr e]]
      | None => []
      end in
    (resource, (logs1 ++ logs2)%list)
  else (resource, logs1).

(** The assignment [podspec.Containers[i].Resources = r.Resource]. *)
Definition set_Resources (r : ResourceRequirements) (c : Container) : Container :=
  {| c_Name := c_Name c; c_Resources := r; c_fields := c_fields c |}.

(** The inner loop [for _, r := range resource] for the container [c] found
    at index [i]: [current] is [podspec.Containers[i]] as the loop goes. *)
Definition apply_resources (resource : list ContainerResource) (c : Container)
    : Container :=
  fold_left
    (fun current r =>
       if String.eqb (c_Name c) (r_Name r) then set_Resources (r_Resource r) current
       else current)
    resource c.

(** [applyResourcesToContainers]: the pod spec as the call leaves it. *)
Definition applyResourcesToContainers (key : string) (podspec : PodSpec)
    : PodSpec * list LogEntry :=
  let '(resource, logs) := getComputeResource key in
  if 0 <? Z.of_nat (length resource) then
    ({| Containers := map (apply_resources resource) (Containers podspec);
        Tolerations := Tolerations podspec;
        pod_Affinity := pod_Affinity podspec |}, logs)
  else (podspec, logs).

(** [getNodeAffinity]. *)
Definition getNodeAffinity (nodeAffinityName : string)
    (defaultNodeAffinity : option NodeAffinity) : option NodeAffinity * list LogEntry :=
  (* Add NodeAffinity if any, otherwise return defaultNodeAffinity *)
  let '(nodeAffinity, err) :=
    GetOperatorSetting OperatorSettingConfigMapName nodeAffinityName "" in
  match err with
  | Some e =>
      (defaultNodeAffinity,
       [mkLog WARNING "failed to read %q. %v" [AStr nodeAffinityName; AErr e]])
  | None =>
      if String.eqb nodeAffinity "" then (defaultNodeAffinity, [])
      else
        let '(v1NodeAffinity, err) := GenerateNodeAffinity nodeAffinity in
        match err with
        | Some e =>
            (defaultNodeAffinity,
             [mkLog WARNING "failed to parse %q for %q. %v"
                [AStr nodeAffinity; AStr nodeAffinityName; AErr e]])
        | None => (v1NodeAffinity, [])
        end
  end.

(** [applyToPodSpec]. *)
Definition applyToPodSpec (pod : PodSpec) (n : option NodeAffinity)
    (t : list Toleration) : PodSpec :=
  {| Containers := Containers pod;
     Tolerations := t;
     pod_Affinity := Some {| a_NodeAffinity := n; a_PodAffinity := None;
                             a_PodAntiAffinity := None |} |}.

(** [getPortFromConfig]; ports are [uint16] values. *)
Definition getPortFromConfig (env : string) (defaultPort : Z) : Z * option error :=
  let '(port, err) :=
    GetOperatorSetting OperatorSettingConfigMapName env (strconv_Itoa defaultPort) in
  match err with
  | Some _ =>
      (defaultPort, errors_Wrap err (Sprintf "failed to load value for %q." [AStr env]))
  | None =>
      if String.eqb (TrimSpace port) "" then (defaultPort, None)
      else
        let '(p, err) := strconv_ParseUint port in
        match err with
        | Some _ =>
            (defaultPort,
             errors_Wrap err (Sprintf "failed to parse port value for %q." [AStr env]))
        | None =>
            if 65535 <? p then
              (defaultPort,
               Some (errorString
                       (Sprintf "%s port value is greater than 65535 for %s."
                          [AStr port; AStr env])))
            else (uint16 p, None)
        end
  end.

End Workloads.

Arguments mkContainer {ResourceRequirements ContainerFields}.
Arguments c_Name {ResourceRequirements ContainerFields}.
Arguments c_Resources {ResourceRequirements ContainerFields}.
Arguments c_fields {ResourceRequirements ContainerFields}.
Arguments mkContainerResource {ResourceRequirements}.
Arguments r_Name {ResourceRequirements}.
Arguments r_Resource {ResourceRequirements}.
Arguments mkAffinity {NodeAffinity PodAffinity}.
Arguments a_NodeAffinity {NodeAffinity PodAffinity}.
Arguments a_PodAffinity {NodeAffinity PodAffinity}.
Arguments a_PodAntiAffinity {NodeAffinity PodAffinity}.
Arguments mkPodSpec {ResourceRequirements ContainerFields NodeAffinity PodAffinity}.
Arguments Containers {ResourceRequirements ContainerFields NodeAffinity PodAffinity}.
Arguments Tolerations {ResourceRequirements ContainerFields NodeAffinity PodAffinity}.
Arguments pod_Affinity {ResourceRequirements ContainerFields NodeAffinity PodAffinity}.
Arguments getComputeResource {ResourceRequirements}.
Arguments set_Resources {ResourceRequirements ContainerFields}.
Arguments apply_resources {ResourceRequirements ContainerFields}.
Arguments applyResourcesToContainers
  {ResourceRequirements ContainerFields NodeAffinity PodAffinity}.
Arguments getNodeAffinity {NodeAffinity}.
Arguments applyToPodSpec {ResourceRequirements ContainerFields NodeAffinity PodAffinity}.

End Csi.

(** ** Byte quantities *)

Module Quantities.

(** The leading decimal digits of a string, and what follows them. *)
Fixpoint split_digits (s : string) : string * string :=
  match s with
  | EmptyString => (EmptyString, EmptyString)
  | String c rest =>
      match digit_of c with
      | Some _ => let '(ds, suf) := split_digits rest in (String c ds, suf)
      | None => (EmptyString, s)
      end
  end.

(** Modelled from the spec: the suffixes of a byte quantity ("suffixes like
    Ki/Mi/Gi") with their multipliers: the binary ones, the decimal ones and
    none. *)
Definition suffixes : list (string * Z) :=
  [ ("", 1);
    ("Ki", 2 ^ 10); ("Mi", 2 ^ 20); ("Gi", 2 ^ 30);
    ("Ti", 2 ^ 40); ("Pi", 2 ^ 50); ("Ei", 2 ^ 60);
    ("k", 10 ^ 3); ("M", 10 ^ 6); ("G", 10 ^ 9);
    ("T", 10 ^ 12); ("P", 10 ^ 15); ("E", 10 ^ 18) ].

Fixpoint multiplier (table : list (string * Z)) (suffix : string) : option Z :=
  match table with
  | [] => None
  | (s, m) :: rest => if String.eqb s suffix then Some m else multiplier rest suffix
  end.

(** The error of a string that is not a quantity. *)
Definition ErrFormatWrong : error :=
  errorString "quantities must match the regular expression".

(** Modelled from the spec: [resource.ParseQuantity] of Kubernetes followed
    by [Value()], which the source only calls.  The spec has max-size
    strings "parsed as human-readable byte quantities (e.g. accepting
    suffixes like Ki/Mi/Gi) and converted to an exact byte count".  The model
    reads an optional sign, one or more decimal digits and a suffix of
    [suffixes], and yields the number times the multiplier of the suffix;
    any other string fails to parse. *)
Definition ParseQuantity (str : string) : Z + error :=
  let '(neg, body) :=
    match str with
    | String "-" rest => (true, rest)
    | String "+" rest => (false, rest)
    | _ => (false, str)
    end in
  let '(ds, suf) := split_digits body in
  match ds with
  | EmptyString => inr ErrFormatWrong
  | _ =>
      match digits_value 0 ds, multiplier suffixes suf with
      | Some n, Some m => inl (if neg then - (n * m) else n * m)
      | _, _ => inr ErrFormatWrong
      end
  end.

End Quantities.

(** ** The object-bucket provisioner *)

Module Bucket.

(** Code on which the provisioner relies and which lies outside the file:
    opaque data of the collaborators, package-level helpers and constants.
    The helpers are pure functions of their arguments. *)
Class Platform : Type := {
  (** opaque collaborator data *)
  clusterd_Context : Type;
  ClusterSpec : Type;
  ObjectStoreSpec : Type;
  ContextData : Type;
  Transport : Type;
  AdminAPI : Type;
  S3Agent : Type;
  PutBucketPolicyOutput : Type;
  Quantity : Type;
  (** [fmt.Sprintf] *)
  Sprintf : string -> list Arg -> string;
  (** the package logger's [LevelAt] *)
  logger_LevelAt : Level -> bool;
  (** constants *)
  OperatorNotInitializedMessage : string;
  key_objectStoreName : string;
  key_objectStoreEndpoint : string;
  cephUser : string;
  AllowedActions : list string;
  HttpTimeOut : Z;
  (** [resource.ParseQuantity] and [Quantity.Value] *)
  ParseQuantity : string -> Quantity + error;
  Quantity_Value : Quantity -> Z;
  (** object-store spec accessors: [Spec.Gateway.SecurePort],
      [Spec.GetPort()], [Spec.IsTLSEnabled()] *)
  Gateway_SecurePort : ObjectStoreSpec -> Z;
  Spec_GetPort : ObjectStoreSpec -> Z * option error;
  Spec_IsTLSEnabled : ObjectStoreSpec -> bool;
  (** endpoint and transport helpers *)
  BuildDomainName : string -> string -> string;
  BuildDNSEndpoint : string -> Z -> bool -> string;
  GetIPFromEndpoint : string -> string;
  GetPortFromEndpoint : string -> Z;
  BuildTransportTLS : list ascii -> Transport
}.

Section Model.

Context {P : Platform}.

(** *** Data *)

(** [storagev1.StorageClass]: the provisioner reads its [Parameters]. *)
Record StorageClass : Type := mkStorageClass {
  sc_Parameters : list (string * string)
}.

(** [cephv1.CephObjectStore] and [cephv1.CephCluster]. *)
Record CephObjectStore : Type := mkCephObjectStore {
  store_Namespace : string;
  store_Spec : ObjectStoreSpec
}.

Record CephCluster : Type := mkCephCluster {
  cluster_Spec : ClusterSpec
}.

(** [client.ClusterInfo]. *)
Record ClusterInfo : Type := mkClusterInfo {
  ci_Namespace : string
}.

(** [cephObject.Context]. *)
Record ObjectContext : Type := mkObjectContext {
  oc_Name : string;
  oc_CephClusterSpec : option ClusterSpec;  (* [None]: the zero value, not yet set *)
  oc_data : ContextData
}.

(** [http.Client]. *)
Record HTTPClient : Type := mkHTTPClient {
  http_Timeout : Z;
  http_Transport : option Transport
}.

(** [admin.UserKeySpec], [admin.QuotaSpec], [admin.User], [admin.Bucket]. *)
Record UserKeySpec : Type := mkKey {
  AccessKey : string;
  SecretKey : string
}.

Record QuotaSpec : Type := mkQuotaSpec {
  UID : string;
  Enabled : option bool;
  MaxSize : option Z;
  MaxObjects : option Z
}.

Record User : Type := mkUser {
  ID : string;
  Keys : list UserKeySpec;
  MaxBuckets : option Z;
  UserQuota : QuotaSpec
}.

Record AdminBucket : Type := mkAdminBucket {
  Bucket : string;
  Owner : string;
  PurgeObject : option bool
}.

(** [admin.User{ID: id, MaxBuckets: &n}] and [admin.User{ID: id}]. *)
Definition User_with (id : string) (maxBuckets : option Z) : User :=
  {| ID := id; Keys := []; MaxBuckets := maxBuckets;
     UserQuota := {| UID := ""; Enabled := None; MaxSize := None; MaxObjects := None |} |}.

(** [admin.Bucket{Bucket: name}]. *)
Definition Bucket_named (name : string) : AdminBucket :=
  {| Bucket := name; Owner := ""; PurgeObject := None |}.

(** The lib-bucket-provisioner API objects. *)
Record ObjectBucketClaim : Type := mkOBC {
  obc_Name : string;
  obc_Namespace : string;
  obc_StorageClassName : string;
  obc_AdditionalConfig : list (string * string)
}.

Record BucketOptions : Type := mkBucketOptions {
  opt_ObjectBucketClaim : option ObjectBucketClaim;
  opt_BucketName : string
}.

Record Endpoint : Type := mkEndpoint {
  BucketHost : string;
  BucketPort : Z;
  BucketName : string;
  Region : string;
  AdditionalConfigData : list (string * string)
}.

Record AccessKeys : Type := mkAccessKeys {
  AccessKeyID : string;
  SecretAccessKey : string
}.

Record Authentication : Type := mkAuthentication {
  auth_AccessKeys : option AccessKeys
}.

Record Connection : Type := mkConnection {
  conn_Endpoint : option Endpoint;
  conn_Authentication : option Authentication;
  AdditionalState : list (string * string)
}.

Record ObjectBucket : Type := mkObjectBucket {
  ob_Name : string;
  ob_StorageClassName : string;
  ob_Connection : option Connection
}.

(** Helpers of the repository, outside the file, that read or build these
    objects. *)
Class Readers : Type := {
  isStaticBucket : StorageClass -> string * bool;
  getObjectStoreName : StorageClass -> string;
  getObjectStoreNameSpace : StorageClass -> string;
  sc_getObjectStoreEndpoint : StorageClass -> string;
  getBucketName : ObjectBucket -> string;
  getCephUser : ObjectBucket -> string;
  MaxObjectQuota : list (string * string) -> string;
  MaxSizeQuota : list (string * string) -> string;
  NewContext : clusterd_Context -> ClusterInfo -> string -> ObjectContext;
  NewDebugHTTPClient : HTTPClient -> HTTPClient
}.

Context {Rd : Readers}.

(** *** Bucket policy *)

Inductive EffectKind : Type := Allow | Deny.

(** Modelled from the spec: the policy statement of [cephObject], which is
    not in the file.  A statement names a principal, an effect, a resource
    (the bucket and its sub-resources) and an action set; the chained builder
    fills the fields one call at a time. *)
Record PolicyStatement : Type := mkStatement {
  Sid : string;
  Effect : option EffectKind;
  Principal : list string;
  Resource : list string;
  SubResource : list string;
  Action : list string
}.

(** Modelled from the spec: [NewPolicyStatement()] of [cephObject], not in
    the file: the statement with nothing filled in.  The builder calls that
    follow each fill one field. *)
Definition NewPolicyStatement : PolicyStatement :=
  {| Sid := ""; Effect := None; Principal := []; Resource := [];
     SubResource := []; Action := [] |}.

(** Modelled from the spec: builder call [WithSID] of [cephObject], not in the
    file: sets the statement identifier. *)
Definition WithSID (sid : string) (s : PolicyStatement) : PolicyStatement :=
  {| Sid := sid; Effect := Effect s; Principal := Principal s;
     Resource := Resource s; SubResource := SubResource s; Action := Action s |}.

(** Modelled from the spec: builder call [ForPrincipals] of [cephObject], not in the
    file: sets the principals. *)
Definition ForPrincipals (users : list string) (s : PolicyStatement) : PolicyStatement :=
  {| Sid := Sid s; Effect := Effect s; Principal := users;
     Resource := Resource s; SubResource := SubResource s; Action := Action s |}.

(** Modelled from the spec: builder call [ForResources] of [cephObject], not in the
    file: sets the bucket resources. *)
Definition ForResources (names : list string) (s : PolicyStatement) : PolicyStatement :=
  {| Sid := Sid s; Effect := Effect s; Principal := Principal s;
     Resource := names; SubResource := SubResource s; Action := Action s |}.

(** Modelled from the spec: builder call [ForSubResources] of [cephObject], not in the
    file: sets the sub-resources (objects) of the buckets. *)
Definition ForSubResources (names : list string) (s : PolicyStatement) : PolicyStatement :=
  {| Sid := Sid s; Effect := Effect s; Principal := Principal s;
     Resource := Resource s; SubResource := names; Action := Action s |}.

(** Modelled from the spec: builder call [Allows] of [cephObject], not in the
    file: sets the effect, allow. *)
Definition Allows (s : PolicyStatement) : PolicyStatement :=
  {| Sid := Sid s; Effect := Some Allow; Principal := Principal s;
     Resource := Resource s; SubResource := SubResource s; Action := Action s |}.

(** Modelled from the spec: builder call [Denies] of [cephObject], not in the
    file: sets the effect, deny. *)
Definition Denies (s : PolicyStatement) : PolicyStatement :=
  {| Sid := Sid s; Effect := Some Deny; Principal := Principal s;
     Resource := Resource s; SubResource := SubResource s; Action := Action s |}.

(** Modelled from the spec: builder call [Actions] of [cephObject], not in the
    file: sets the action set. *)
Definition Actions (actions : list string) (s : PolicyStatement) : PolicyStatement :=
  {| Sid := Sid s; Effect := Effect s; Principal := Principal s;
     Resource := Resource s; SubResource := SubResource s; Action := actions |}.

(** Modelled from the spec: the policy document of [cephObject], not in the
    file: a collection of statements. *)
Record BucketPolicy : Type := mkPolicy {
  Statement : list PolicyStatement
}.

(** Modelled from the spec: [NewBucketPolicy] holds the given statement. *)
Definition NewBucketPolicy (s : PolicyStatement) : BucketPolicy :=
  {| Statement := [s] |}.

(** Modelled from the spec: [ModifyBucketPolicy]: "Add statement for
    principal P" appends the statement, without removing duplicates. *)
Definition ModifyBucketPolicy (bp : BucketPolicy) (s : PolicyStatement) : BucketPolicy :=
  {| Statement := Statement bp ++ [s] |}.

(** Equality of principal lists. *)
Definition list_string_eqb (a b : list string) : bool :=
  if list_eq_dec string_dec a b then true else false.

(** Modelled from the spec: [DropPolicyStatements]: "removes every statement
    whose principal set contains exactly P". *)
Definition DropPolicyStatements (bp : BucketPolicy) (user : string) : BucketPolicy :=
  {| Statement :=
       filter (fun s => negb (list_string_eqb (Principal s) [user])) (Statement bp) |}.

(** *** The provisioner *)

(** [type Provisioner struct]; [tlsCert] is a byte slice ([None] is the nil
    slice) and [adminOpsClient] a pointer. *)
Record Provisioner : Type := mkProvisioner {
  context : clusterd_Context;
  objectContext : option ObjectContext;
  clusterInfo : ClusterInfo;
  bucketName : string;
  storeDomainName : string;
  storePort : Z;
  region : string;
  cephUserName : string;
  accessKeyID : string;
  secretAccessKey : string;
  objectStoreName : string;
  endpoint : string;
  additionalConfigData : list (string * string);
  tlsCert : option (list ascii);
  adminOpsClient : option AdminAPI
}.

(** Assignments to the fields of the receiver. *)
Definition set_objectContext (v : option ObjectContext) (p : Provisioner) : Provisioner :=
  {| context := context p; objectContext := v; clusterInfo := clusterInfo p;
     bucketName := bucketName p; storeDomainName := storeDomainName p;
     storePort := storePort p; region := region p; cephUserName :=
     cephUserName p; accessKeyID := accessKeyID p; secretAccessKey :=
     secretAccessKey p; objectStoreName := objectStoreName p; endpoint :=
     endpoint p; additionalConfigData := additionalConfigData p; tlsCert :=
     tlsCert p; adminOpsClient := adminOpsClient p |}.

Definition set_bucketName (v : string) (p : Provisioner) : Provisioner :=
  {| context := context p; objectContext := objectContext p; clusterInfo :=
     clusterInfo p; bucketName := v; storeDomainName := storeDomainName p;
     storePort := storePort p; region := region p; cephUserName :=
     cephUserName p; accessKeyID := accessKeyID p; secretAccessKey :=
     secretAccessKey p; objectStoreName := objectStoreName p; endpoint :=
     endpoint p; additionalConfigData := additionalConfigData p; tlsCert :=
     tlsCert p; adminOpsClient := adminOpsClient p |}.

Definition set_storeDomainName (v : string) (p : Provisioner) : Provisioner :=
  {| context := context p; objectContext := objectContext p; clusterInfo :=
     clusterInfo p; bucketName := bucketName p; storeDomainName := v;
     storePort := storePort p; region := region p; cephUserName :=
     cephUserName p; accessKeyID := accessKeyID p; secretAccessKey :=
     secretAccessKey p; objectStoreName := objectStoreName p; endpoint :=
     endpoint p; additionalConfigData := additionalConfigData p; tlsCert :=
     tlsCert p; adminOpsClient := adminOpsClient p |}.

Definition set_storePort (v : Z) (p : Provisioner) : Provisioner :=
  {| context := context p; objectContext := objectContext p; clusterInfo :=
     clusterInfo p; bucketName := bucketName p; storeDomainName :=
     storeDomainName p; storePort := v; region := region p; cephUserName :=
     cephUserName p; accessKeyID := accessKeyID p; secretAccessKey :=
     secretAccessKey p; objectStoreName := objectStoreName p; endpoint :=
     endpoint p; additionalConfigData := additionalConfigData p; tlsCert :=
     tlsCert p; adminOpsClient := adminOpsClient p |}.

Definition set_region (v : string) (p : Provisioner) : Provisioner :=
  {| context := context p; objectContext := objectContext p; clusterInfo :=
     clusterInfo p; bucketName := bucketName p; storeDomainName :=
     storeDomainName p; storePort := storePort p; region := v; cephUserName
     := cephUserName p; accessKeyID := accessKeyID p; secretAccessKey :=
     secretAccessKey p; objectStoreName := objectStoreName p; endpoint :=
     endpoint p; additionalConfigData := additionalConfigData p; tlsCert :=
     tlsCert p; adminOpsClient := adminOpsClient p |}.

Definition set_cephUserName (v : string) (p : Provisioner) : Provisioner :=
  {| context := context p; objectContext := objectContext p; clusterInfo :=
     clusterInfo p; bucketName := bucketName p; storeDomainName :=
     storeDomainName p; storePort := storePort p; region := region p;
     cephUserName := v; accessKeyID := accessKeyID p; secretAccessKey :=
     secretAccessKey p; objectStoreName := objectStoreName p; endpoint :=
     endpoint p; additionalConfigData := additionalConfigData p; tlsCert :=
     tlsCert p; adminOpsClient := adminOpsClient p |}.

Definition set_accessKeyID (v : string) (p : Provisioner) : Provisioner :=
  {| context := context p; objectContext := objectContext p; clusterInfo :=
     clusterInfo p; bucketName := bucketName p; storeDomainName :=
     storeDomainName p; storePort := storePort p; region := region p;
     cephUserName := cephUserName p; accessKeyID := v; secretAccessKey :=
     secretAccessKey p; objectStoreName := objectStoreName p; endpoint :=
     endpoint p; additionalConfigData := additionalConfigData p; tlsCert :=
     tlsCert p; adminOpsClient := adminOpsClient p |}.

Definition set_secretAccessKey (v : string) (p : Provisioner) : Provisioner :=
  {| context := context p; objectContext := objectContext p; clusterInfo :=
     clusterInfo p; bucketName := bucketName p; storeDomainName :=
     storeDomainName p; storePort := storePort p; region := region p;
     cephUserName := cephUserName p; accessKeyID := accessKeyID p;
     secretAccessKey := v; objectStoreName := objectStoreName p; endpoint :=
     endpoint p; additionalConfigData := additionalConfigData p; tlsCert :=
     tlsCert p; adminOpsClient := adminOpsClient p |}.

Definition set_objectStoreName (v : string) (p : Provisioner) : Provisioner :=
  {| context := context p; objectContext := objectContext p; clusterInfo :=
     clusterInfo p; bucketName := bucketName p; storeDomainName :=
     storeDomainName p; storePort := storePort p; region := region p;
     cephUserName := cephUserName p; accessKeyID := accessKeyID p;
     secretAccessKey := secretAccessKey p; objectStoreName := v; endpoint :=
     endpoint p; additionalConfigData := additionalConfigData p; tlsCert :=
     tlsCert p; adminOpsClient := adminOpsClient p |}.

Definition set_endpoint (v : string) (p : Provisioner) : Provisioner :=
  {| context := context p; objectContext := objectContext p; clusterInfo :=
     clusterInfo p; bucketName := bucketName p; storeDomainName :=
     storeDomainName p; storePort := storePort p; region := region p;
     cephUserName := cephUserName p; accessKeyID := accessKeyID p;
     secretAccessKey := secretAccessKey p; objectStoreName := objectStoreName
     p; endpoint := v; additionalConfigData := additionalConfigData p;
     tlsCert := tlsCert p; adminOpsClient := adminOpsClient p |}.

Definition set_additionalConfigData (v : list (string * string)) (p : Provisioner) : Provisioner :=
  {| context := context p; objectContext := objectContext p; clusterInfo :=
     clusterInfo p; bucketName := bucketName p; storeDomainName :=
     storeDomainName p; storePort := storePort p; region := region p;
     cephUserName := cephUserName p; accessKeyID := accessKeyID p;
     secretAccessKey := secretAccessKey p; objectStoreName := objectStoreName
     p; endpoint := endpoint p; additionalConfigData := v; tlsCert := tlsCert
     p; adminOpsClient := adminOpsClient p |}.

Definition set_tlsCert (v : option (list ascii)) (p : Provisioner) : Provisioner :=
  {| context := context p; objectContext := objectContext p; clusterInfo :=
     clusterInfo p; bucketName := bucketName p; storeDomainName :=
     storeDomainName p; storePort := storePort p; region := region p;
     cephUserName := cephUserName p; accessKeyID := accessKeyID p;
     secretAccessKey := secretAccessKey p; objectStoreName := objectStoreName
     p; endpoint := endpoint p; additionalConfigData := additionalConfigData
     p; tlsCert := v; adminOpsClient := adminOpsClient p |}.

Definition set_adminOpsClient (v : option AdminAPI) (p : Provisioner) : Provisioner :=
  {| context := context p; objectContext := objectContext p; clusterInfo :=
     clusterInfo p; bucketName := bucketName p; storeDomainName :=
     storeDomainName p; storePort := storePort p; region := region p;
     cephUserName := cephUserName p; accessKeyID := accessKeyID p;
     secretAccessKey := secretAccessKey p; objectStoreName := objectStoreName
     p; endpoint := endpoint p; additionalConfigData := additionalConfigData
     p; tlsCert := tlsCert p; adminOpsClient := v |}.

(** [NewProvisioner]. *)
Definition NewProvisioner (context : clusterd_Context) (clusterInfo : ClusterInfo)
    : Provisioner :=
  {| context := context; objectContext := None; clusterInfo := clusterInfo;
     bucketName := ""; storeDomainName := ""; storePort := 0; region := "";
     cephUserName := ""; accessKeyID := ""; secretAccessKey := "";
     objectStoreName := ""; endpoint := ""; additionalConfigData := [];
     tlsCert := None; adminOpsClient := None |}.

(** *** Calls that leave the provisioner

    Every call to a collaborator is an element of [Call R], [R] being what
    the call returns.  The first group are methods and functions of the
    repository that lie outside the file; they receive the provisioner they
    are called on.  [createCephUser] has a pointer receiver and names the
    user it creates in the receiver, so it also returns the receiver as it
    leaves it.  A constructor returns its handle or an error.  The admin API
    methods are called on the pointer held in [adminOpsClient], whatever it
    is. *)
Inductive Call : Type -> Type :=
| getStorageClassWithBackoff (p : Provisioner) (name : string)
    : Call (StorageClass + error)
| getObjectStore (p : Provisioner) : Call (CephObjectStore + error)
| getCephCluster (p : Provisioner) : Call (option CephCluster * option error)
| createCephUser (p : Provisioner) (username : string)
    : Call (Provisioner * (string * string * option error))
| bucketExists (p : Provisioner) (name : string) : Call (bool * option error)
| deleteOBCResource (p : Provisioner) (bucketname : string) : Call (option error)
(* cephObject *)
| NewMultisiteContext (c : clusterd_Context) (ci : ClusterInfo) (store : CephObjectStore)
    : Call (ObjectContext + error)
| GetTlsCaCert (oc : option ObjectContext) (spec : ObjectStoreSpec)
    : Call (option (list ascii) * option error)
| GetAdminOPSUserCredentials (oc : option ObjectContext) (spec : ObjectStoreSpec)
    : Call (string * string * option error)
| NewS3Agent (accessKey secretKey endpoint : string) (debug : bool)
    (tlsCert : option (list ascii)) : Call (S3Agent + error)
| CreateBucket (s3svc : S3Agent) (name : string) : Call (option error)
| GetBucketPolicy (s3svc : S3Agent) (bucket : string)
    : Call (option BucketPolicy * option error)
| PutBucketPolicy (s3svc : S3Agent) (bucket : string) (policy : BucketPolicy)
    : Call (option PutBucketPolicyOutput * option error)
(* go-ceph admin API *)
| admin_New (endpoint accessKey secretKey : string) (client : HTTPClient)
    : Call (AdminAPI + error)
| GetBucketInfo (api : option AdminAPI) (b : AdminBucket)
    : Call (AdminBucket * option error)
| GetUser (api : option AdminAPI) (u : User) : Call (User * option error)
| ModifyUser (api : option AdminAPI) (u : User) : Call (User * option error)
| SetUserQuota (api : option AdminAPI) (q : QuotaSpec) : Call (option error).

(** A call together with its answer. *)
Inductive Event : Type :=
| Ev {R : Type} (c : Call R) (r : R).

(** The world in which the provisioner runs: it answers each call and moves
    on. *)
Class World : Type := {
  W : Type;
  handle : forall R : Type, Call R -> W -> R * W
}.

Context {Wd : World}.

(** What a run leaves behind, oldest first: the calls it made, with their
    answers, and the lines it gave to the package logger. *)
Inductive Entry : Type :=
| ECall (e : Event)
| ELog (l : LogEntry).

Inductive Res (A : Type) : Type :=
| Done (a : A)
| Panic (reason : string).
Arguments Done {A} a.
Arguments Panic {A} reason.

(** A computation starts in a world and yields its result, the world it
    leaves and its trace. *)
Definition M (A : Type) : Type := W -> Res A * W * list Entry.

Definition ret {A : Type} (a : A) : M A := fun w => (Done a, w, []).

Definition bind {A B : Type} (m : M A) (f : A -> M B) : M B :=
  fun w =>
    match m w with
    | (Done a, w1, t1) =>
        match f a w1 with
        | (r, w2, t2) => (r, w2, (t1 ++ t2)%list)
        end
    | (Panic reason, w1, t1) => (Panic reason, w1, t1)
    end.

Definition panic {A : Type} (reason : string) : M A := fun w => (Panic reason, w, []).

Definition call {R : Type} (c : Call R) : M R :=
  fun w =>
    match handle R c w with
    | (r, w1) => (Done r, w1, [ECall (Ev c r)])
    end.

Definition logf (lvl : Level) (format : string) (args : list Arg) : M unit :=
  fun w => (Done tt, w, [ELog (mkLog lvl format args)]).

End Model.

Arguments Done {A} a.
Arguments Panic {A} reason.

Declare Scope go_scope.
Delimit Scope go_scope with go.
Notation "x <- c ;; k" := (bind c (fun x => k))
  (at level 100, c at next level, right associativity) : go_scope.
Notation "' pat <- c ;; k" := (bind c (fun x => match x with pat => k end))
  (at level 100, pat pattern, c at next level, right associativity) : go_scope.
Notation "c ;; k" := (bind c (fun _ => k))
  (at level 100, right associativity) : go_scope.

Local Open Scope go_scope.

Section Code.

Context {P : Platform} {Rd : Readers} {Wd : World}.

(** [errors.Wrapf] and [errors.Errorf] with their formatted message. *)
Definition errors_Wrapf (err : option error) (format : string) (args : list Arg)
    : option error :=
  errors_Wrap err (Sprintf format args).

Definition errors_Errorf (format : string) (args : list Arg) : error :=
  errorString (Sprintf format args).

(** *** Setters and small helpers *)

Definition setObjectStoreName (sc : StorageClass) (p : Provisioner) : Provisioner :=
  set_objectStoreName (map_get (sc_Parameters sc) key_objectStoreName) p.

Definition setBucketName (name : string) (p : Provisioner) : Provisioner :=
  set_bucketName name p.

Definition setAdditionalConfigData (additionalConfigData : list (string * string))
    (p : Provisioner) : Provisioner :=
  let additionalConfigData :=
    if (Z.of_nat (length additionalConfigData) =? 0) then [] else additionalConfigData in
  set_additionalConfigData additionalConfigData p.

Definition setEndpoint (sc : StorageClass) (p : Provisioner) : Provisioner :=
  set_endpoint (map_get (sc_Parameters sc) key_objectStoreEndpoint) p.

Definition setRegion (sc : StorageClass) (p : Provisioner) : Provisioner :=
  let key := "region" in
  set_region (map_get (sc_Parameters sc) key) p.

Definition getObjectStoreEndpoint (p : Provisioner) : string :=
  Sprintf "%s:%d" [AStr (storeDomainName p); AInt (storePort p)].

(** [composeObjectBucket]. *)
Definition composeObjectBucket (p : Provisioner) : ObjectBucket :=
  let conn :=
    {| conn_Endpoint := Some
         {| BucketHost := storeDomainName p;
            BucketPort := storePort p;
            BucketName := bucketName p;
            Region := region p;
            AdditionalConfigData := additionalConfigData p |};
       conn_Authentication := Some
         {| auth_AccessKeys := Some
              {| AccessKeyID := accessKeyID p;
                 SecretAccessKey := secretAccessKey p |} |};
       AdditionalState := [(cephUser, cephUserName p)] |} in
  {| ob_Name := ""; ob_StorageClassName := ""; ob_Connection := Some conn |}.

(** *** Resolving the provisioner state

    A method with a pointer receiver returns the receiver as it leaves it,
    next to its Go result. *)

Definition setObjectContext (p : Provisioner) : M (Provisioner * option error) :=
  let msg := "error building object.Context: store %s cannot be empty" in
  if String.eqb (objectStoreName p) "" && String.eqb (endpoint p) "" then
    ret (p, Some (errors_Errorf msg [AStr "name"]))
  else if negb (String.eqb (endpoint p) "") then
    ret (set_objectContext
           (Some (NewContext (context p) (clusterInfo p) (objectStoreName p))) p,
         None)
  else
    r <- call (getObjectStore p) ;;
    match r with
    | inr err => ret (p, errors_Wrap (Some err) "failed to get cephObjectStore")
    | inl store =>
        r <- call (NewMultisiteContext (context p) (clusterInfo p) store) ;;
        match r with
        | inr err =>
            ret (set_objectContext None p,
                 errors_Wrap (Some err)
                   "failed to set multisite on provisioner's objectContext")
        | inl oc => ret (set_objectContext (Some oc) p, None)
        end
    end.

Definition setObjectStoreDomainName (sc : StorageClass) (p : Provisioner)
    : M (Provisioner * option error) :=
  let name := getObjectStoreName sc in
  let namespace := getObjectStoreNameSpace sc in
  r <- call (getObjectStore p) ;;
  match r with
  | inr err => ret (p, Some err)
  | inl _ => ret (set_storeDomainName (BuildDomainName name namespace) p, None)
  end.

Definition setObjectStorePort (p : Provisioner) : M (Provisioner * option error) :=
  r <- call (getObjectStore p) ;;
  match r with
  | inr err => ret (p, errors_Wrap (Some err) "failed to get cephObjectStore")
  | inl store =>
      let '(port, err) := Spec_GetPort (store_Spec store) in
      ret (set_storePort port p, err)
  end.

Definition populateDomainAndPort (sc : StorageClass) (p : Provisioner)
    : M (Provisioner * option error) :=
  let endpoint := sc_getObjectStoreEndpoint sc in
  if negb (String.eqb endpoint "") then
    let p := set_storeDomainName (GetIPFromEndpoint endpoint) p in
    if String.eqb (storeDomainName p) "" then
      ret (p, Some (errorString "failed to discover endpoint IP (is empty)"))
    else
      let p := set_storePort (GetPortFromEndpoint endpoint) p in
      if storePort p =? 0 then
        ret (p, Some (errorString "failed to discover endpoint port (is empty)"))
      else ret (p, None)
  else
    '(p, err) <- setObjectStoreDomainName sc p ;;
    match err with
    | Some _ => ret (p, errors_Wrap err "failed to set object store domain name")
    | None =>
        '(p, err) <- setObjectStorePort p ;;
        match err with
        | Some _ => ret (p, errors_Wrap err "failed to set object store port")
        | None => ret (p, None)
        end
    end.

Definition setTlsCaCert (p : Provisioner) : M (Provisioner * option error) :=
  r <- call (getObjectStore p) ;;
  match r with
  | inr err => ret (p, Some err)
  | inl objStore =>
      let p := set_tlsCert (Some []) p in
      if Gateway_SecurePort (store_Spec objStore) =? storePort p then
        '(cert, err) <- call (GetTlsCaCert (objectContext p) (store_Spec objStore)) ;;
        let p := set_tlsCert cert p in
        match err with
        | Some _ => ret (p, err)
        | None => ret (p, None)
        end
      else ret (p, None)
  end.

Definition setAdminOpsAPIClient (p : Provisioner) : M (Provisioner * option error) :=
  let httpClient := {| http_Timeout := HttpTimeOut; http_Transport := None |} in
  let httpClient :=
    match tlsCert p with
    | Some cert =>
        {| http_Timeout := http_Timeout httpClient;
           http_Transport := Some (BuildTransportTLS cert) |}
    | None => httpClient
    end in
  r <- call (getObjectStore p) ;;
  match r with
  | inr err =>
      ret (p, errors_Wrapf (Some err) "failed to get ceph object store %q"
                [AStr (objectStoreName p)])
  | inl cephObjectStore =>
      '(cephCluster, err) <- call (getCephCluster p) ;;
      match err with
      | Some _ =>
          ret (p, errors_Wrapf err "failed to get ceph cluster in namespace %q"
                    [AStr (ci_Namespace (clusterInfo p))])
      | None =>
          match cephCluster with
          | None =>
              ret (p, Some (errors_Errorf
                              "failed to read ceph cluster in namespace %q, it's nil"
                              [AStr (ci_Namespace (clusterInfo p))]))
          | Some cephCluster =>
              match objectContext p with
              | None => panic "nil pointer dereference: p.objectContext"
              | Some oc =>
                  let oc := {| oc_Name := oc_Name oc;
                               oc_CephClusterSpec := Some (cluster_Spec cephCluster);
                               oc_data := oc_data oc |} in
                  let p := set_objectContext (Some oc) p in
                  '(accessKey, secretKey, err) <-
                    call (GetAdminOPSUserCredentials (objectContext p)
                            (store_Spec cephObjectStore)) ;;
                  match err with
                  | Some _ => ret (p, errors_Wrap err "failed to retrieve rgw admin ops user")
                  | None =>
                      let s3endpoint :=
                        BuildDNSEndpoint
                          (BuildDomainName (oc_Name oc) (store_Namespace cephObjectStore))
                          (storePort p)
                          (Spec_IsTLSEnabled (store_Spec cephObjectStore)) in
                      let client :=
                        if logger_LevelAt DEBUG then NewDebugHTTPClient httpClient
                        else httpClient in
                      r <- call (admin_New s3endpoint accessKey secretKey client) ;;
                      match r with
                      | inr err =>
                          ret (set_adminOpsClient None p,
                               errors_Wrap (Some err)
                                 "failed to build admin ops API connection")
                      | inl api => ret (set_adminOpsClient (Some api) p, None)
                      end
                  end
              end
          end
      end
  end.

(** The tail shared by both initializers: the error of
    [setAdminOpsAPIClient] is replaced by a plainer one. *)
Definition adminOpsClientError (err : error) : option error :=
  if strings_Contains (Error err) OperatorNotInitializedMessage then
    Some (errorString OperatorNotInitializedMessage)
  else errors_Wrap (Some err) "failed to set admin ops api client".

Definition initializeCreateOrGrant (options : BucketOptions) (p : Provisioner)
    : M (Provisioner * option error) :=
  logf INFO "initializing and setting CreateOrGrant services" [] ;;
  match opt_ObjectBucketClaim options with
  | None => panic "nil pointer dereference: options.ObjectBucketClaim"
  | Some obc =>
      let scName := obc_StorageClassName obc in
      r <- call (getStorageClassWithBackoff p scName) ;;
      match r with
      | inr err =>
          logf ERROR "failed to get storage class for OBC %q in namespace %q. %v"
            [AStr (obc_Name obc); AStr (obc_Namespace obc); AErr err] ;;
          ret (p, Some err)
      | inl sc =>
          let p := setBucketName (opt_BucketName options) p in
          let p := let '(bucketName, isStatic) := isStaticBucket sc in
                   if isStatic then setBucketName bucketName p else p in
          let p := setObjectStoreName sc p in
          let p := setRegion sc p in
          let p := setAdditionalConfigData (obc_AdditionalConfig obc) p in
          let p := setEndpoint sc p in
          '(p, err) <- setObjectContext p ;;
          match err with
          | Some _ => ret (p, err)
          | None =>
              '(p, err) <- populateDomainAndPort sc p ;;
              match err with
              | Some _ => ret (p, errors_Wrap err "failed to set domain and port")
              | None =>
                  '(p, err) <- setTlsCaCert p ;;
                  match err with
                  | Some _ =>
                      ret (p, errors_Wrapf err
                                "failed to set CA cert for the OBC %q to connect with object store %q via TLS"
                                [AStr (obc_Name obc); AStr (objectStoreName p)])
                  | None =>
                      '(p, err) <- setAdminOpsAPIClient p ;;
                      match err with
                      | Some e => ret (p, adminOpsClientError e)
                      | None => ret (p, None)
                      end
                  end
              end
          end
      end
  end.

Definition initializeDeleteOrRevoke (ob : ObjectBucket) (p : Provisioner)
    : M (Provisioner * option error) :=
  r <- call (getStorageClassWithBackoff p (ob_StorageClassName ob)) ;;
  match r with
  | inr err =>
      ret (p, errors_Wrapf (Some err) "failed to get storage class for OB %q"
                [AStr (ob_Name ob)])
  | inl sc =>
      let p := setBucketName (getBucketName ob) p in
      let p := set_cephUserName (getCephUser ob) p in
      let p := set_objectStoreName (getObjectStoreName sc) p in
      let p := setEndpoint sc p in
      '(p, err) <- setObjectContext p ;;
      match err with
      | Some _ => ret (p, err)
      | None =>
          '(p, err) <- populateDomainAndPort sc p ;;
          match err with
          | Some _ => ret (p, err)
          | None =>
              '(p, err) <- setTlsCaCert p ;;
              match err with
              | Some _ =>
                  ret (p, errors_Wrapf err
                            "failed to set CA cert for the OB %q to connect with object store %q via TLS"
                            [AStr (ob_Name ob); AStr (objectStoreName p)])
              | None =>
                  '(p, err) <- setAdminOpsAPIClient p ;;
                  match err with
                  | Some e => ret (p, adminOpsClientError e)
                  | None => ret (p, None)
                  end
              end
          end
      end
  end.

(** *** Cleanup and quota settings *)

Definition deleteOBCResourceLogError (bucketname : string) (p : Provisioner) : M unit :=
  err <- call (deleteOBCResource p bucketname) ;;
  match err with
  | Some e => logf WARNING "failed to delete OBC resource. %v" [AErr e]
  | None => ret tt
  end.

Definition maxSizeToInt64 (maxSize : string) : Z * option error :=
  match ParseQuantity maxSize with
  | inr err => (0, errors_Wrap (Some err) "failed to parse quantity")
  | inl maxSizeInt => (Quantity_Value maxSizeInt, None)
  end.

(** A quota update naming only the user. *)
Definition QuotaSpec_of (uid : string) : QuotaSpec :=
  {| UID := uid; Enabled := None; MaxSize := None; MaxObjects := None |}.

Definition with_Enabled (b : bool) (q : QuotaSpec) : QuotaSpec :=
  {| UID := UID q; Enabled := Some b; MaxSize := MaxSize q; MaxObjects := MaxObjects q |}.

Definition with_MaxObjects (n : Z) (q : QuotaSpec) : QuotaSpec :=
  {| UID := UID q; Enabled := Enabled q; MaxSize := MaxSize q; MaxObjects := Some n |}.

Definition with_MaxSize (n : Z) (q : QuotaSpec) : QuotaSpec :=
  {| UID := UID q; Enabled := Enabled q; MaxSize := Some n; MaxObjects := MaxObjects q |}.

Definition setAdditionalSettings (options : BucketOptions) (p : Provisioner)
    : M (option error) :=
  let quotaEnabled := true in
  match opt_ObjectBucketClaim options with
  | None => panic "nil pointer dereference: options.ObjectBucketClaim"
  | Some obc =>
      let maxObjects := MaxObjectQuota (obc_AdditionalConfig obc) in
      let maxSize := MaxSizeQuota (obc_AdditionalConfig obc) in
      if String.eqb maxObjects "" && String.eqb maxSize "" then ret None
      else
        err <- call (SetUserQuota (adminOpsClient p)
                       (with_Enabled quotaEnabled (QuotaSpec_of (cephUserName p)))) ;;
        match err with
        | Some _ =>
            ret (errors_Wrapf err "failed to enable user %q quota for obc"
                   [AStr (cephUserName p)])
        | None =>
            err <-
              (if negb (String.eqb maxObjects "") then
                 let '(maxObjectsInt, err) := strconv_Atoi maxObjects in
                 match err with
                 | Some _ => ret (errors_Wrap err "failed to convert maxObjects to integer")
                 | None =>
                     let maxObjectsInt64 := maxObjectsInt in
                     err <- call (SetUserQuota (adminOpsClient p)
                                    (with_MaxObjects maxObjectsInt64
                                       (QuotaSpec_of (cephUserName p)))) ;;
                     ret (errors_Wrapf err "failed to set MaxObject to user %q"
                            [AStr (cephUserName p)])
                 end
               else ret None) ;;
            match err with
            | Some _ => ret err
            | None =>
                if negb (String.eqb maxSize "") then
                  let '(maxSizeInt, err) := maxSizeToInt64 maxSize in
                  match err with
                  | Some _ =>
                      ret (errors_Wrapf err "failed to parse maxSize quota for user %q"
                             [AStr (cephUserName p)])
                  | None =>
                      err <- call (SetUserQuota (adminOpsClient p)
                                     (with_MaxSize maxSizeInt
                                        (QuotaSpec_of (cephUserName p)))) ;;
                      ret (errors_Wrapf err "failed to set MaxSize to user %q"
                             [AStr (cephUserName p)])
                  end
                else ret None
            end
        end
  end.

Definition updateAdditionalSettings (ob : ObjectBucket) (p : Provisioner)
    : M (option error) :=
  match ob_Connection ob with
  | None => panic "nil pointer dereference: ob.Spec.Connection"
  | Some conn =>
  match conn_Endpoint conn with
  | None => panic "nil pointer dereference: ob.Spec.Endpoint"
  | Some ep =>
      let maxObjects := MaxObjectQuota (AdditionalConfigData ep) in
      let maxSize := MaxSizeQuota (AdditionalConfigData ep) in
      let '(maxObjectsInt64, err) :=
        if negb (String.eqb maxObjects "") then strconv_Atoi maxObjects else (0, None) in
      match err with
      | Some _ => ret (errors_Wrap err "failed to convert maxObjects to integer")
      | None =>
      let '(maxSizeInt64, err) :=
        if negb (String.eqb maxSize "") then maxSizeToInt64 maxSize else (0, None) in
      match err with
      | Some _ =>
          ret (errors_Wrapf err "failed to parse maxSize quota for user %q"
                 [AStr (cephUserName p)])
      | None =>
          '(objectUser, err) <-
            call (GetUser (adminOpsClient p)
                    (User_with (map_get (AdditionalState conn) cephUser) None)) ;;
          match err with
          | Some _ =>
              ret (errors_Wrapf err "failed to fetch user %q" [AStr (cephUserName p)])
          | None =>
              match Enabled (UserQuota objectUser) with
              | None => panic "nil pointer dereference: objectUser.UserQuota.Enabled"
              | Some enabled =>
                  if enabled
                     && (String.eqb maxObjects "" || (maxObjectsInt64 <? 0))
                     && (String.eqb maxSize "" || (maxSizeInt64 <? 0))
                  then
                    let quotaEnabled := false in
                    err <- call (SetUserQuota (adminOpsClient p)
                                   (with_Enabled quotaEnabled
                                      (QuotaSpec_of (cephUserName p)))) ;;
                    match err with
                    | Some _ =>
                        ret (errors_Wrapf err "failed to disable quota to user %q"
                               [AStr (cephUserName p)])
                    | None => ret None
                    end
                  else
                    let quotaEnabled := true in
                    let quotaSpec := with_Enabled quotaEnabled (QuotaSpec_of (cephUserName p)) in
                    (* MaxObject is modified *)
                    quotaSpec <-
                      (if negb (String.eqb maxObjects "") then
                         match MaxObjects (UserQuota objectUser) with
                         | None =>
                             panic "nil pointer dereference: objectUser.UserQuota.MaxObjects"
                         | Some current =>
                             if negb (maxObjectsInt64 =? current)
                             then ret (with_MaxObjects maxObjectsInt64 quotaSpec)
                             else ret quotaSpec
                         end
                       else ret quotaSpec) ;;
                    (* MaxSize is modified *)
                    quotaSpec <-
                      (if negb (String.eqb maxSize "") then
                         match MaxSize (UserQuota objectUser) with
                         | None =>
                             panic "nil pointer dereference: objectUser.UserQuota.MaxSize"
                         | Some current =>
                             if negb (maxSizeInt64 =? current)
                             then ret (with_MaxSize maxSizeInt64 quotaSpec)
                             else ret quotaSpec
                         end
                       else ret quotaSpec) ;;
                    err <- call (SetUserQuota (adminOpsClient p) quotaSpec) ;;
                    match err with
                    | Some _ =>
                        ret (errors_Wrapf err "failed to update quota to user %q"
                               [AStr (cephUserName p)])
                    | None => ret None
                    end
              end
          end
      end
      end
  end
  end.

(** [Update]. *)
Definition Update (ob : ObjectBucket) (p : Provisioner) : M (option error) :=
  logf DEBUG "Update event for OB: %+v" [AVal "ob"] ;;
  '(p, err) <- initializeDeleteOrRevoke ob p ;;
  match err with
  | Some _ => ret err
  | None => updateAdditionalSettings ob p
  end.

(** *** The lifecycle operations

    Each has a value receiver: it works on its own copy of the provisioner.
    The result is the pair that Go returns. *)

(** The statement built for the provisioner's user on its bucket. *)
Definition statementFor (p : Provisioner) (effect : PolicyStatement -> PolicyStatement)
    : PolicyStatement :=
  Actions AllowedActions
    (effect
       (ForSubResources [bucketName p]
          (ForResources [bucketName p]
             (ForPrincipals [cephUserName p]
                (WithSID (cephUserName p) NewPolicyStatement))))).

(** [Provision]. *)
Definition Provision (options : BucketOptions) (p : Provisioner)
    : M (option ObjectBucket * option error) :=
  logf DEBUG "Provision event for OB options: %+v" [AVal "options"] ;;
  '(p, err) <- initializeCreateOrGrant options p ;;
  match err with
  | Some _ => ret (None, err)
  | None =>
  match opt_ObjectBucketClaim options with
  | None => panic "nil pointer dereference: options.ObjectBucketClaim"
  | Some obc =>
  logf INFO "Provision: creating bucket %q for OBC %q"
    [AStr (bucketName p); AStr (obc_Name obc)] ;;
  (* dynamically create a new ceph user *)
  '(p, (accessKey, secretKey, err)) <- call (createCephUser p "") ;;
  let p := set_secretAccessKey secretKey (set_accessKeyID accessKey p) in
  match err with
  | Some _ => ret (None, errors_Wrap err "Provision: can't create ceph user")
  | None =>
  r <- call (NewS3Agent (accessKeyID p) (secretAccessKey p) (getObjectStoreEndpoint p)
               (logger_LevelAt DEBUG) (tlsCert p)) ;;
  match r with
  | inr err =>
      deleteOBCResourceLogError "" p ;;
      ret (None, Some err)
  | inl s3svc =>
  (* create the bucket *)
  err <- call (CreateBucket s3svc (bucketName p)) ;;
  match err with
  | Some e =>
      let err := withMessage e (Sprintf "error creating bucket %q" [AStr (bucketName p)]) in
      logf ERROR (Error err) [] ;;
      deleteOBCResourceLogError "" p ;;
      ret (None, Some err)
  | None =>
  let singleBucketQuota := 1 in
  '(_, err) <- call (ModifyUser (adminOpsClient p)
                       (User_with (cephUserName p) (Some singleBucketQuota))) ;;
  match err with
  | Some _ =>
      deleteOBCResourceLogError (bucketName p) p ;;
      ret (None, err)
  | None =>
  logf INFO "set user %q bucket max to %d"
    [AStr (cephUserName p); AInt singleBucketQuota] ;;
  (* setting quota limit if it is enabled *)
  err <- setAdditionalSettings options p ;;
  match err with
  | Some _ =>
      deleteOBCResourceLogError (bucketName p) p ;;
      ret (None, err)
  | None => ret (Some (composeObjectBucket p), None)
  end end end end end end end.

(** [Grant]. *)
Definition Grant (options : BucketOptions) (p : Provisioner)
    : M (option ObjectBucket * option error) :=
  logf DEBUG "Grant event for OB options: %+v" [AVal "options"] ;;
  (* initialize and set the AWS services and commonly used variables *)
  '(p, err) <- initializeCreateOrGrant options p ;;
  match err with
  | Some _ => ret (None, err)
  | None =>
  match opt_ObjectBucketClaim options with
  | None => panic "nil pointer dereference: options.ObjectBucketClaim"
  | Some obc =>
  logf INFO "Grant: allowing access to bucket %q for OBC %q"
    [AStr (bucketName p); AStr (obc_Name obc)] ;;
  (* check and make sure the bucket exists *)
  logf INFO "Checking for existing bucket %q" [AStr (bucketName p)] ;;
  '(exists_, err) <- call (bucketExists p (bucketName p)) ;;
  if negb exists_ then
    ret (None, errors_Wrapf err "bucket %s does not exist" [AStr (bucketName p)])
  else
  '(p, (accessKey, secretKey, err)) <- call (createCephUser p "") ;;
  let p := set_secretAccessKey secretKey (set_accessKeyID accessKey p) in
  match err with
  | Some _ => ret (None, err)
  | None =>
  (* need to quota into -1 for restricting creation of new buckets in rgw *)
  let restrictBucketCreation := -1 in
  '(_, err) <- call (ModifyUser (adminOpsClient p)
                       (User_with (cephUserName p) (Some restrictBucketCreation))) ;;
  match err with
  | Some _ =>
      deleteOBCResourceLogError "" p ;;
      ret (None, err)
  | None =>
  (* get the bucket's owner via the bucket metadata *)
  '(stats, err) <- call (GetBucketInfo (adminOpsClient p) (Bucket_named (bucketName p))) ;;
  match err with
  | Some _ =>
      deleteOBCResourceLogError "" p ;;
      ret (None, errors_Wrapf err "failed to get bucket %q stats" [AStr (bucketName p)])
  | None =>
  '(objectUser, err) <- call (GetUser (adminOpsClient p) (User_with (Owner stats) None)) ;;
  match err with
  | Some _ =>
      deleteOBCResourceLogError "" p ;;
      ret (None, errors_Wrapf err "failed to get user %q" [AStr (Owner stats)])
  | None =>
  match Keys objectUser with
  | [] => panic "index out of range: objectUser.Keys[0]"
  | key0 :: _ =>
  r <- call (NewS3Agent (AccessKey key0) (SecretKey key0) (getObjectStoreEndpoint p)
               (logger_LevelAt DEBUG) (tlsCert p)) ;;
  match r with
  | inr err =>
      deleteOBCResourceLogError "" p ;;
      ret (None, Some err)
  | inl s3svc =>
  (* if the policy does not exist, we'll create a new and append the statement to it *)
  '(policy, err) <- call (GetBucketPolicy s3svc (bucketName p)) ;;
  let fetchFailed :=
    match err with
    | Some e =>
        match as_awserr e with
        | Some code => negb (String.eqb code "NoSuchBucketPolicy")
        | None => false
        end
    | None => false
    end in
  if fetchFailed then
    deleteOBCResourceLogError "" p ;;
    ret (None, err)
  else
  let statement := statementFor p Allows in
  let policy :=
    match policy with
    | None => NewBucketPolicy statement
    | Some policy => ModifyBucketPolicy policy statement
    end in
  '(out, err) <- call (PutBucketPolicy s3svc (bucketName p) policy) ;;
  logf INFO "PutBucketPolicy output: %v" [AVal "out"] ;;
  match err with
  | Some _ =>
      deleteOBCResourceLogError "" p ;;
      ret (None, err)
  | None =>
  (* setting quota limit if it is enabled *)
  err <- setAdditionalSettings options p ;;
  match err with
  | Some _ =>
      deleteOBCResourceLogError "" p ;;
      ret (None, err)
  | None =>
  (* returned ob with connection info *)
  ret (Some (composeObjectBucket p), None)
  end end end end end end end end end end.

(** [Delete]. *)
Definition Delete (ob : ObjectBucket) (p : Provisioner) : M (option error) :=
  logf DEBUG "Delete event for OB: %+v" [AVal "ob"] ;;
  '(p, err) <- initializeDeleteOrRevoke ob p ;;
  match err with
  | Some _ => ret err
  | None =>
      logf INFO "Delete: deleting bucket %q for OB %q"
        [AStr (bucketName p); AStr (ob_Name ob)] ;;
      err <- call (deleteOBCResource p (bucketName p)) ;;
      match err with
      | Some _ =>
          ret (errors_Wrapf err "failed to delete OBCResource bucket %q"
                 [AStr (bucketName p)])
      | None => ret None
      end
  end.

(** [Revoke]. *)
Definition Revoke (ob : ObjectBucket) (p : Provisioner) : M (option error) :=
  logf DEBUG "Revoke event for OB: %+v" [AVal "ob"] ;;
  '(p, err) <- initializeDeleteOrRevoke ob p ;;
  match err with
  | Some _ => ret err
  | None =>
  logf INFO "Revoke: denying access to bucket %q for OB %q"
    [AStr (bucketName p); AStr (ob_Name ob)] ;;
  (* finally, delete the user *)
  let finally := deleteOBCResourceLogError "" p ;; ret None in
  '(bucket, err) <- call (GetBucketInfo (adminOpsClient p) (Bucket_named (bucketName p))) ;;
  match err with
  | Some e =>
      logf ERROR "%v" [AErr e] ;;
      finally
  | None =>
  if String.eqb (Owner bucket) "" then
    ret (Some (errors_Errorf "failed to find bucket %q owner" [AStr (bucketName p)]))
  else
  '(user, err) <- call (GetUser (adminOpsClient p) (User_with (Owner bucket) None)) ;;
  match err with
  | Some e =>
      if errors_Is e ErrNoSuchUser then
        (* The user may not exist. Ignore this in order to ensure the
           PolicyStatement does not contain the stale user. *)
        ret None
      else ret err
  | None =>
  match Keys user with
  | [] => panic "index out of range: user.Keys[0]"
  | key0 :: _ =>
  r <- call (NewS3Agent (AccessKey key0) (SecretKey key0) (getObjectStoreEndpoint p)
               (logger_LevelAt DEBUG) (tlsCert p)) ;;
  match r with
  | inr err => ret (Some err)
  | inl s3svc =>
  (* Ignore cases where there is no bucket policy. *)
  '(policy, err) <- call (GetBucketPolicy s3svc (bucketName p)) ;;
  r <-
    match err with
    | Some e =>
        if match as_awserr e with
           | Some code => String.eqb code "NoSuchBucketPolicy"
           | None => false
           end
        then
          logf ERROR "no bucket policy for bucket %q, so no need to drop policy"
            [AStr (bucketName p)] ;;
          ret (inl None)
        else
          logf ERROR "error getting policy for bucket %q. %v"
            [AStr (bucketName p); AErr e] ;;
          ret (inr e)
    | None => ret (inl policy)
    end ;;
  match r with
  | inr e => ret (Some e)
  | inl policy =>
  if String.eqb (Owner bucket) (cephUserName p) then
    let statement := statementFor p Denies in
    let policy :=
      match policy with
      | None => NewBucketPolicy statement
      | Some policy => ModifyBucketPolicy policy statement
      end in
    '(out, err) <- call (PutBucketPolicy s3svc (bucketName p) policy) ;;
    logf INFO "PutBucketPolicy output: %v" [AVal "out"] ;;
    match err with
    | Some _ => ret (errors_Wrap err "failed to update policy")
    | None => ret None
    end
  else
  (* drop policy if present *)
  match policy with
  | Some policy =>
      let policy := DropPolicyStatements policy (cephUserName p) in
      '(_, err) <- call (PutBucketPolicy s3svc (bucketName p) policy) ;;
      match err with
      | Some _ => ret err
      | None =>
          logf INFO "principal %q ejected from bucket %q policy"
            [AStr (cephUserName p); AStr (bucketName p)] ;;
          finally
      end
  | None => finally
  end
  end end end end end end.

End Code.

(** *** Reading a trace *)

Section Traces.

Context {P : Platform} {Rd : Readers}.

Fixpoint calls_of (t : list Entry) : list Event :=
  match t with
  | [] => []
  | ECall e :: rest => e :: calls_of rest
  | ELog _ :: rest => calls_of rest
  end.

Fixpoint logs_of (t : list Entry) : list LogEntry :=
  match t with
  | [] => []
  | ECall _ :: rest => logs_of rest
  | ELog l :: rest => l :: logs_of rest
  end.

(** The collaborator operation behind a call. *)
Inductive Kind : Type :=
| K_getStorageClassWithBackoff | K_getObjectStore | K_getCephCluster
| K_createCephUser | K_bucketExists | K_deleteOBCResource
| K_NewMultisiteContext | K_GetTlsCaCert | K_GetAdminOPSUserCredentials
| K_NewS3Agent | K_CreateBucket | K_GetBucketPolicy | K_PutBucketPolicy
| K_admin_New | K_GetBucketInfo | K_GetUser | K_ModifyUser | K_SetUserQuota.

Definition kind {R : Type} (c : Call R) : Kind :=
  match c with
  | getStorageClassWithBackoff _ _ => K_getStorageClassWithBackoff
  | getObjectStore _ => K_getObjectStore
  | getCephCluster _ => K_getCephCluster
  | createCephUser _ _ => K_createCephUser
  | bucketExists _ _ => K_bucketExists
  | deleteOBCResource _ _ => K_deleteOBCResource
  | NewMultisiteContext _ _ _ => K_NewMultisiteContext
  | GetTlsCaCert _ _ => K_GetTlsCaCert
  | GetAdminOPSUserCredentials _ _ => K_GetAdminOPSUserCredentials
  | NewS3Agent _ _ _ _ _ => K_NewS3Agent
  | CreateBucket _ _ => K_CreateBucket
  | GetBucketPolicy _ _ => K_GetBucketPolicy
  | PutBucketPolicy _ _ _ => K_PutBucketPolicy
  | admin_New _ _ _ _ => K_admin_New
  | GetBucketInfo _ _ => K_GetBucketInfo
  | GetUser _ _ => K_GetUser
  | ModifyUser _ _ => K_ModifyUser
  | SetUserQuota _ _ => K_SetUserQuota
  end.

Definition event_kind (e : Event) : Kind :=
  match e with Ev c _ => kind c end.

Definition kinds_of (t : list Entry) : list Kind := map event_kind (calls_of t).

(** The lookups by which the provisioner state is resolved. *)
Definition is_lookup (k : Kind) : bool :=
  match k with
  | K_getStorageClassWithBackoff | K_getObjectStore | K_getCephCluster
  | K_NewMultisiteContext | K_GetTlsCaCert | K_GetAdminOPSUserCredentials
  | K_admin_New => true
  | _ => false
  end.

(** Reading a user and writing a quota. *)
Definition is_quota_operation (k : Kind) : bool :=
  match k with
  | K_GetUser | K_SetUserQuota => true
  | _ => false
  end.

(** Writing a bucket policy, creating a bucket or a user, and the cleanup
    that deletes them. *)
Definition touches_policy_bucket_or_user (k : Kind) : bool :=
  match k with
  | K_PutBucketPolicy | K_CreateBucket | K_createCephUser | K_deleteOBCResource => true
  | _ => false
  end.

(** The quota updates sent, the policies written and the cleanups asked for,
    in order. *)
Definition quota_of (e : Event) : list QuotaSpec :=
  match e with
  | Ev c _ => match c with SetUserQuota _ q => [q] | _ => [] end
  end.

Definition policy_of (e : Event) : list (string * BucketPolicy) :=
  match e with
  | Ev c _ => match c with PutBucketPolicy _ b policy => [(b, policy)] | _ => [] end
  end.

Definition cleanup_of (e : Event) : list (Provisioner * string) :=
  match e with
  | Ev c _ => match c with deleteOBCResource p b => [(p, b)] | _ => [] end
  end.

Definition quotaUpdates (t : list Entry) : list QuotaSpec :=
  flat_map quota_of (calls_of t).

Definition policyWrites (t : list Entry) : list (string * BucketPolicy) :=
  flat_map policy_of (calls_of t).

Definition cleanups (t : list Entry) : list (Provisioner * string) :=
  flat_map cleanup_of (calls_of t).

(** What a function of the events sees in a trace, in order. *)
Definition observe {X : Type} (f : Event -> list X) (t : list Entry) : list X :=
  flat_map f (calls_of t).

(** The answers of [createCephUser], of [bucketExists] and of
    [GetBucketPolicy]. *)
Definition created_of (e : Event)
    : list (Provisioner * (string * string * option error)) :=
  match e with
  | Ev c r =>
      match c in Call R return R -> list (Provisioner * (string * string * option error)) with
      | createCephUser _ _ => fun r => [r]
      | _ => fun _ => []
      end r
  end.

Definition exists_of (e : Event) : list (bool * option error) :=
  match e with
  | Ev c r =>
      match c in Call R return R -> list (bool * option error) with
      | bucketExists _ _ => fun r => [r]
      | _ => fun _ => []
      end r
  end.

Definition fetch_of (e : Event) : list (option BucketPolicy * option error) :=
  match e with
  | Ev c r =>
      match c in Call R return R -> list (option BucketPolicy * option error) with
      | GetBucketPolicy _ _ => fun r => [r]
      | _ => fun _ => []
      end r
  end.

(** The cleanups with their answers, the users passed to [ModifyUser], the
    buckets whose creation succeeded, and the keys of the S3 sessions
    opened. *)
Definition cleanup_result_of (e : Event) : list (Provisioner * string * option error) :=
  match e with
  | Ev c r =>
      match c in Call R return R -> list (Provisioner * string * option error) with
      | deleteOBCResource p b => fun r => [(p, b, r)]
      | _ => fun _ => []
      end r
  end.

Definition limit_of (e : Event) : list User :=
  match e with
  | Ev c _ => match c with ModifyUser _ u => [u] | _ => [] end
  end.

Definition bucket_created_of (e : Event) : list string :=
  match e with
  | Ev c r =>
      match c in Call R return R -> list string with
      | CreateBucket _ name =>
          fun r => match r with None => [name] | Some _ => [] end
      | _ => fun _ => []
      end r
  end.

Definition session_of (e : Event) : list (string * string) :=
  match e with
  | Ev c _ => match c with NewS3Agent ak sk _ _ _ => [(ak, sk)] | _ => [] end
  end.

(** The HTTP clients handed to [admin.New], and the errors answered by the
    calls that only [setAdminOpsAPIClient] makes. *)
Definition admin_client_of (e : Event) : list HTTPClient :=
  match e with
  | Ev c _ => match c with admin_New _ _ _ client => [client] | _ => [] end
  end.

Definition admin_setup_error_of (e : Event) : list error :=
  match e with
  | Ev c r =>
      match c in Call R return R -> list error with
      | getCephCluster _ =>
          fun r => match snd r with Some err => [err] | None => [] end
      | GetAdminOPSUserCredentials _ _ =>
          fun r => match snd r with Some err => [err] | None => [] end
      | admin_New _ _ _ _ =>
          fun r => match r with inr err => [err] | inl _ => [] end
      | _ => fun _ => []
      end r
  end.

(** The provisioner holding the keys that [createCephUser] returned. *)
Definition with_keys (created : Provisioner * (string * string * option error))
    : Provisioner :=
  let '(p, (accessKey, secretKey, _)) := created in
  set_secretAccessKey secretKey (set_accessKeyID accessKey p).

(** The answers of [GetUser]. *)
Definition user_of (e : Event) : list (User * option error) :=
  match e with
  | Ev c r =>
      match c in Call R return R -> list (User * option error) with
      | GetUser _ _ => fun r => [r]
      | _ => fun _ => []
      end r
  end.

(** The first line that Update gives to the logger. *)
Definition Update_log : Entry :=
  ELog (mkLog DEBUG "Update event for OB: %+v" [AVal "ob"]).

(** A trace all of whose calls are of the kinds [ok]. *)
Definition all_kinds (ok : Kind -> bool) (t : list Entry) : Prop :=
  Forall (fun k => ok k = true) (kinds_of t).

(** The policy that Revoke works on after the fetch: a fetched policy, or
    none when the bucket has no policy. *)
Definition fetched_policy (answer : option BucketPolicy * option error)
    : option (option BucketPolicy) :=
  match answer with
  | (policy, None) => Some policy
  | (_, Some e) =>
      match as_awserr e with
      | Some code => if String.eqb code "NoSuchBucketPolicy" then Some None else None
      | None => None
      end
  end.

Context {Wd : World}.

(** A computation all of whose calls, in every world, are of the kinds
    [ok]. *)
Definition only (ok : Kind -> bool) {A : Type} (m : M A) : Prop :=
  forall w, all_kinds ok (snd (m w)).

(** A step of the resolution that leaves the user and bucket names of the
    receiver as they were. *)
Definition keeps_names (p : Provisioner) (m : M (Provisioner * option error)) : Prop :=
  forall w p1 err w1 t,
    m w = (Done (p1, err), w1, t) ->
    cephUserName p1 = cephUserName p /\ bucketName p1 = bucketName p.

End Traces.

End Bucket.

(** ** A concrete cluster

    One platform and a family of worlds with scripted answers, on which the
    operations are run. *)

Module Scenarios.

Import Bucket.

#[export] Instance platform : Platform := {|
  clusterd_Context := unit;
  ClusterSpec := unit;
  ObjectStoreSpec := Z * Z;            (* gateway port, secure port *)
  ContextData := unit;
  Transport := list ascii;
  AdminAPI := string;
  S3Agent := string;
  PutBucketPolicyOutput := unit;
  Quantity := Z;
  Sprintf := fun format args =>
    fold_left
      (fun acc a =>
         match a with
         | AStr s => acc ++ " " ++ s
         | AErr e => acc ++ " " ++ Error e
         | AInt _ => acc ++ " #"
         | AVal d => acc ++ " " ++ d
         end)%string
      args format;
  logger_LevelAt := fun _ => false;
  OperatorNotInitializedMessage := "skipping reconcile since operator is still initializing";
  key_objectStoreName := "objectStoreName";
  key_objectStoreEndpoint := "endpoint";
  cephUser := "cephUser";
  AllowedActions := ["s3:GetObject"; "s3:PutObject"; "s3:DeleteObject"; "s3:ListBucket"];
  HttpTimeOut := 15;
  ParseQuantity := Quantities.ParseQuantity;
  Quantity_Value := fun q => q;
  Gateway_SecurePort := snd;
  Spec_GetPort := fun spec => (fst spec, None);
  Spec_IsTLSEnabled := fun spec => negb (snd spec =? 0);
  BuildDomainName := fun name namespace =>
    ("rook-ceph-rgw-" ++ name ++ "." ++ namespace ++ ".svc")%string;
  BuildDNSEndpoint := fun domain _ tls =>
    ((if tls then "https://" else "http://") ++ domain)%string;
  GetIPFromEndpoint := fun endpoint => endpoint;
  GetPortFromEndpoint := fun _ => 80;
  BuildTransportTLS := fun cert => cert
|}.

#[export] Instance readers : Readers := {|
  isStaticBucket := fun sc =>
    let name := map_get (sc_Parameters sc) "bucketName" in
    (name, negb (String.eqb name ""));
  getObjectStoreName := fun sc => map_get (sc_Parameters sc) "objectStoreName";
  getObjectStoreNameSpace := fun sc => map_get (sc_Parameters sc) "objectStoreNamespace";
  sc_getObjectStoreEndpoint := fun sc => map_get (sc_Parameters sc) "endpoint";
  getBucketName := fun ob =>
    match ob_Connection ob with
    | Some conn =>
        match conn_Endpoint conn with
        | Some ep => BucketName ep
        | None => ""
        end
    | None => ""
    end;
  getCephUser := fun ob =>
    match ob_Connection ob with
    | Some conn => map_get (AdditionalState conn) "cephUser"
    | None => ""
    end;
  MaxObjectQuota := fun config => map_get config "maxObjects";
  MaxSizeQuota := fun config => map_get config "maxSize";
  NewContext := fun _ _ name =>
    {| oc_Name := name; oc_CephClusterSpec := None; oc_data := tt |};
  NewDebugHTTPClient := fun client => client
|}.

(** The answers that differ from one run to the next; every other call
    succeeds.  The world does not change as calls are made. *)
Record Script : Type := mkScript {
  storageClass : StorageClass + error;
  existsAnswer : bool * option error;
  bucketInfo : AdminBucket * option error;
  userAnswer : User * option error;
  modifyUserAnswer : option error;
  setUserQuotaAnswer : option error;
  policyAnswer : option BucketPolicy * option error;
  putPolicyAnswer : option error;
  cleanupAnswer : option error
}.

Definition theStore : CephObjectStore :=
  {| store_Namespace := "rook-ceph"; store_Spec := (80, 0) |}.

Definition answer (s : Script) (R : Type) (c : Call R) : R :=
  match c in Call R return R with
  | getStorageClassWithBackoff _ _ => storageClass s
  | getObjectStore _ => inl theStore
  | getCephCluster _ => (Some {| cluster_Spec := tt |}, None)
  | createCephUser p _ => (set_cephUserName "obc-user" p, ("AK", "SK", None))
  | bucketExists _ _ => existsAnswer s
  | deleteOBCResource _ _ => cleanupAnswer s
  | NewMultisiteContext _ _ _ =>
      inl {| oc_Name := "my-store"; oc_CephClusterSpec := None; oc_data := tt |}
  | GetTlsCaCert _ _ => (Some [], None)
  | GetAdminOPSUserCredentials _ _ => ("adminAK", "adminSK", None)
  | NewS3Agent accessKey _ _ _ _ => inl accessKey
  | CreateBucket _ _ => None
  | GetBucketPolicy _ _ => policyAnswer s
  | PutBucketPolicy _ _ _ => (Some tt, putPolicyAnswer s)
  | admin_New endpoint _ _ _ => inl endpoint
  | GetBucketInfo _ _ => bucketInfo s
  | GetUser _ _ => userAnswer s
  | ModifyUser _ u => (u, modifyUserAnswer s)
  | SetUserQuota _ _ => setUserQuotaAnswer s
  end.

#[export] Instance world : World := {|
  W := Script;
  handle := fun R c s => (answer s R c, s)
|}.

Definition theClass : StorageClass :=
  {| sc_Parameters := [("objectStoreName", "my-store");
                       ("objectStoreNamespace", "rook-ceph")] |}.

Definition quota (enabled : bool) (maxObjects maxSize : Z) : QuotaSpec :=
  {| UID := "obc-user"; Enabled := Some enabled;
     MaxSize := Some maxSize; MaxObjects := Some maxObjects |}.

Definition theUser (q : QuotaSpec) : User :=
  {| ID := "obc-user"; Keys := [{| AccessKey := "AK"; SecretKey := "SK" |}];
     MaxBuckets := Some 1; UserQuota := q |}.

Definition noUser : User := User_with "" None.

(** Everything succeeds; the bucket belongs to [owner]. *)
Definition calm (owner : string) (q : QuotaSpec) : Script :=
  {| storageClass := inl theClass;
     existsAnswer := (true, None);
     bucketInfo := ({| Bucket := "photos"; Owner := owner; PurgeObject := None |}, None);
     userAnswer := (theUser q, None);
     modifyUserAnswer := None;
     setUserQuotaAnswer := None;
     policyAnswer := (None, Some (awsError "NoSuchBucketPolicy" "no policy"));
     putPolicyAnswer := None;
     cleanupAnswer := None |}.

(** The binding of user [obc-user] to bucket [photos], with the given
    additional configuration. *)
Definition binding (config : list (string * string)) : ObjectBucket :=
  {| ob_Name := "obc-photos";
     ob_StorageClassName := "rook-ceph-bucket";
     ob_Connection := Some
       {| conn_Endpoint := Some
            {| BucketHost := "rook-ceph-rgw-my-store.rook-ceph.svc";
               BucketPort := 80;
               BucketName := "photos";
               Region := "";
               AdditionalConfigData := config |};
          conn_Authentication := Some
            {| auth_AccessKeys := Some
                 {| AccessKeyID := "AK"; SecretAccessKey := "SK" |} |};
          AdditionalState := [("cephUser", "obc-user")] |} |}.

Definition claim (config : list (string * string)) : BucketOptions :=
  {| opt_ObjectBucketClaim := Some
       {| obc_Name := "photos-claim"; obc_Namespace := "default";
          obc_StorageClassName := "rook-ceph-bucket";
          obc_AdditionalConfig := config |};
     opt_BucketName := "photos" |}.

Definition fresh : Provisioner :=
  NewProvisioner tt {| ci_Namespace := "rook-ceph" |}.

(** The provisioner after its state is resolved from a binding, and from a
    claim. *)
Definition resolved (ob : ObjectBucket) (w : Script) : Provisioner :=
  match fst (fst (initializeDeleteOrRevoke ob fresh w)) with
  | Done (p1, _) => p1
  | Panic _ => fresh
  end.

Definition prepared (options : BucketOptions) (w : Script) : Provisioner :=
  match fst (fst (initializeCreateOrGrant options fresh w)) with
  | Done (p1, _) => p1
  | Panic _ => fresh
  end.

(** The account of the bucket's owner has been removed. *)
Definition ownerGone (owner : string) : Script :=
  {| storageClass := inl theClass;
     existsAnswer := (true, None);
     bucketInfo := ({| Bucket := "photos"; Owner := owner; PurgeObject := None |}, None);
     userAnswer := (noUser, Some (adminError "NoSuchUser" "NoSuchUser tx0001 rgw-a"));
     modifyUserAnswer := None;
     setUserQuotaAnswer := None;
     policyAnswer := (None, Some (awsError "NoSuchBucketPolicy" "no policy"));
     putPolicyAnswer := None;
     cleanupAnswer := None |}.

(** The bucket is gone: the existence check says no, without an error, and
    its info cannot be fetched. *)
Definition bucketGone : Script :=
  {| storageClass := inl theClass;
     existsAnswer := (false, None);
     bucketInfo := (Bucket_named "", Some (adminError "NoSuchBucket" "NoSuchBucket tx0002 rgw-a"));
     userAnswer := (theUser (quota false 0 0), None);
     modifyUserAnswer := None;
     setUserQuotaAnswer := None;
     policyAnswer := (None, Some (awsError "NoSuchBucketPolicy" "no policy"));
     putPolicyAnswer := None;
     cleanupAnswer := None |}.

(** The admin API refuses to change the user, and the cleanup fails too. *)
Definition limitRefused : Script :=
  {| storageClass := inl theClass;
     existsAnswer := (true, None);
     bucketInfo := ({| Bucket := "photos"; Owner := "owner"; PurgeObject := None |}, None);
     userAnswer := (theUser (quota false 0 0), None);
     modifyUserAnswer := Some (adminError "InvalidArgument" "InvalidArgument tx0003 rgw-a");
     setUserQuotaAnswer := None;
     policyAnswer := (None, Some (awsError "NoSuchBucketPolicy" "no policy"));
     putPolicyAnswer := None;
     cleanupAnswer := Some (errorString "failed to delete bucket") |}.

(** The settings of the CSI driver: a store of operator settings by key, and
    a decoder that knows two documents. *)
Definition settings (store : list (string * string)) (configMap key default : string)
    : string * option error :=
  (map_get store key, None).

Definition twoTolerations : list Csi.Toleration :=
  [ Csi.mkToleration "" "Equal" "x" "NoSchedule" None;
    Csi.mkToleration "storage" "Exists" "ssd" "" (Some 30) ].

Definition decode (raw : string) : list Csi.Toleration * option error :=
  if String.eqb raw "two" then (twoTolerations, None)
  else ([], Some (errorString "error unmarshaling JSON")).

(** A storage class that names a bucket made beforehand. *)
Definition staticClass : StorageClass :=
  {| sc_Parameters := [("objectStoreName", "my-store");
                       ("objectStoreNamespace", "rook-ceph");
                       ("bucketName", "archive")] |}.

(** Everything succeeds, for a claim on the bucket made beforehand. *)
Definition archive : Script :=
  {| storageClass := inl staticClass;
     existsAnswer := (true, None);
     bucketInfo := ({| Bucket := "archive"; Owner := "owner"; PurgeObject := None |}, None);
     userAnswer := (theUser (quota false 0 0), None);
     modifyUserAnswer := None;
     setUserQuotaAnswer := None;
     policyAnswer := (None, Some (awsError "NoSuchBucketPolicy" "no policy"));
     putPolicyAnswer := None;
     cleanupAnswer := None |}.

(** The bucket of [owner] has a policy that lets [obc-user] and [reader]
    in. *)
Definition lets_in (user : string) : PolicyStatement :=
  {| Sid := user; Effect := Some Allow; Principal := [user];
     Resource := ["photos"]; SubResource := ["photos"];
     Action := ["s3:GetObject"] |}.

Definition sharedPolicy : BucketPolicy :=
  {| Statement := [lets_in "obc-user"; lets_in "reader"] |}.

Definition shared (owner : string) : Script :=
  {| storageClass := inl theClass;
     existsAnswer := (true, None);
     bucketInfo := ({| Bucket := "photos"; Owner := owner; PurgeObject := None |}, None);
     userAnswer := (theUser (quota false 0 0), None);
     modifyUserAnswer := None;
     setUserQuotaAnswer := None;
     policyAnswer := (Some sharedPolicy, None);
     putPolicyAnswer := None;
     cleanupAnswer := None |}.

(** The policy of the bucket cannot be fetched: the connection breaks, which
    is no AWS error. *)
Definition connectionReset : error := errorString "connection reset by peer".

Definition fetchBroken (owner : string) : Script :=
  {| storageClass := inl theClass;
     existsAnswer := (true, None);
     bucketInfo := ({| Bucket := "photos"; Owner := owner; PurgeObject := None |}, None);
     userAnswer := (theUser (quota false 0 0), None);
     modifyUserAnswer := None;
     setUserQuotaAnswer := None;
     policyAnswer := (None, Some connectionReset);
     putPolicyAnswer := None;
     cleanupAnswer := None |}.

(** A cluster whose operator is still starting: the credentials of the admin
    user cannot be read yet; the other calls are answered as by [calm]. *)
Definition notReady : error :=
  withMessage
    (errorString "skipping reconcile since operator is still initializing")
    "failed to run radosgw-admin".

Definition starting : World := {|
  W := unit;
  handle := fun R c w =>
    (match c in Call R return R with
     | GetAdminOPSUserCredentials _ _ => ("", "", Some notReady)
     | c' => answer (calm "owner" (quota false 0 0)) _ c'
     end, w)
|}.

(** Operator settings that answer with the default for a key that is not
    set. *)
Definition defaulting (store : list (string * string)) (configMap key default : string)
    : string * option error :=
  (match find (fun kv => String.eqb (fst kv) key) store with
   | Some kv => snd kv
   | None => default
   end, None).

(** [strings.TrimSpace], for ASCII text. *)
Definition is_space (c : ascii) : bool :=
  existsb (fun n => Nat.eqb (nat_of_ascii c) n) [9; 10; 11; 12; 13; 32]%nat.

Fixpoint trim_left (s : list ascii) : list ascii :=
  match s with
  | [] => []
  | c :: rest => if is_space c then trim_left rest else s
  end.

Definition trimSpace (s : string) : string :=
  string_of_list_ascii
    (rev (trim_left (rev (trim_left (list_ascii_of_string s))))).

(** The containers of a plugin pod, with memory in MiB as their resources,
    and a decoder of resources that knows one document. *)
Definition pluginResources : list (Csi.ContainerResource Z) :=
  [ Csi.mkContainerResource "driver-registrar" 128;
    Csi.mkContainerResource "csi-rbdplugin" 512 ].

Definition decodeResources (raw : string) : list (Csi.ContainerResource Z) * option error :=
  if String.eqb raw "plugin" then (pluginResources, None)
  else ([], Some (errorString "error unmarshaling JSON")).

Definition sidecar : Csi.PodSpec Z unit string unit :=
  {| Csi.Containers := [Csi.mkContainer "liveness-prometheus" 64 tt];
     Csi.Tolerations := [];
     Csi.pod_Affinity := None |}.

End Scenarios.

(** * Properties *)

Import Bucket.
Local Open Scope go_scope.

(** ** Traces *)

Section TraceFacts.

Context {P : Platform} {Rd : Readers}.

Lemma calls_of_app (t1 t2 : list Entry) :
  calls_of (t1 ++ t2) = (calls_of t1 ++ calls_of t2)%list.
Proof.
  induction t1 as [|[e|l] t1 IH]; simpl; congruence.
Qed.

Lemma logs_of_app (t1 t2 : list Entry) :
  logs_of (t1 ++ t2) = (logs_of t1 ++ logs_of t2)%list.
Proof.
  induction t1 as [|[e|l] t1 IH]; simpl; congruence.
Qed.

Lemma kinds_of_app (t1 t2 : list Entry) :
  kinds_of (t1 ++ t2) = (kinds_of t1 ++ kinds_of t2)%list.
Proof.
  unfold kinds_of. now rewrite calls_of_app, map_app.
Qed.

Lemma quotaUpdates_app (t1 t2 : list Entry) :
  quotaUpdates (t1 ++ t2) = (quotaUpdates t1 ++ quotaUpdates t2)%list.
Proof.
  unfold quotaUpdates. now rewrite calls_of_app, flat_map_app.
Qed.

Lemma policyWrites_app (t1 t2 : list Entry) :
  policyWrites (t1 ++ t2) = (policyWrites t1 ++ policyWrites t2)%list.
Proof.
  unfold policyWrites. now rewrite calls_of_app, flat_map_app.
Qed.

Lemma cleanups_app (t1 t2 : list Entry) :
  cleanups (t1 ++ t2) = (cleanups t1 ++ cleanups t2)%list.
Proof.
  unfold cleanups. now rewrite calls_of_app, flat_map_app.
Qed.

Lemma quotaUpdates_log (l : LogEntry) (t : list Entry) :
  quotaUpdates (ELog l :: t) = quotaUpdates t.
Proof. reflexivity. Qed.

Lemma policyWrites_log (l : LogEntry) (t : list Entry) :
  policyWrites (ELog l :: t) = policyWrites t.
Proof. reflexivity. Qed.

Lemma cleanups_log (l : LogEntry) (t : list Entry) :
  cleanups (ELog l :: t) = cleanups t.
Proof. reflexivity. Qed.

Lemma kinds_of_log (l : LogEntry) (t : list Entry) :
  kinds_of (ELog l :: t) = kinds_of t.
Proof. reflexivity. Qed.

(** A run is determined by its three components. *)
Lemma run_shape {Wd : World} {A : Type} (m : M A) (w : W) (a : A) :
  fst (fst (m w)) = Done a -> m w = (Done a, snd (fst (m w)), snd (m w)).
Proof. destruct (m w) as [[r w1] t]. simpl. intros ->. reflexivity. Qed.

Lemma all_kinds_nil (ok : Kind -> bool) : all_kinds ok [].
Proof. constructor. Qed.

Lemma all_kinds_app (ok : Kind -> bool) (t1 t2 : list Entry) :
  all_kinds ok t1 -> all_kinds ok t2 -> all_kinds ok (t1 ++ t2).
Proof.
  unfold all_kinds. rewrite kinds_of_app. intros. now apply Forall_app.
Qed.

Lemma all_kinds_log (ok : Kind -> bool) (l : LogEntry) (t : list Entry) :
  all_kinds ok t -> all_kinds ok (ELog l :: t).
Proof. trivial. Qed.

Lemma all_kinds_weaken (ok ok' : Kind -> bool) (t : list Entry) :
  (forall k, ok k = true -> ok' k = true) -> all_kinds ok t -> all_kinds ok' t.
Proof.
  intros Hw H. unfold all_kinds in *. eapply Forall_impl; [|exact H]. auto.
Qed.

(** Calls of the kinds [ok] write no quota when [ok] excludes quota writes,
    and likewise for policies and cleanups. *)
Lemma all_kinds_no_quotaUpdates (ok : Kind -> bool) (t : list Entry) :
  ok K_SetUserQuota = false -> all_kinds ok t -> quotaUpdates t = [].
Proof.
  intros Hno. unfold all_kinds, kinds_of, quotaUpdates.
  induction (calls_of t) as [|[R c r] l IH]; simpl; intros H; [reflexivity|].
  inversion H as [|k ks Hk Hks]; subst.
  rewrite (IH Hks). destruct c; simpl in *; try reflexivity; congruence.
Qed.

Lemma all_kinds_no_policyWrites (ok : Kind -> bool) (t : list Entry) :
  ok K_PutBucketPolicy = false -> all_kinds ok t -> policyWrites t = [].
Proof.
  intros Hno. unfold all_kinds, kinds_of, policyWrites.
  induction (calls_of t) as [|[R c r] l IH]; simpl; intros H; [reflexivity|].
  inversion H as [|k ks Hk Hks]; subst.
  rewrite (IH Hks). destruct c; simpl in *; try reflexivity; congruence.
Qed.

Lemma all_kinds_no_cleanups (ok : Kind -> bool) (t : list Entry) :
  ok K_deleteOBCResource = false -> all_kinds ok t -> cleanups t = [].
Proof.
  intros Hno. unfold all_kinds, kinds_of, cleanups.
  induction (calls_of t) as [|[R c r] l IH]; simpl; intros H; [reflexivity|].
  inversion H as [|k ks Hk Hks]; subst.
  rewrite (IH Hks). destruct c; simpl in *; try reflexivity; congruence.
Qed.

Context {Wd : World}.

Lemma only_ret (ok : Kind -> bool) {A : Type} (a : A) : only ok (ret a).
Proof. intros w. apply all_kinds_nil. Qed.

Lemma only_panic (ok : Kind -> bool) {A : Type} (reason : string) :
  only ok (panic reason : M A).
Proof. intros w. apply all_kinds_nil. Qed.

Lemma only_logf (ok : Kind -> bool) lvl format args : only ok (logf lvl format args).
Proof. intros w. apply all_kinds_nil. Qed.

Lemma only_call (ok : Kind -> bool) {R : Type} (c : Call R) :
  ok (kind c) = true -> only ok (call c).
Proof.
  intros H w. unfold call. destruct (handle R c w) as [r w1]. simpl.
  constructor; [exact H | constructor].
Qed.

Lemma only_bind (ok : Kind -> bool) {A B : Type} (m : M A) (f : A -> M B) :
  only ok m -> (forall a, only ok (f a)) -> only ok (bind m f).
Proof.
  intros Hm Hf w. unfold bind.
  specialize (Hm w). destruct (m w) as [[[a|reason] w1] t1]; simpl in *.
  - specialize (Hf a w1). destruct (f a w1) as [[r w2] t2]. simpl in *.
    now apply all_kinds_app.
  - exact Hm.
Qed.

End TraceFacts.

(** Decomposes a computation along its binds and case distinctions. *)
Ltac only_step :=
  match goal with
  | |- only _ (bind _ _) => apply only_bind; [|intros]
  | |- only _ (ret _) => apply only_ret
  | |- only _ (panic _) => apply only_panic
  | |- only _ (logf _ _ _) => apply only_logf
  | |- only _ (call _) => apply only_call; reflexivity
  | |- only _ (match ?x with _ => _ end) => destruct x
  | |- only _ (let _ := _ in _) => cbv zeta
  end.

Ltac only_auto := repeat only_step.

Section Resolving.

Context {P : Platform} {Rd : Readers} {Wd : World}.

Lemma setObjectContext_lookups p : only is_lookup (setObjectContext p).
Proof. unfold setObjectContext. only_auto. Qed.

Lemma populateDomainAndPort_lookups sc p : only is_lookup (populateDomainAndPort sc p).
Proof.
  unfold populateDomainAndPort, setObjectStoreDomainName, setObjectStorePort.
  only_auto.
Qed.

Lemma setTlsCaCert_lookups p : only is_lookup (setTlsCaCert p).
Proof. unfold setTlsCaCert. only_auto. Qed.

Lemma setAdminOpsAPIClient_lookups p : only is_lookup (setAdminOpsAPIClient p).
Proof. unfold setAdminOpsAPIClient. only_auto. Qed.

Hint Resolve setObjectContext_lookups populateDomainAndPort_lookups
  setTlsCaCert_lookups setAdminOpsAPIClient_lookups : core.

(** Resolving the provisioner state only looks things up. *)
Lemma initializeDeleteOrRevoke_lookups ob p :
  only is_lookup (initializeDeleteOrRevoke ob p).
Proof. unfold initializeDeleteOrRevoke. only_auto; auto. Qed.

Lemma initializeCreateOrGrant_lookups options p :
  only is_lookup (initializeCreateOrGrant options p).
Proof. unfold initializeCreateOrGrant. only_auto; auto. Qed.

Lemma updateAdditionalSettings_quota ob p :
  only is_quota_operation (updateAdditionalSettings ob p).
Proof. unfold updateAdditionalSettings. only_auto. Qed.

End Resolving.

(** Runs a computation by cases on every answer and test it meets. *)
Ltac innermost_case :=
  match goal with
  | |- context [match ?x with _ => _ end] =>
      lazymatch x with
      | context [match _ with _ => _ end] => fail
      | _ => destruct x eqn:?
      end
  end.

Ltac by_cases := repeat (simpl in *; innermost_case).

Section Fields.

Context {P : Platform} {Rd : Readers} {Wd : World}.

Lemma setObjectContext_names p : keeps_names p (setObjectContext p).
Proof.
  intros w p1 err w1 t. unfold setObjectContext, bind, call, ret.
  by_cases; intros H; inversion H; subst; auto.
Qed.

Lemma populateDomainAndPort_names sc p : keeps_names p (populateDomainAndPort sc p).
Proof.
  intros w p1 err w1 t.
  unfold populateDomainAndPort, setObjectStoreDomainName, setObjectStorePort,
    bind, call, ret.
  by_cases; intros H; inversion H; subst; auto;
    repeat match goal with
           | H : (_, _) = (_, _) |- _ => inversion H; subst; clear H
           end; auto.
Qed.

Lemma setTlsCaCert_names p : keeps_names p (setTlsCaCert p).
Proof.
  intros w p1 err w1 t. unfold setTlsCaCert, bind, call, ret.
  by_cases; intros H; inversion H; subst; auto.
Qed.

Lemma setAdminOpsAPIClient_names p : keeps_names p (setAdminOpsAPIClient p).
Proof.
  intros w p1 err w1 t. unfold setAdminOpsAPIClient, bind, call, ret, panic.
  by_cases; intros H; inversion H; subst; auto.
Qed.

(** After a resolution from a binding, the provisioner names the user and the
    bucket of that binding. *)
Lemma initializeDeleteOrRevoke_names ob p w p1 err w1 t :
  initializeDeleteOrRevoke ob p w = (Done (p1, err), w1, t) ->
  err = None ->
  cephUserName p1 = getCephUser ob /\ bucketName p1 = getBucketName ob.
Proof.
  unfold initializeDeleteOrRevoke.
  unfold bind at 1. unfold call at 1.
  destruct (handle _ _ w) as [[sc|e] w0]; simpl.
  - set (p0 := setEndpoint sc _).
    assert (Hp0 : cephUserName p0 = getCephUser ob /\ bucketName p0 = getBucketName ob)
      by (split; reflexivity).
    clearbody p0. unfold bind at 1.
    destruct (setObjectContext p0 w0) as [[[[pa ea]|?] wa] ta] eqn:Ha; simpl;
      [|discriminate].
    apply setObjectContext_names in Ha.
    destruct ea; [intros H ?; inversion H; subst; discriminate|].
    unfold bind at 1.
    destruct (populateDomainAndPort sc pa wa) as [[[[pb eb]|?] wb] tb] eqn:Hb; simpl;
      [|discriminate].
    apply populateDomainAndPort_names in Hb.
    destruct eb; [intros H ?; inversion H; subst; discriminate|].
    unfold bind at 1.
    destruct (setTlsCaCert pb wb) as [[[[pc ec]|?] wc] tc] eqn:Hc; simpl;
      [|discriminate].
    apply setTlsCaCert_names in Hc.
    destruct ec.
    { unfold ret. intros H ?; inversion H; subst; discriminate. }
    unfold bind at 1.
    destruct (setAdminOpsAPIClient pc wc) as [[[[pd ed]|?] wd] td] eqn:Hd; simpl;
      [|discriminate].
    apply setAdminOpsAPIClient_names in Hd.
    destruct ed; unfold ret; intros H ?; inversion H; subst.
    + unfold adminOpsClientError in *.
      destruct (strings_Contains _ _); discriminate.
    + intuition congruence.
  - unfold ret. intros H ?; inversion H; subst. discriminate.
Qed.

End Fields.

(** ** Revoke *)

Section RevokeFacts.

Context {P : Platform} {Rd : Readers} {Wd : World}.

(** C5. When the bucket info cannot be fetched, Revoke does no policy work:
    after resolving its state it makes exactly two calls, the failed
    [GetBucketInfo] and the cleanup [deleteOBCResource] with an empty bucket
    name for the user named in the binding, and it returns nil whatever the
    cleanup answers. *)
Theorem Revoke_bucket_info_unavailable :
  forall ob p w p1 w1 t1 bucket e w2,
    initializeDeleteOrRevoke ob p w = (Done (p1, None), w1, t1) ->
    handle _ (GetBucketInfo (adminOpsClient p1) (Bucket_named (bucketName p1))) w1
      = ((bucket, Some e), w2) ->
    exists cleanupErr w3 t,
      handle _ (deleteOBCResource p1 "") w2 = (cleanupErr, w3) /\
      Revoke ob p w = (Done None, w3, t) /\
      calls_of t =
        (calls_of t1 ++
         [Ev (GetBucketInfo (adminOpsClient p1) (Bucket_named (bucketName p1)))
             (bucket, Some e);
          Ev (deleteOBCResource p1 "") cleanupErr])%list /\
      all_kinds is_lookup t1 /\
      policyWrites t = [] /\
      cleanups t = [(p1, "")] /\
      cephUserName p1 = getCephUser ob.
Proof.
  intros ob p w p1 w1 t1 bucket e w2 Hinit Hinfo.
  destruct (handle _ (deleteOBCResource p1 "") w2) as [cleanupErr w3] eqn:Hclean.
  pose proof (initializeDeleteOrRevoke_lookups ob p w) as Hlook.
  rewrite Hinit in Hlook. simpl in Hlook.
  assert (HR : exists t, Revoke ob p w = (Done None, w3, t) /\
             calls_of t =
               (calls_of t1 ++
                [Ev (GetBucketInfo (adminOpsClient p1) (Bucket_named (bucketName p1)))
                    (bucket, Some e);
                 Ev (deleteOBCResource p1 "") cleanupErr])%list).
  { unfold Revoke, deleteOBCResourceLogError, bind, logf, call, ret.
    rewrite Hinit. simpl. rewrite Hinfo. simpl. rewrite Hclean.
    destruct cleanupErr; simpl; eexists; (split; [reflexivity|]);
      simpl; rewrite calls_of_app; reflexivity. }
  destruct HR as (t & HR & Hcalls).
  exists cleanupErr, w3, t. repeat split; auto.
  - unfold policyWrites. rewrite Hcalls, flat_map_app. simpl.
    fold (policyWrites t1).
    rewrite (all_kinds_no_policyWrites is_lookup t1); auto.
  - unfold cleanups. rewrite Hcalls, flat_map_app. simpl.
    fold (cleanups t1).
    rewrite (all_kinds_no_cleanups is_lookup t1); auto.
  - eapply proj1, initializeDeleteOrRevoke_names; eauto.
Qed.

(** C6. When the bucket exists and the lookup of its owner fails because the
    owner account is gone ([admin.ErrNoSuchUser]), Revoke returns nil at
    once: after resolving its state it has made the two lookups and nothing
    else, so it writes no policy and asks for no deletion. *)
Theorem Revoke_owner_account_gone :
  forall ob p w p1 w1 t1 bucket w2 user e w3,
    initializeDeleteOrRevoke ob p w = (Done (p1, None), w1, t1) ->
    handle _ (GetBucketInfo (adminOpsClient p1) (Bucket_named (bucketName p1))) w1
      = ((bucket, None), w2) ->
    Owner bucket <> "" ->
    handle _ (GetUser (adminOpsClient p1) (User_with (Owner bucket) None)) w2
      = ((user, Some e), w3) ->
    errors_Is e ErrNoSuchUser = true ->
    exists t,
      Revoke ob p w = (Done None, w3, t) /\
      calls_of t =
        (calls_of t1 ++
         [Ev (GetBucketInfo (adminOpsClient p1) (Bucket_named (bucketName p1)))
             (bucket, None);
          Ev (GetUser (adminOpsClient p1) (User_with (Owner bucket) None))
             (user, Some e)])%list /\
      all_kinds is_lookup t1 /\
      policyWrites t = [] /\
      cleanups t = [].
Proof.
  intros ob p w p1 w1 t1 bucket w2 user e w3 Hinit Hinfo Howner Huser Hgone.
  pose proof (initializeDeleteOrRevoke_lookups ob p w) as Hlook.
  rewrite Hinit in Hlook. simpl in Hlook.
  apply String.eqb_neq in Howner.
  assert (HR : exists t, Revoke ob p w = (Done None, w3, t) /\
             calls_of t =
               (calls_of t1 ++
                [Ev (GetBucketInfo (adminOpsClient p1) (Bucket_named (bucketName p1)))
                    (bucket, None);
                 Ev (GetUser (adminOpsClient p1) (User_with (Owner bucket) None))
                    (user, Some e)])%list).
  { unfold Revoke, bind, logf, call, ret.
    rewrite Hinit. simpl. rewrite Hinfo. simpl. rewrite Howner.
    rewrite Huser. simpl. rewrite Hgone.
    eexists; split; [reflexivity|].
    simpl; rewrite calls_of_app; reflexivity. }
  destruct HR as (t & HR & Hcalls).
  exists t. repeat split; auto.
  - unfold policyWrites. rewrite Hcalls, flat_map_app. simpl.
    fold (policyWrites t1).
    rewrite (all_kinds_no_policyWrites is_lookup t1); auto.
  - unfold cleanups. rewrite Hcalls, flat_map_app. simpl.
    fold (cleanups t1).
    rewrite (all_kinds_no_cleanups is_lookup t1); auto.
Qed.

(** C1, as the code has it.  When the bucket info names as owner the user
    being revoked, Revoke never asks for the deletion of that user.  When,
    moreover, the owner is not empty, the owner lookup, the S3 session and
    the policy fetch succeed (a bucket without policy counting as a
    success), Revoke makes a single policy write, of the fetched policy with
    the deny statement for that user added (or of a new policy holding that
    statement), and returns what the write returned. *)
Theorem Revoke_owner_is_denied :
  forall ob p w p1 w1 t1 bucket w2,
    initializeDeleteOrRevoke ob p w = (Done (p1, None), w1, t1) ->
    handle _ (GetBucketInfo (adminOpsClient p1) (Bucket_named (bucketName p1))) w1
      = ((bucket, None), w2) ->
    Owner bucket = cephUserName p1 ->
    cleanups (snd (Revoke ob p w)) = [] /\
    forall user w3 key0 keys s3svc w4 answer w5 policy,
      Owner bucket <> "" ->
      handle _ (GetUser (adminOpsClient p1) (User_with (Owner bucket) None)) w2
        = ((user, None), w3) ->
      Keys user = key0 :: keys ->
      handle _ (NewS3Agent (AccessKey key0) (SecretKey key0) (getObjectStoreEndpoint p1)
                  (logger_LevelAt DEBUG) (tlsCert p1)) w3 = (inl s3svc, w4) ->
      handle _ (GetBucketPolicy s3svc (bucketName p1)) w4 = (answer, w5) ->
      fetched_policy answer = Some policy ->
      let statement := statementFor p1 Denies in
      let written :=
        match policy with
        | None => NewBucketPolicy statement
        | Some policy => ModifyBucketPolicy policy statement
        end in
      exists out err w6 t,
        handle _ (PutBucketPolicy s3svc (bucketName p1) written) w5 = ((out, err), w6) /\
        Revoke ob p w = (Done (errors_Wrap err "failed to update policy"), w6, t) /\
        policyWrites t = [(bucketName p1, written)] /\
        In statement (Statement written) /\
        Effect statement = Some Deny /\
        Principal statement = [getCephUser ob].
Proof.
  intros ob p w p1 w1 t1 bucket w2 Hinit Hinfo Howner.
  pose proof (initializeDeleteOrRevoke_lookups ob p w) as Hlook.
  rewrite Hinit in Hlook. simpl in Hlook.
  pose proof (all_kinds_no_cleanups is_lookup t1 eq_refl Hlook) as Hc1.
  pose proof (all_kinds_no_policyWrites is_lookup t1 eq_refl Hlook) as Hp1.
  assert (Heq : String.eqb (Owner bucket) (cephUserName p1) = true)
    by now apply String.eqb_eq.
  split.
  - unfold Revoke, bind, logf, call, ret, panic.
    rewrite Hinit. simpl. rewrite Hinfo. simpl.
    by_cases; try congruence;
      repeat match goal with
             | H : (_, _) = (_, _) |- _ => inversion H; subst; clear H
             end;
      try (rewrite Heq in *; discriminate);
      cbn [snd]; rewrite cleanups_log, cleanups_app, Hc1; reflexivity.
  - intros user w3 key0 keys s3svc w4 answer w5 policy
      Hne Huser Hkeys Hagent Hfetch Hpolicy statement written.
    apply String.eqb_neq in Hne.
    destruct (handle _ (PutBucketPolicy s3svc (bucketName p1) written) w5)
      as [[out err] w6] eqn:Hput.
    assert (HR : exists t,
               Revoke ob p w = (Done (errors_Wrap err "failed to update policy"), w6, t)
               /\ policyWrites t = [(bucketName p1, written)]).
    { unfold Revoke, bind, logf, call, ret.
      rewrite Hinit. simpl. rewrite Hinfo. simpl. rewrite Hne.
      rewrite Huser. simpl. rewrite Hkeys. rewrite Hagent. simpl.
      rewrite Hfetch. simpl.
      destruct answer as [fetched [e|]]; simpl in Hpolicy.
      - destruct (as_awserr e) as [code|]; [|discriminate].
        destruct (String.eqb code "NoSuchBucketPolicy"); [|discriminate].
        inversion Hpolicy; subst policy. simpl. rewrite Heq.
        fold statement. fold written. rewrite Hput.
        destruct err; simpl; eexists; (split; [reflexivity|]);
          rewrite policyWrites_log, policyWrites_app, Hp1; reflexivity.
      - inversion Hpolicy; subst policy. simpl. rewrite Heq.
        fold statement. fold written. rewrite Hput.
        destruct err; simpl; eexists; (split; [reflexivity|]);
          rewrite policyWrites_log, policyWrites_app, Hp1; reflexivity. }
    destruct HR as (t & HR & Hw).
    exists out, err, w6, t. repeat split; auto.
    + subst written. destruct policy as [fetched|]; simpl.
      * apply in_or_app. right. apply in_eq.
      * left. reflexivity.
    + simpl. f_equal. eapply proj1, initializeDeleteOrRevoke_names; eauto.
Qed.

End RevokeFacts.

(** ** Quota updates *)

Section QuotaFacts.

Context {P : Platform} {Rd : Readers} {Wd : World}.

(** C2. When the stored quota of the user is enabled and each requested
    limit is absent or negative, [updateAdditionalSettings] reads the user
    and then sends exactly one quota update, which carries [Enabled = false]
    and neither limit, and returns at once: nil if the update went through,
    the wrapped error of the update otherwise. *)
Theorem updateAdditionalSettings_disables_quota :
  forall ob p w conn ep objectUser w1,
    ob_Connection ob = Some conn ->
    conn_Endpoint conn = Some ep ->
    let maxObjects := MaxObjectQuota (AdditionalConfigData ep) in
    let maxSize := MaxSizeQuota (AdditionalConfigData ep) in
    let lookup := GetUser (adminOpsClient p)
                    (User_with (map_get (AdditionalState conn) cephUser) None) in
    let disable :=
      {| UID := cephUserName p; Enabled := Some false;
         MaxSize := None; MaxObjects := None |} in
    (maxObjects = "" \/ exists n, strconv_Atoi maxObjects = (n, None) /\ n < 0) ->
    (maxSize = "" \/ exists n, maxSizeToInt64 maxSize = (n, None) /\ n < 0) ->
    handle _ lookup w = ((objectUser, None), w1) ->
    Enabled (UserQuota objectUser) = Some true ->
    exists err w2 t,
      handle _ (SetUserQuota (adminOpsClient p) disable) w1 = (err, w2) /\
      updateAdditionalSettings ob p w
        = (Done (errors_Wrapf err "failed to disable quota to user %q"
                   [AStr (cephUserName p)]), w2, t) /\
      calls_of t = [Ev lookup (objectUser, None);
                    Ev (SetUserQuota (adminOpsClient p) disable) err] /\
      quotaUpdates t = [disable].
Proof.
  intros ob p w conn ep objectUser w1 Hconn Hep maxObjects maxSize lookup disable
    Hobjects Hsize Huser Henabled.
  destruct (handle _ (SetUserQuota (adminOpsClient p) disable) w1) as [err w2] eqn:Hset.
  exists err, w2.
  assert (Ho : exists n,
             (if negb (String.eqb maxObjects "") then strconv_Atoi maxObjects else (0, None))
             = (n, None) /\ (String.eqb maxObjects "" || (n <? 0)) = true).
  { destruct Hobjects as [He | (n & Hn & Hneg)].
    - rewrite He. exists 0. split; reflexivity.
    - exists (if String.eqb maxObjects "" then 0 else n).
      destruct (String.eqb maxObjects ""); simpl; [auto|].
      split; [assumption | now apply Z.ltb_lt]. }
  assert (Hs : exists n,
             (if negb (String.eqb maxSize "") then maxSizeToInt64 maxSize else (0, None))
             = (n, None) /\ (String.eqb maxSize "" || (n <? 0)) = true).
  { destruct Hsize as [He | (n & Hn & Hneg)].
    - rewrite He. exists 0. split; reflexivity.
    - exists (if String.eqb maxSize "" then 0 else n).
      destruct (String.eqb maxSize ""); simpl; [auto|].
      split; [assumption | now apply Z.ltb_lt]. }
  destruct Ho as (no & Ho & Hno). destruct Hs as (ns & Hs & Hns).
  unfold updateAdditionalSettings. rewrite Hconn, Hep.
  fold maxObjects maxSize. rewrite Ho, Hs.
  unfold bind, call, ret. fold lookup. rewrite Huser. simpl.
  rewrite Henabled. rewrite Hno, Hns. simpl.
  change (with_Enabled false (QuotaSpec_of (cephUserName p))) with disable.
  rewrite Hset.
  destruct err; simpl; eexists; repeat split; reflexivity.
Qed.

Ltac no_update :=
  lazymatch goal with
  | |- False -> _ => intros []
  | |- In _ [] -> _ => intros []
  end.

(** C3. Whenever [updateAdditionalSettings] sends a quota update with
    [Enabled = true], that update is the only one sent, and it carries
    max-objects only when the requested value, as parsed, differs from the
    stored one, and max-size likewise: a requested limit equal to the stored
    limit is left out of the update. *)
Theorem updateAdditionalSettings_sends_changes_only :
  forall ob p w conn ep q,
    ob_Connection ob = Some conn ->
    conn_Endpoint conn = Some ep ->
    let maxObjects := MaxObjectQuota (AdditionalConfigData ep) in
    let maxSize := MaxSizeQuota (AdditionalConfigData ep) in
    let lookup := GetUser (adminOpsClient p)
                    (User_with (map_get (AdditionalState conn) cephUser) None) in
    let stored := UserQuota (fst (fst (handle _ lookup w))) in
    In q (quotaUpdates (snd (updateAdditionalSettings ob p w))) ->
    Enabled q = Some true ->
    quotaUpdates (snd (updateAdditionalSettings ob p w)) = [q] /\
    UID q = cephUserName p /\
    (forall n, MaxObjects q = Some n ->
       maxObjects <> "" /\ strconv_Atoi maxObjects = (n, None) /\
       exists current, MaxObjects stored = Some current /\ current <> n) /\
    (forall n, MaxSize q = Some n ->
       maxSize <> "" /\ maxSizeToInt64 maxSize = (n, None) /\
       exists current, MaxSize stored = Some current /\ current <> n) /\
    (forall n, strconv_Atoi maxObjects = (n, None) ->
       MaxObjects stored = Some n -> MaxObjects q = None) /\
    (forall n, maxSizeToInt64 maxSize = (n, None) ->
       MaxSize stored = Some n -> MaxSize q = None).
Proof.
  intros ob p w conn ep q Hconn Hep maxObjects maxSize lookup stored.
  subst stored lookup.
  unfold updateAdditionalSettings. rewrite Hconn, Hep.
  fold maxObjects maxSize.
  unfold bind, call, ret, panic.
  destruct (handle _ (GetUser _ _) w) as [[objectUser uerr] w1] eqn:Hu.
  destruct (String.eqb_spec maxObjects "") as [Eo|Eo];
    destruct (String.eqb_spec maxSize "") as [Es|Es]; simpl;
    destruct (strconv_Atoi maxObjects) as [no [eo|]];
    destruct (maxSizeToInt64 maxSize) as [ns [es|]]; simpl;
    try no_update;
    rewrite Hu; simpl;
    destruct uerr; simpl; try no_update;
    destruct (Enabled (UserQuota objectUser)) as [[|]|]; simpl; try no_update;
    repeat match goal with
           | |- context [(?a <? 0)] => destruct (a <? 0); simpl
           | |- context [handle ?R ?c ?w] => destruct (handle R c w); simpl
           | |- context [match MaxObjects ?u with _ => _ end] =>
               destruct (MaxObjects u) eqn:?; simpl
           | |- context [match MaxSize ?u with _ => _ end] =>
               destruct (MaxSize u) eqn:?; simpl
           | |- context [(?a =? ?b)] => destruct (Z.eqb_spec a b); simpl
           | |- context [match ?o with Some _ => _ | None => _ end] =>
               destruct o; simpl
           end;
    try no_update;
    intros [Hq|[]] He; subst q; simpl in *; try discriminate;
    (split; [reflexivity|]); (split; [reflexivity|]);
    repeat split; intros; try discriminate; try congruence;
    repeat match goal with
           | H : Some _ = Some _ |- _ => inversion H; subst; clear H
           | H : (_, _) = (_, _) |- _ => inversion H; subst; clear H
           end;
    try congruence; eauto.
Qed.

End QuotaFacts.

(** ** Update *)

Section UpdateFacts.

Context {P : Platform} {Rd : Readers} {Wd : World}.

(** The trace of Update is its log line, the trace of the resolution and
    then, when the resolution succeeds, the trace of
    [updateAdditionalSettings]. *)
Lemma Update_trace ob p w :
  exists t2,
    snd (Update ob p w)
      = (Update_log :: snd (initializeDeleteOrRevoke ob p w) ++ t2)%list /\
    all_kinds is_quota_operation t2.
Proof.
  unfold Update, bind, logf, ret.
  destruct (initializeDeleteOrRevoke ob p w) as [[[[p1 [e|]]|reason] w1] t1]; simpl.
  - exists []. split; [reflexivity | apply all_kinds_nil].
  - pose proof (updateAdditionalSettings_quota ob p1 w1) as H.
    destruct (updateAdditionalSettings ob p1 w1) as [[r w2] t2]. simpl in *.
    exists t2. split; [reflexivity | exact H].
  - exists []. split; [now rewrite app_nil_r | apply all_kinds_nil].
Qed.

(** C9. The trace of every Update is the resolution of the provisioner
    state, which only looks things up, followed by calls that are all user
    lookups or quota writes; nowhere in it is a policy written, a bucket or a
    user created, or the cleanup that deletes them asked for. *)
Theorem Update_only_quota_operations :
  forall ob p w,
    exists t2,
      snd (Update ob p w)
        = (Update_log :: snd (initializeDeleteOrRevoke ob p w) ++ t2)%list /\
      all_kinds is_lookup (snd (initializeDeleteOrRevoke ob p w)) /\
      all_kinds is_quota_operation t2 /\
      all_kinds (fun k => negb (touches_policy_bucket_or_user k)) (snd (Update ob p w)) /\
      policyWrites (snd (Update ob p w)) = [] /\
      cleanups (snd (Update ob p w)) = [].
Proof.
  intros ob p w.
  destruct (Update_trace ob p w) as (t2 & Ht & Hq).
  pose proof (initializeDeleteOrRevoke_lookups ob p w) as Hl.
  assert (Hall : all_kinds (fun k => negb (touches_policy_bucket_or_user k))
                   (snd (Update ob p w))).
  { rewrite Ht. apply all_kinds_log. apply all_kinds_app.
    - eapply all_kinds_weaken; [|exact Hl]. intros []; simpl; congruence.
    - eapply all_kinds_weaken; [|exact Hq]. intros []; simpl; congruence. }
  exists t2. repeat split; auto.
  - eapply all_kinds_no_policyWrites; [|exact Hall]. reflexivity.
  - eapply all_kinds_no_cleanups; [|exact Hall]. reflexivity.
Qed.

(** When the requested max-size is present and does not parse, Update makes
    no user lookup and no quota write; once the state is resolved it returns
    a parse error (for max-objects, read first, or for max-size) and leaves
    the world as the resolution left it. *)
Lemma Update_unparseable_max_size :
  forall ob p w conn ep e,
    ob_Connection ob = Some conn ->
    conn_Endpoint conn = Some ep ->
    let maxObjects := MaxObjectQuota (AdditionalConfigData ep) in
    let maxSize := MaxSizeQuota (AdditionalConfigData ep) in
    maxSize <> "" ->
    ParseQuantity maxSize = inr e ->
    all_kinds is_lookup (snd (Update ob p w)) /\
    quotaUpdates (snd (Update ob p w)) = [] /\
    forall p1 w1 t1,
      initializeDeleteOrRevoke ob p w = (Done (p1, None), w1, t1) ->
      exists err,
        Update ob p w = (Done (Some err), w1, Update_log :: t1) /\
        ((maxObjects <> "" /\
          exists n ne, strconv_Atoi maxObjects = (n, Some ne) /\
            err = withMessage ne "failed to convert maxObjects to integer") \/
         err = withMessage (withMessage e "failed to parse quantity")
                 (Sprintf "failed to parse maxSize quota for user %q"
                    [AStr (cephUserName p1)])).
Proof.
  intros ob p w conn ep e Hconn Hep maxObjects maxSize Hne Hparse.
  apply String.eqb_neq in Hne.
  assert (Hbody : forall p1 w1,
             exists err,
               updateAdditionalSettings ob p1 w1 = (Done (Some err), w1, []) /\
               ((maxObjects <> "" /\
                 exists n ne, strconv_Atoi maxObjects = (n, Some ne) /\
                   err = withMessage ne "failed to convert maxObjects to integer") \/
                err = withMessage (withMessage e "failed to parse quantity")
                        (Sprintf "failed to parse maxSize quota for user %q"
                           [AStr (cephUserName p1)]))).
  { intros p1 w1. unfold updateAdditionalSettings. rewrite Hconn, Hep.
    fold maxObjects maxSize. rewrite Hne. unfold maxSizeToInt64. rewrite Hparse.
    simpl.
    destruct (String.eqb_spec maxObjects "") as [Eo|Eo]; simpl.
    - eexists. split; [reflexivity|]. right. reflexivity.
    - destruct (strconv_Atoi maxObjects) as [n [ne|]] eqn:Ha; simpl.
      + eexists. split; [reflexivity|]. left. split; [assumption|].
        exists n, ne. split; reflexivity.
      + eexists. split; [reflexivity|]. right. reflexivity. }
  assert (Htrace : snd (Update ob p w)
                   = (Update_log :: snd (initializeDeleteOrRevoke ob p w) ++ [])%list).
  { unfold Update, bind, logf, ret.
    destruct (initializeDeleteOrRevoke ob p w) as [[[[p1 [e1|]]|reason] w1] t1]; simpl.
    - reflexivity.
    - destruct (Hbody p1 w1) as (err & Hrun & _). rewrite Hrun. reflexivity.
    - now rewrite app_nil_r. }
  pose proof (initializeDeleteOrRevoke_lookups ob p w) as Hl.
  assert (Hall : all_kinds is_lookup (snd (Update ob p w))).
  { rewrite Htrace. apply all_kinds_log. apply all_kinds_app;
      [exact Hl | apply all_kinds_nil]. }
  split; [exact Hall|]. split.
  - eapply all_kinds_no_quotaUpdates; [|exact Hall]. reflexivity.
  - intros p1 w1 t1 Hinit.
    destruct (Hbody p1 w1) as (err & Hrun & Herr).
    exists err. split; [|exact Herr].
    unfold Update, bind, logf, ret. rewrite Hinit. simpl. rewrite Hrun.
    now rewrite app_nil_r.
Qed.

End UpdateFacts.

(** ** Provision and Grant *)

Section CreateFacts.

Context {P : Platform} {Rd : Readers} {Wd : World}.

(** C4. When [ModifyUser] with [MaxBuckets = 1] fails in Provision, the
    cleanup [deleteOBCResource] is called next, for the provisioner that
    names the user just created and with the bucket name, and Provision then
    returns the error of [ModifyUser] unchanged, whatever the cleanup
    answers; an error of the cleanup only reaches the logger, as a
    warning. *)
Theorem Provision_single_bucket_limit_fails :
  forall options p w p1 w1 t1 p2 accessKey secretKey w2 s3svc w3 w4 user e w5,
    initializeCreateOrGrant options p w = (Done (p1, None), w1, t1) ->
    handle _ (createCephUser p1 "") w1 = ((p2, (accessKey, secretKey, None)), w2) ->
    let p3 := set_secretAccessKey secretKey (set_accessKeyID accessKey p2) in
    let session := NewS3Agent (accessKeyID p3) (secretAccessKey p3)
                     (getObjectStoreEndpoint p3) (logger_LevelAt DEBUG) (tlsCert p3) in
    let limit := ModifyUser (adminOpsClient p3) (User_with (cephUserName p3) (Some 1)) in
    handle _ session w2 = (inl s3svc, w3) ->
    handle _ (CreateBucket s3svc (bucketName p3)) w3 = (None, w4) ->
    handle _ limit w4 = ((user, Some e), w5) ->
    exists cleanupErr w6 t,
      handle _ (deleteOBCResource p3 (bucketName p3)) w5 = (cleanupErr, w6) /\
      Provision options p w = (Done (None, Some e), w6, t) /\
      calls_of t =
        (calls_of t1 ++
         [Ev (createCephUser p1 "") (p2, (accessKey, secretKey, None));
          Ev session (inl s3svc);
          Ev (CreateBucket s3svc (bucketName p3)) None;
          Ev limit (user, Some e);
          Ev (deleteOBCResource p3 (bucketName p3)) cleanupErr])%list /\
      cephUserName p3 = cephUserName p2 /\
      (forall ce, cleanupErr = Some ce ->
         exists l, logs_of t =
           (l ++ [mkLog WARNING "failed to delete OBC resource. %v" [AErr ce]])%list).
Proof.
  intros options p w p1 w1 t1 p2 accessKey secretKey w2 s3svc w3 w4 user e w5
    Hinit Hcreate p3 session limit Hsession Hbucket Hlimit.
  destruct (handle _ (deleteOBCResource p3 (bucketName p3)) w5)
    as [cleanupErr w6] eqn:Hclean.
  exists cleanupErr, w6.
  destruct (opt_ObjectBucketClaim options) as [obc|] eqn:Hobc.
  2:{ unfold initializeCreateOrGrant, bind, logf, panic in Hinit.
      rewrite Hobc in Hinit. discriminate. }
  subst session limit p3. simpl in *.
  unfold Provision, deleteOBCResourceLogError, bind, logf, call, ret.
  rewrite Hinit. simpl. rewrite Hobc. simpl. rewrite Hcreate. simpl.
  rewrite Hsession. simpl. rewrite Hbucket. simpl.
  rewrite Hlimit. simpl. rewrite Hclean.
  destruct cleanupErr as [ce|]; simpl;
    eexists; (split; [reflexivity|]); (split; [reflexivity|]);
    (split; [simpl; rewrite calls_of_app; reflexivity|]);
    (split; [reflexivity|]); intros ce' Hce; inversion Hce; subst.
  simpl. rewrite logs_of_app. simpl.
  eexists (_ :: logs_of t1 ++ [_])%list.
  simpl. rewrite <- app_assoc. reflexivity.
Qed.

(** What Grant does once the existence check says that the bucket is not
    there: it stops before creating a user or touching the policy, and
    returns [errors.Wrapf] of the error that came with the answer. *)
Lemma Grant_bucket_missing :
  forall options p w p1 w1 t1 err w2,
    initializeCreateOrGrant options p w = (Done (p1, None), w1, t1) ->
    handle _ (bucketExists p1 (bucketName p1)) w1 = ((false, err), w2) ->
    exists t,
      Grant options p w
        = (Done (None, errors_Wrapf err "bucket %s does not exist"
                         [AStr (bucketName p1)]), w2, t) /\
      calls_of t =
        (calls_of t1 ++ [Ev (bucketExists p1 (bucketName p1)) (false, err)])%list.
Proof.
  intros options p w p1 w1 t1 err w2 Hinit Hexists.
  destruct (opt_ObjectBucketClaim options) as [obc|] eqn:Hobc.
  2:{ unfold initializeCreateOrGrant, bind, logf, panic in Hinit.
      rewrite Hobc in Hinit. discriminate. }
  unfold Grant, bind, logf, call, ret.
  rewrite Hinit. simpl. rewrite Hobc. simpl. rewrite Hexists. simpl.
  eexists. split; [reflexivity|]. simpl. rewrite calls_of_app. reflexivity.
Qed.

End CreateFacts.

(** ** Tolerations *)

Section TolerationFacts.

Import Csi.

Lemma normalize_normalized (t : Toleration) : normalized (normalize t).
Proof.
  unfold normalized, normalize.
  destruct (String.eqb_spec (Key t) "") as [Hk|Hk]; simpl.
  - split; intros; reflexivity.
  - destruct (String.eqb_spec (Operator t) TolerationOpExists) as [Ho|Ho]; simpl.
    + split; [intros; contradiction | reflexivity].
    + split; [intros; contradiction | intros; contradiction].
Qed.

Lemma normalize_keeps (t : Toleration) :
  Key (normalize t) = Key t /\ Effect (normalize t) = Effect t /\
  TolerationSeconds (normalize t) = TolerationSeconds t.
Proof.
  unfold normalize.
  destruct (String.eqb (Key t) ""); simpl;
    [|destruct (String.eqb (Operator t) TolerationOpExists)]; simpl; auto.
Qed.

(** C10. When the setting is read, is not empty and parses, [getToleration]
    returns the parsed tolerations, each with its key, effect and seconds
    kept, normalized: an empty key goes with operator [Exists], and operator
    [Exists] goes with an empty value.  When reading the setting fails, or
    the setting is empty (as it is when missing), or it does not parse, the
    tolerations given as default are returned as they are. *)
Theorem getToleration_normalized :
  forall GetOperatorSetting YamlToTolerations configMap name defaults raw readErr,
    GetOperatorSetting configMap name "" = (raw, readErr) ->
    let result :=
      fst (getToleration GetOperatorSetting YamlToTolerations configMap name defaults) in
    (forall parsed,
       readErr = None -> raw <> "" -> YamlToTolerations raw = (parsed, None) ->
       result = map normalize parsed /\
       Forall normalized result /\
       Forall2 (fun t t' => Key t' = Key t /\ Effect t' = Effect t /\
                            TolerationSeconds t' = TolerationSeconds t)
         parsed result) /\
    (readErr <> None -> result = defaults) /\
    (raw = "" -> result = defaults) /\
    (forall parsed e, YamlToTolerations raw = (parsed, Some e) -> result = defaults).
Proof.
  intros GOS Y cm name defaults raw readErr Hread result.
  subst result. unfold getToleration. rewrite Hread.
  split; [|split; [|split]].
  - intros parsed Hok Hne Hparse. subst readErr.
    apply String.eqb_neq in Hne. rewrite Hne, Hparse. simpl.
    split; [reflexivity|]. split.
    + apply Forall_map. apply Forall_forall. intros t _. apply normalize_normalized.
    + clear Hparse. induction parsed as [|t ts IH]; simpl; constructor.
      * apply normalize_keeps.
      * assumption.
  - intros Herr. destruct readErr; [reflexivity | contradiction].
  - intros He. subst raw. destruct readErr; reflexivity.
  - intros parsed e Hparse. destruct readErr; [reflexivity|].
    rewrite Hparse. destruct (String.eqb raw ""); reflexivity.
Qed.

End TolerationFacts.

(** ** The operations on the concrete cluster *)

Section Runs.

Import Scenarios.

(** C1, as stated, fails: the bucket [photos] is owned by [obc-user], the
    user being revoked, whose account is gone.  The state is resolved and
    the bucket info names [obc-user] as owner, yet Revoke returns nil without
    any policy write. *)
Lemma Revoke_owner_without_account_writes_no_deny :
  let w := ownerGone "obc-user" in
  let p1 := resolved (binding []) w in
  fst (fst (initializeDeleteOrRevoke (binding []) fresh w)) = Done (p1, None) /\
  fst (handle _ (GetBucketInfo (adminOpsClient p1) (Bucket_named (bucketName p1))) w)
    = ({| Bucket := "photos"; Owner := "obc-user"; PurgeObject := None |}, None) /\
  cephUserName p1 = "obc-user" /\
  getCephUser (binding []) = "obc-user" /\
  fst (fst (Revoke (binding []) fresh w)) = Done None /\
  policyWrites (snd (Revoke (binding []) fresh w)) = [].
Proof.
  vm_compute. repeat split; reflexivity.
Qed.

(** [Revoke_owner_is_denied] on the same bucket when the owner's account is
    there and the bucket has no policy yet: the policy written holds the one
    deny statement, and no deletion is asked for. *)
Lemma Revoke_owner_is_denied_witness :
  exists w' t policy,
    Revoke (binding []) fresh (calm "obc-user" (quota true 5 5)) = (Done None, w', t) /\
    policyWrites t = [("photos", policy)] /\
    map Effect (Statement policy) = [Some Deny] /\
    map Principal (Statement policy) = [["obc-user"]] /\
    cleanups t = [].
Proof.
  pose (w := calm "obc-user" (quota true 5 5) : W).
  pose (m := initializeDeleteOrRevoke (binding []) fresh w).
  pose (p1 := resolved (binding []) w).
  destruct (@Revoke_owner_is_denied platform readers world (binding []) fresh w
              p1 (snd (fst m)) (snd m) (fst (bucketInfo w)) w) as [Hclean Hdeny].
  - apply run_shape. vm_compute. reflexivity.
  - vm_compute. reflexivity.
  - vm_compute. reflexivity.
  - destruct (Hdeny (theUser (quota true 5 5)) w
                {| AccessKey := "AK"; SecretKey := "SK" |} [] "AK"%string w
                (policyAnswer w) w None)
      as (out & err & w6 & t & Hput & Hrun & Hwrites & _).
    + vm_compute. discriminate.
    + vm_compute. reflexivity.
    + reflexivity.
    + vm_compute. reflexivity.
    + vm_compute. reflexivity.
    + reflexivity.
    + assert (Herr : err = None) by (vm_compute in Hput; congruence).
      subst err.
      exists w6, t, (NewBucketPolicy (statementFor p1 Denies)).
      split; [exact Hrun|]. split; [vm_compute in Hwrites |- *; exact Hwrites|].
      split; [vm_compute; reflexivity|]. split; [vm_compute; reflexivity|].
      rewrite Hrun in Hclean. exact Hclean.
Defined.

(** [updateAdditionalSettings_disables_quota] for a binding that asks for
    negative limits while the stored quota is enabled. *)
Lemma updateAdditionalSettings_disables_quota_witness :
  exists w' t,
    updateAdditionalSettings (binding [("maxObjects", "-1"); ("maxSize", "-1")])
      (set_cephUserName "obc-user" fresh) (calm "obc-user" (quota true 5 5))
      = (Done None, w', t) /\
    quotaUpdates t =
      [{| UID := "obc-user"; Enabled := Some false; MaxSize := None; MaxObjects := None |}].
Proof.
  pose (w := calm "obc-user" (quota true 5 5) : W).
  pose (ob := binding [("maxObjects", "-1"); ("maxSize", "-1")]).
  destruct (@updateAdditionalSettings_disables_quota platform readers world
              ob (set_cephUserName "obc-user" fresh) w
              (match ob_Connection ob with Some c => c | None => mkConnection None None [] end)
              {| BucketHost := "rook-ceph-rgw-my-store.rook-ceph.svc";
                 BucketPort := 80; BucketName := "photos"; Region := "";
                 AdditionalConfigData := [("maxObjects", "-1"); ("maxSize", "-1")] |}
              (theUser (quota true 5 5)) w)
    as (err & w2 & t & Hset & Hrun & _ & Hq).
  - reflexivity.
  - reflexivity.
  - right. exists (-1). split; [vm_compute; reflexivity | lia].
  - right. exists (-1). split; [vm_compute; reflexivity | lia].
  - vm_compute. reflexivity.
  - reflexivity.
  - assert (Herr : err = None) by (vm_compute in Hset; congruence).
    subst err. exists w2, t. split; [exact Hrun | exact Hq].
Defined.

(** [updateAdditionalSettings_sends_changes_only] for a binding that asks
    for the stored max-objects and a new max-size: the update carries the
    size only. *)
Lemma updateAdditionalSettings_sends_changes_only_witness :
  let ob := binding [("maxObjects", "5"); ("maxSize", "10Gi")] in
  let p := set_cephUserName "obc-user" fresh in
  let w := calm "obc-user" (quota true 5 5) in
  let q := {| UID := "obc-user"; Enabled := Some true;
              MaxSize := Some 10737418240; MaxObjects := None |} in
  quotaUpdates (snd (updateAdditionalSettings ob p w)) = [q] /\
  MaxObjectQuota [("maxObjects", "5"); ("maxSize", "10Gi")] <> "" /\
  MaxObjects q = None.
Proof.
  intros ob p w q.
  destruct (@updateAdditionalSettings_sends_changes_only platform readers world
              ob p w
              (match ob_Connection ob with Some c => c | None => mkConnection None None [] end)
              {| BucketHost := "rook-ceph-rgw-my-store.rook-ceph.svc";
                 BucketPort := 80; BucketName := "photos"; Region := "";
                 AdditionalConfigData := [("maxObjects", "5"); ("maxSize", "10Gi")] |}
              q)
    as (Hq & _ & _ & _ & Hsame & _).
  - reflexivity.
  - reflexivity.
  - vm_compute. left. reflexivity.
  - reflexivity.
  - split; [exact Hq|]. split; [vm_compute; discriminate|].
    apply (Hsame 5); vm_compute; reflexivity.
Defined.

(** [Provision_single_bucket_limit_fails] when the admin API refuses the
    limit and the cleanup fails as well: the error returned is the one of
    [ModifyUser], the cleanup was asked for the new user and its bucket, and
    the failure of the cleanup is in the log. *)
Lemma Provision_single_bucket_limit_fails_witness :
  exists w' t p3,
    Provision (claim []) fresh limitRefused
      = (Done (None, Some (adminError "InvalidArgument" "InvalidArgument tx0003 rgw-a")),
         w', t) /\
    cleanups t = [(p3, "photos")] /\
    cephUserName p3 = "obc-user" /\
    In (mkLog WARNING "failed to delete OBC resource. %v"
          [AErr (errorString "failed to delete bucket")]) (logs_of t).
Proof.
  pose (w := limitRefused : W).
  pose (m := initializeCreateOrGrant (claim []) fresh w).
  pose (p1 := prepared (claim []) w).
  pose (p2 := set_cephUserName "obc-user" p1).
  pose (p3 := set_secretAccessKey "SK" (set_accessKeyID "AK" p2)).
  destruct (@Provision_single_bucket_limit_fails platform readers world
              (claim []) fresh w p1 (snd (fst m)) (snd m) p2 "AK"%string "SK"%string w
              "AK"%string w w (User_with "obc-user" (Some 1))
              (adminError "InvalidArgument" "InvalidArgument tx0003 rgw-a") w)
    as (ce & w6 & t & Hclean & Hrun & Hcalls & Hname & Hlog).
  - apply run_shape. vm_compute. reflexivity.
  - vm_compute. reflexivity.
  - vm_compute. reflexivity.
  - vm_compute. reflexivity.
  - vm_compute. reflexivity.
  - assert (Hce : ce = Some (errorString "failed to delete bucket"))
      by (vm_compute in Hclean; congruence).
    destruct (Hlog _ Hce) as (l & Hl).
    exists w6, t, p3. split; [exact Hrun|].
    assert (Hc1 : cleanups (snd m) = []).
    { apply (all_kinds_no_cleanups is_lookup); [reflexivity|].
      apply (initializeCreateOrGrant_lookups (claim []) fresh w). }
    split.
    { unfold cleanups. rewrite Hcalls, flat_map_app.
      fold (cleanups (snd m)). rewrite Hc1. vm_compute. reflexivity. }
    split; [vm_compute; reflexivity|].
    rewrite Hl. apply in_or_app. right. left. reflexivity.
Defined.

(** [Revoke_bucket_info_unavailable] on a bucket that is gone. *)
Lemma Revoke_bucket_info_unavailable_witness :
  exists w' t p1,
    Revoke (binding []) fresh bucketGone = (Done None, w', t) /\
    policyWrites t = [] /\
    cleanups t = [(p1, "")] /\
    cephUserName p1 = "obc-user".
Proof.
  pose (w := bucketGone : W).
  pose (m := initializeDeleteOrRevoke (binding []) fresh w).
  pose (p1 := resolved (binding []) w).
  destruct (@Revoke_bucket_info_unavailable platform readers world (binding []) fresh w
              p1 (snd (fst m)) (snd m) (Bucket_named "")
              (adminError "NoSuchBucket" "NoSuchBucket tx0002 rgw-a") w)
    as (ce & w3 & t & _ & Hrun & _ & _ & Hpol & Hclean & Hname).
  - apply run_shape. vm_compute. reflexivity.
  - vm_compute. reflexivity.
  - exists w3, t, p1.
    split; [exact Hrun|]. split; [exact Hpol|]. split; [exact Hclean|].
    vm_compute. reflexivity.
Defined.

(** [Revoke_owner_account_gone] on a bucket whose owner, another user, has
    no account any more. *)
Lemma Revoke_owner_account_gone_witness :
  exists w' t,
    Revoke (binding []) fresh (ownerGone "someone-else") = (Done None, w', t) /\
    policyWrites t = [] /\
    cleanups t = [].
Proof.
  pose (w := ownerGone "someone-else" : W).
  pose (m := initializeDeleteOrRevoke (binding []) fresh w).
  pose (p1 := resolved (binding []) w).
  destruct (@Revoke_owner_account_gone platform readers world (binding []) fresh w
              p1 (snd (fst m)) (snd m) (fst (bucketInfo w)) w noUser
              (adminError "NoSuchUser" "NoSuchUser tx0001 rgw-a") w)
    as (t & Hrun & _ & _ & Hpol & Hclean).
  - apply run_shape. vm_compute. reflexivity.
  - vm_compute. reflexivity.
  - vm_compute. discriminate.
  - vm_compute. reflexivity.
  - reflexivity.
  - exists w, t. split; [exact Hrun|]. split; [exact Hpol | exact Hclean].
Defined.

(** C7. With byte quantities read as the spec describes them, the max-size
    parser turns ["10Gi"] into 10737418240 and rejects ["abc"].  And for any
    parser: when the requested max-size is present and does not parse, Update
    makes no user lookup and sends no quota update, and once the state is
    resolved it returns a parse error, leaving the world as the resolution
    left it. *)
Theorem max_size_parsing :
  @maxSizeToInt64 platform "10Gi" = (10737418240, None) /\
  (exists e, @maxSizeToInt64 platform "abc" = (0, Some e)) /\
  forall (P : Platform) (Rd : Readers) (Wd : World) ob p w conn ep e,
    ob_Connection ob = Some conn ->
    conn_Endpoint conn = Some ep ->
    let maxObjects := MaxObjectQuota (AdditionalConfigData ep) in
    let maxSize := MaxSizeQuota (AdditionalConfigData ep) in
    maxSize <> "" ->
    ParseQuantity maxSize = inr e ->
    all_kinds is_lookup (snd (Update ob p w)) /\
    quotaUpdates (snd (Update ob p w)) = [] /\
    forall p1 w1 t1,
      initializeDeleteOrRevoke ob p w = (Done (p1, None), w1, t1) ->
      exists err,
        Update ob p w = (Done (Some err), w1, Update_log :: t1) /\
        ((maxObjects <> "" /\
          exists n ne, strconv_Atoi maxObjects = (n, Some ne) /\
            err = withMessage ne "failed to convert maxObjects to integer") \/
         err = withMessage (withMessage e "failed to parse quantity")
                 (Sprintf "failed to parse maxSize quota for user %q"
                    [AStr (cephUserName p1)])).
Proof.
  split; [vm_compute; reflexivity|].
  split; [eexists; vm_compute; reflexivity|].
  intros P Rd Wd ob p w conn ep e Hconn Hep maxObjects maxSize Hne Hparse.
  exact (Update_unparseable_max_size ob p w conn ep e Hconn Hep Hne Hparse).
Qed.

(** [max_size_parsing] on a binding that asks for max-size ["abc"]. *)
Lemma max_size_parsing_witness :
  let ob := binding [("maxSize", "abc")] in
  let w := calm "obc-user" (quota true 5 5) in
  quotaUpdates (snd (Update ob fresh w)) = [] /\
  all_kinds is_lookup (snd (Update ob fresh w)) /\
  exists err w1 t, Update ob fresh w = (Done (Some err), w1, t).
Proof.
  intros ob w0.
  pose (w := w0 : W).
  pose (m := initializeDeleteOrRevoke ob fresh w).
  destruct (proj2 (proj2 max_size_parsing) platform readers world ob fresh w
              (match ob_Connection ob with Some c => c | None => mkConnection None None [] end)
              {| BucketHost := "rook-ceph-rgw-my-store.rook-ceph.svc";
                 BucketPort := 80; BucketName := "photos"; Region := "";
                 AdditionalConfigData := [("maxSize", "abc")] |}
              Quantities.ErrFormatWrong)
    as (Hlook & Hq & Hrun).
  - reflexivity.
  - reflexivity.
  - vm_compute. discriminate.
  - vm_compute. reflexivity.
  - split; [exact Hq|]. split; [exact Hlook|].
    destruct (Hrun (resolved ob w) (snd (fst m)) (snd m)) as (err & Herr & _).
    + apply run_shape. vm_compute. reflexivity.
    + exists err, (snd (fst m)), (Update_log :: snd m). exact Herr.
Defined.

(** C8, on the code.  The bucket is not there and the existence check says
    so without an error: Grant stops after the check, having created no user
    and written no policy, but what it returns is the nil bucket with the nil
    error, since [errors.Wrapf] of a nil error is nil. *)
Theorem Grant_missing_bucket_returns_nil_error :
  let w := bucketGone in
  fst (handle _ (bucketExists (prepared (claim []) w) "photos") w) = (false, None) /\
  fst (fst (Grant (claim []) fresh w)) = Done (None, None) /\
  kinds_of (snd (Grant (claim []) fresh w)) =
    (kinds_of (snd (initializeCreateOrGrant (claim []) fresh w)) ++ [K_bucketExists])%list /\
  policyWrites (snd (Grant (claim []) fresh w)) = [].
Proof.
  vm_compute. repeat split; reflexivity.
Qed.

(** [getToleration_normalized] for a setting that holds two tolerations, one
    without key and one with operator [Exists] and a value. *)
Lemma getToleration_normalized_witness :
  let store := [("CSI_PLUGIN_TOLERATIONS", "two")] in
  let result :=
    fst (Csi.getToleration (settings store) decode "rook-ceph-operator-config"
           "CSI_PLUGIN_TOLERATIONS" []) in
  result = [ Csi.mkToleration "" "Exists" "" "NoSchedule" None;
             Csi.mkToleration "storage" "Exists" "" "" (Some 30) ] /\
  Forall Csi.normalized result.
Proof.
  intros store result.
  destruct (getToleration_normalized (settings store) decode "rook-ceph-operator-config"
              "CSI_PLUGIN_TOLERATIONS" [] "two" None eq_refl) as (Hparsed & _).
  destruct (Hparsed twoTolerations eq_refl) as (Hmap & Hnorm & _).
  - discriminate.
  - reflexivity.
  - split; [exact Hmap | exact Hnorm].
Defined.

End Runs.

(** * Further properties *)

(** ** Container resources and ports of the CSI workloads *)

Section WorkloadFacts.

Import Csi.

Variable ResourceRequirements ContainerFields NodeAffinity PodAffinity : Type.
Variable GetOperatorSetting : string -> string -> string -> string * option error.
Variable OperatorSettingConfigMapName : string.
Variable Sprintf : string -> list Arg -> string.
Variable TrimSpace : string -> string.
Variable YamlToContainerResource :
  string -> list (Csi.ContainerResource ResourceRequirements) * option error.

#[local] Abbreviation Container := (Csi.Container ResourceRequirements ContainerFields).
#[local] Abbreviation ContainerResource := (Csi.ContainerResource ResourceRequirements).
#[local] Abbreviation PodSpec :=
  (Csi.PodSpec ResourceRequirements ContainerFields NodeAffinity PodAffinity).

(** The inner loop keeps the name and the other fields of the container. *)
Lemma apply_resources_keeps (resource : list ContainerResource) (c : Container) :
  c_Name (apply_resources resource c) = c_Name c /\
  c_fields (apply_resources resource c) = c_fields c.
Proof.
  unfold apply_resources.
  induction resource as [|r rs IH] using rev_ind; simpl; [auto|].
  rewrite fold_left_app. simpl.
  destruct (String.eqb (c_Name c) (r_Name r)); simpl; exact IH.
Qed.

(** The resources that the inner loop leaves: those of the last entry named
    as the container, if there is one. *)
Lemma apply_resources_last (resource : list ContainerResource) (c : Container) :
  c_Resources (apply_resources resource c) =
    match find (fun r => String.eqb (c_Name c) (r_Name r)) (rev resource) with
    | Some r => r_Resource r
    | None => c_Resources c
    end.
Proof.
  unfold apply_resources.
  induction resource as [|r rs IH] using rev_ind; simpl; [reflexivity|].
  rewrite fold_left_app, rev_app_distr. simpl.
  destruct (String.eqb (c_Name c) (r_Name r)); simpl; [reflexivity | exact IH].
Qed.

(** X1. [applyResourcesToContainers] keeps the containers in number and
    order, with their names and other fields, and keeps the tolerations and
    the affinity of the pod.  A container gets the resources of the last
    configured entry that bears its name, and keeps its own when no entry
    does. *)
Theorem applyResourcesToContainers_last_entry_wins :
  forall (key : string) (podspec : PodSpec),
    let resource := fst (getComputeResource GetOperatorSetting OperatorSettingConfigMapName
                       YamlToContainerResource key) in
    let pod' := fst (applyResourcesToContainers GetOperatorSetting OperatorSettingConfigMapName
           YamlToContainerResource key podspec) in
    Tolerations pod' = Tolerations podspec /\
    pod_Affinity pod' = pod_Affinity podspec /\
    Forall2
      (fun c c' =>
         c_Name c' = c_Name c /\ c_fields c' = c_fields c /\
         c_Resources c' =
           match find (fun r => String.eqb (c_Name c) (r_Name r)) (rev resource) with
           | Some r => r_Resource r
           | None => c_Resources c
           end)
      (Containers podspec) (Containers pod').
Proof.
  intros key podspec resource pod'. subst pod'.
  unfold Csi.applyResourcesToContainers. fold resource.
  destruct (getComputeResource GetOperatorSetting OperatorSettingConfigMapName
                       YamlToContainerResource key) as [res logs] eqn:Hres. simpl in resource.
  subst resource.
  destruct res as [|r rs]; simpl.
  - repeat split. induction (Containers podspec) as [|c cs IH]; constructor; auto.
  - repeat split.
    induction (Containers podspec) as [|c cs IH]; simpl; constructor; [|exact IH].
    pose proof (apply_resources_keeps (r :: rs) c) as [Hn Hf].
    pose proof (apply_resources_last (r :: rs) c) as Hl.
    repeat split; assumption.
Qed.

(** X2. When no configured entry bears the name of a container of the pod,
    [applyResourcesToContainers] returns the pod spec as it was. *)
Theorem applyResourcesToContainers_no_match :
  forall (key : string) (podspec : PodSpec),
    (forall c r, In c (Containers podspec) -> In r (fst (getComputeResource GetOperatorSetting OperatorSettingConfigMapName
                       YamlToContainerResource key)) ->
                 c_Name c <> r_Name r) ->
    fst (applyResourcesToContainers GetOperatorSetting OperatorSettingConfigMapName
           YamlToContainerResource key podspec) = podspec.
Proof.
  intros key podspec Hno.
  unfold Csi.applyResourcesToContainers.
  destruct (getComputeResource GetOperatorSetting OperatorSettingConfigMapName
                       YamlToContainerResource key) as [res logs]. simpl in Hno.
  destruct (0 <? Z.of_nat (length res)); simpl; [|reflexivity].
  destruct podspec as [cs ts aff]. simpl in *. f_equal.
  induction cs as [|c cs IH]; simpl; [reflexivity|].
  rewrite IH by (intros; apply Hno; simpl; auto). f_equal.
  assert (Hc : forall r, In r res -> c_Name c <> r_Name r)
    by (intros; apply Hno; simpl; auto).
  clear -Hc. unfold apply_resources.
  induction res as [|r rs IHr] using rev_ind; simpl; [reflexivity|].
  rewrite fold_left_app. simpl.
  destruct (String.eqb_spec (c_Name c) (r_Name r)) as [E|E].
  - exfalso. apply (Hc r); [apply in_or_app; right; left; reflexivity | exact E].
  - apply IHr. intros r' Hr'. apply Hc. apply in_or_app. left. exact Hr'.
Qed.

(** [strconv.ParseUint] reads back what [strconv.Itoa] writes. *)
Lemma digit_of_digit_char (d : Z) : 0 <= d < 10 -> digit_of (digit_char d) = Some d.
Proof.
  intros H.
  assert (Hd : d = 0 \/ d = 1 \/ d = 2 \/ d = 3 \/ d = 4 \/ d = 5 \/ d = 6 \/
               d = 7 \/ d = 8 \/ d = 9) by lia.
  repeat (destruct Hd as [Hd|Hd]; [subst d; reflexivity|]). subst d. reflexivity.
Qed.

Lemma digits_value_format_digits (fuel : nat) :
  forall n acc a,
    0 <= n < 10 ^ Z.of_nat fuel -> a = 0 ->
    digits_value a (format_digits fuel n acc) = digits_value n acc.
Proof.
  induction fuel as [|fuel IH]; intros n acc a Hn Ha; subst a.
  - simpl in Hn. assert (n = 0) by lia. subst n. reflexivity.
  - cbn [format_digits]. cbv zeta.
    destruct (Z.ltb_spec n 10) as [Hlt|Hge].
    + cbn [digits_value]. rewrite Z.mod_small by lia.
      rewrite digit_of_digit_char by lia. reflexivity.
    + rewrite IH; [|split|reflexivity].
      * cbn [digits_value].
        rewrite digit_of_digit_char by (apply Z.mod_pos_bound; lia).
        f_equal. pose proof (Z.div_mod n 10). lia.
      * apply Z.div_pos; lia.
      * apply Z.div_lt_upper_bound; [lia|].
        rewrite Nat2Z.inj_succ, Z.pow_succ_r in Hn by lia. lia.
Qed.

Lemma format_digits_not_empty (fuel : nat) (n : Z) :
  format_digits (S fuel) n "" <> "".
Proof.
  assert (H : forall f m acc, acc <> "" -> format_digits f m acc <> "").
  { induction f as [|f IH]; intros m acc Hacc; simpl; [exact Hacc|].
    destruct (m <? 10); [discriminate | apply IH; discriminate]. }
  simpl. destruct (n <? 10); [discriminate | apply H; discriminate].
Qed.

Lemma ParseUint_Itoa (n : Z) :
  0 <= n <= maxUint64 -> strconv_ParseUint (strconv_Itoa n) = (n, None).
Proof.
  intros Hn. unfold strconv_Itoa.
  destruct (Z.ltb_spec n 0) as [Hneg|_]; [lia|].
  unfold strconv_ParseUint.
  pose proof (format_digits_not_empty 19 n) as Hne.
  destruct (format_digits 20 n "") as [|c s] eqn:Hf; [congruence|].
  rewrite <- Hf.
  rewrite (digits_value_format_digits 20 n "" 0); [|unfold maxUint64 in Hn; simpl; lia|reflexivity].
  simpl. destruct (Z.ltb_spec maxUint64 n); [lia | reflexivity].
Qed.

Lemma digit_of_nonneg (c : ascii) (d : Z) : digit_of c = Some d -> 0 <= d.
Proof.
  unfold digit_of.
  assert (H : forall ds i, 0 <= i -> position_in ds i c = Some d -> 0 <= d).
  { induction ds as [|x ds IH]; simpl; intros i Hi Hp; [discriminate|].
    destruct (Ascii.eqb c x); [inversion Hp; lia|].
    apply (IH (i + 1)); [lia | exact Hp]. }
  apply H. lia.
Qed.

Lemma digits_value_nonneg (s : string) :
  forall a m, 0 <= a -> digits_value a s = Some m -> 0 <= m.
Proof.
  induction s as [|c s IH]; simpl; intros a m Ha Hm.
  - inversion Hm; subst; exact Ha.
  - destruct (digit_of c) as [d|] eqn:Hd; [|discriminate].
    apply digit_of_nonneg in Hd. apply IH in Hm; [exact Hm | lia].
Qed.

Lemma ParseUint_value (s : string) (n : Z) :
  strconv_ParseUint s = (n, None) -> digits_value 0 s = Some n /\ 0 <= n.
Proof.
  unfold strconv_ParseUint. intros H.
  assert (Hv : match digits_value 0 s with
               | Some m => if maxUint64 <? m then None else Some m
               | None => None
               end = Some n).
  { destruct s; [discriminate|].
    destruct (digits_value 0 (String a s)) as [m|]; [|discriminate].
    destruct (maxUint64 <? m); [discriminate | congruence]. }
  destruct (digits_value 0 s) as [m|] eqn:Hm; [|discriminate].
  destruct (maxUint64 <? m); [discriminate|]. inversion Hv; subst.
  split; [reflexivity | eapply digits_value_nonneg; [|exact Hm]; lia].
Qed.

(** X3. [getPortFromConfig], given a default port in range, always returns a
    port in range; whenever it returns an error the port is the default one;
    and a port returned without error is the default one or the number that
    the setting spells in decimal digits.  A setting of white space alone
    gives the default port without error. *)
Theorem getPortFromConfig_in_range :
  forall (env : string) (defaultPort : Z),
    0 <= defaultPort <= 65535 ->
    let raw := fst (GetOperatorSetting OperatorSettingConfigMapName env
                      (strconv_Itoa defaultPort)) in
    let port := fst (getPortFromConfig GetOperatorSetting OperatorSettingConfigMapName Sprintf
           TrimSpace env defaultPort) in
    let err := snd (getPortFromConfig GetOperatorSetting OperatorSettingConfigMapName Sprintf
           TrimSpace env defaultPort) in
    0 <= port <= 65535 /\
    (err <> None -> port = defaultPort) /\
    (err = None -> port = defaultPort \/ digits_value 0 raw = Some port) /\
    (snd (GetOperatorSetting OperatorSettingConfigMapName env
            (strconv_Itoa defaultPort)) = None ->
     TrimSpace raw = "" -> port = defaultPort /\ err = None).
Proof.
  intros env d Hd raw port err. subst raw port err.
  unfold Csi.getPortFromConfig.
  destruct (GetOperatorSetting OperatorSettingConfigMapName env (strconv_Itoa d))
    as [raw [e|]]; simpl.
  - repeat split; try lia; intros; try discriminate; auto.
  - destruct (String.eqb_spec (TrimSpace raw) "") as [Eb|Eb]; simpl.
    + repeat split; try lia; intros; auto.
    + destruct (strconv_ParseUint raw) as [n [e|]] eqn:Hp; simpl.
      * repeat split; try lia; intros; try discriminate; auto; contradiction.
      * apply ParseUint_value in Hp. destruct Hp as [Hv Hn0].
        destruct (Z.ltb_spec 65535 n); simpl.
        { repeat split; try lia; intros; try discriminate; auto; contradiction. }
        unfold uint16. rewrite Z.mod_small by lia.
        repeat split; try lia; intros; try discriminate; auto; contradiction.
Qed.

(** X4. When the setting is not set, so that the settings answer with the
    default they were handed, [getPortFromConfig] returns the default port
    and no error. *)
Theorem getPortFromConfig_unset :
  forall (env : string) (defaultPort : Z),
    0 <= defaultPort <= 65535 ->
    GetOperatorSetting OperatorSettingConfigMapName env (strconv_Itoa defaultPort)
      = (strconv_Itoa defaultPort, None) ->
    getPortFromConfig GetOperatorSetting OperatorSettingConfigMapName Sprintf
           TrimSpace env defaultPort = (defaultPort, None).
Proof.
  intros env d Hd Hunset.
  unfold Csi.getPortFromConfig. rewrite Hunset.
  destruct (String.eqb (TrimSpace (strconv_Itoa d)) ""); [reflexivity|].
  rewrite ParseUint_Itoa by (unfold maxUint64; simpl; lia).
  destruct (Z.ltb_spec 65535 d); [lia|].
  unfold uint16. rewrite Z.mod_small by lia. reflexivity.
Qed.

End WorkloadFacts.

(** ** What a trace shows *)

Section ObserveFacts.

Context {P : Platform} {Rd : Readers}.

Lemma observe_app {X : Type} (f : Event -> list X) (t1 t2 : list Entry) :
  observe f (t1 ++ t2) = (observe f t1 ++ observe f t2)%list.
Proof. unfold observe. now rewrite calls_of_app, flat_map_app. Qed.

Lemma observe_log {X : Type} (f : Event -> list X) (l : LogEntry) (t : list Entry) :
  observe f (ELog l :: t) = observe f t.
Proof. reflexivity. Qed.

Lemma observe_call {X : Type} (f : Event -> list X) (e : Event) (t : list Entry) :
  observe f (ECall e :: t) = (f e ++ observe f t)%list.
Proof. reflexivity. Qed.

Lemma observe_nil {X : Type} (f : Event -> list X) : observe f [] = [].
Proof. reflexivity. Qed.

(** A function that sees nothing in calls of the kinds [ok] sees nothing in
    a trace made of such calls. *)
Lemma observe_blind {X : Type} (f : Event -> list X) (ok : Kind -> bool)
    (t : list Entry) :
  (forall e, ok (event_kind e) = true -> f e = []) ->
  all_kinds ok t -> observe f t = [].
Proof.
  intros Hf. unfold all_kinds, kinds_of, observe.
  induction (calls_of t) as [|e l IH]; simpl; intros H; [reflexivity|].
  inversion H as [|k ks Hk Hks]; subst.
  rewrite (Hf e Hk), (IH Hks). reflexivity.
Qed.

Lemma cleanups_observe (t : list Entry) : cleanups t = observe cleanup_of t.
Proof. reflexivity. Qed.

Lemma policyWrites_observe (t : list Entry) : policyWrites t = observe policy_of t.
Proof. reflexivity. Qed.

Lemma quotaUpdates_observe (t : list Entry) : quotaUpdates t = observe quota_of t.
Proof. reflexivity. Qed.

End ObserveFacts.

(** In a trace of lookups there is nothing of what the observers look for. *)
Ltac blind_to_lookups :=
  intros [R c r]; destruct c; simpl; intros H; solve [reflexivity | discriminate H].

(** Brings an observation of a trace [log :: lookups ++ rest] down to the
    observation of [rest]. *)
Ltac past_lookups Hl :=
  rewrite ?cleanups_observe, ?policyWrites_observe, ?quotaUpdates_observe;
  repeat match goal with
         | |- context [observe ?f (ELog _ :: _)] => rewrite (observe_log f)
         | |- context [observe ?f (_ ++ _)] => rewrite (observe_app f)
         | |- context [observe ?f ?t] =>
             match type of Hl with
             | all_kinds _ t =>
                 rewrite (observe_blind f is_lookup t ltac:(blind_to_lookups) Hl)
             end
         end;
  cbn [app].

Section DeleteFacts.

Context {P : Platform} {Rd : Readers} {Wd : World}.

(** X5. Once the state is resolved, Delete makes one call, the cleanup
    [deleteOBCResource] for the user and with the bucket name of the binding,
    and returns what the cleanup returned: nil, or its error wrapped.  It
    writes no policy and no quota. *)
Theorem Delete_is_one_cleanup :
  forall ob p w p1 w1 t1 cleanupErr w2,
    initializeDeleteOrRevoke ob p w = (Done (p1, None), w1, t1) ->
    handle _ (deleteOBCResource p1 (bucketName p1)) w1 = (cleanupErr, w2) ->
    exists t,
      Delete ob p w
        = (Done (errors_Wrapf cleanupErr "failed to delete OBCResource bucket %q"
                   [AStr (bucketName p1)]), w2, t) /\
      calls_of t =
        (calls_of t1 ++ [Ev (deleteOBCResource p1 (bucketName p1)) cleanupErr])%list /\
      cephUserName p1 = getCephUser ob /\
      bucketName p1 = getBucketName ob /\
      policyWrites t = [] /\
      quotaUpdates t = [].
Proof.
  intros ob p w p1 w1 t1 cleanupErr w2 Hinit Hclean.
  pose proof (initializeDeleteOrRevoke_lookups ob p w) as Hl.
  rewrite Hinit in Hl. simpl in Hl.
  destruct (initializeDeleteOrRevoke_names ob p w p1 None w1 t1 Hinit eq_refl)
    as [Huser Hbucket].
  assert (HR : exists t,
             Delete ob p w
               = (Done (errors_Wrapf cleanupErr "failed to delete OBCResource bucket %q"
                          [AStr (bucketName p1)]), w2, t) /\
             t = (ELog (mkLog DEBUG "Delete event for OB: %+v" [AVal "ob"])
                  :: t1 ++
                     [ELog (mkLog INFO "Delete: deleting bucket %q for OB %q"
                              [AStr (bucketName p1); AStr (ob_Name ob)]);
                      ECall (Ev (deleteOBCResource p1 (bucketName p1)) cleanupErr)])%list).
  { unfold Delete, bind, logf, call, ret. rewrite Hinit. simpl. rewrite Hclean.
    destruct cleanupErr; simpl; eexists; split; reflexivity. }
  destruct HR as (t & HR & Ht). exists t.
  split; [exact HR|]. subst t.
  split; [simpl; rewrite calls_of_app; reflexivity|].
  split; [exact Huser|]. split; [exact Hbucket|].
  split; past_lookups Hl; reflexivity.
Qed.

End DeleteFacts.

Section RevokeMore.

Context {P : Platform} {Rd : Readers} {Wd : World}.

(** X6. Revoke of a user who is not the owner of the bucket, once the owner
    lookup, the S3 session and the policy fetch have succeeded.  Without a
    policy, nothing is written and the cleanup of the user follows.  With a
    policy, the policy written is the fetched one without the statements of
    the user; if that write fails, its error is returned and no cleanup is
    asked for, and if it succeeds the cleanup of the user follows and nil is
    returned. *)
Theorem Revoke_other_user :
  forall ob p w p1 w1 t1 bucket w2 user w3 key0 keys s3svc w4 answer w5 policy,
    initializeDeleteOrRevoke ob p w = (Done (p1, None), w1, t1) ->
    handle _ (GetBucketInfo (adminOpsClient p1) (Bucket_named (bucketName p1))) w1
      = ((bucket, None), w2) ->
    Owner bucket <> "" ->
    Owner bucket <> cephUserName p1 ->
    handle _ (GetUser (adminOpsClient p1) (User_with (Owner bucket) None)) w2
      = ((user, None), w3) ->
    Keys user = key0 :: keys ->
    handle _ (NewS3Agent (AccessKey key0) (SecretKey key0) (getObjectStoreEndpoint p1)
                (logger_LevelAt DEBUG) (tlsCert p1)) w3 = (inl s3svc, w4) ->
    handle _ (GetBucketPolicy s3svc (bucketName p1)) w4 = (answer, w5) ->
    fetched_policy answer = Some policy ->
    match policy with
    | None =>
        exists cleanupErr w6 t,
          handle _ (deleteOBCResource p1 "") w5 = (cleanupErr, w6) /\
          Revoke ob p w = (Done None, w6, t) /\
          policyWrites t = [] /\
          cleanups t = [(p1, "")]
    | Some fetched =>
        let written := DropPolicyStatements fetched (cephUserName p1) in
        exists out putErr w6,
          handle _ (PutBucketPolicy s3svc (bucketName p1) written) w5
            = ((out, putErr), w6) /\
          match putErr with
          | Some e =>
              exists t,
                Revoke ob p w = (Done (Some e), w6, t) /\
                policyWrites t = [(bucketName p1, written)] /\
                cleanups t = []
          | None =>
              exists cleanupErr w7 t,
                handle _ (deleteOBCResource p1 "") w6 = (cleanupErr, w7) /\
                Revoke ob p w = (Done None, w7, t) /\
                policyWrites t = [(bucketName p1, written)] /\
                cleanups t = [(p1, "")]
          end
    end.
Proof.
  intros ob p w p1 w1 t1 bucket w2 user w3 key0 keys s3svc w4 answer w5 policy
    Hinit Hinfo Hne Hother Huser Hkeys Hagent Hfetch Hpolicy.
  pose proof (initializeDeleteOrRevoke_lookups ob p w) as Hl.
  rewrite Hinit in Hl. simpl in Hl.
  apply String.eqb_neq in Hne. apply String.eqb_neq in Hother.
  destruct policy as [fetched|].
  - cbv zeta.
    destruct (handle _ (PutBucketPolicy s3svc (bucketName p1)
                          (DropPolicyStatements fetched (cephUserName p1))) w5)
      as [[out putErr] w6] eqn:Hput.
    exists out, putErr, w6. split; [reflexivity|].
    destruct putErr as [e|].
    + assert (HR : exists t, Revoke ob p w = (Done (Some e), w6, t) /\
                 observe policy_of t
                   = [(bucketName p1, DropPolicyStatements fetched (cephUserName p1))] /\
                 observe cleanup_of t = []).
      { unfold Revoke, bind, logf, call, ret.
        rewrite Hinit. simpl. rewrite Hinfo. simpl. rewrite Hne.
        rewrite Huser. simpl. rewrite Hkeys. rewrite Hagent. simpl.
        rewrite Hfetch. simpl.
        destruct answer as [got [fe|]]; simpl in Hpolicy.
        - destruct (as_awserr fe) as [code|]; [|discriminate].
          destruct (String.eqb code "NoSuchBucketPolicy"); discriminate.
        - inversion Hpolicy; subst got. simpl. rewrite Hother. rewrite Hput. simpl.
          eexists. split; [reflexivity|]. split; past_lookups Hl; reflexivity. }
      destruct HR as (t & HR & Hw & Hc). exists t. repeat split; assumption.
    + destruct (handle _ (deleteOBCResource p1 "") w6) as [cleanupErr w7] eqn:Hclean.
      exists cleanupErr, w7.
      assert (HR : exists t, Revoke ob p w = (Done None, w7, t) /\
                 observe policy_of t
                   = [(bucketName p1, DropPolicyStatements fetched (cephUserName p1))] /\
                 observe cleanup_of t = [(p1, "")]).
      { unfold Revoke, deleteOBCResourceLogError, bind, logf, call, ret.
        rewrite Hinit. simpl. rewrite Hinfo. simpl. rewrite Hne.
        rewrite Huser. simpl. rewrite Hkeys. rewrite Hagent. simpl.
        rewrite Hfetch. simpl.
        destruct answer as [got [fe|]]; simpl in Hpolicy.
        - destruct (as_awserr fe) as [code|]; [|discriminate].
          destruct (String.eqb code "NoSuchBucketPolicy"); discriminate.
        - inversion Hpolicy; subst got. simpl. rewrite Hother. rewrite Hput. simpl.
          rewrite Hclean.
          destruct cleanupErr; simpl; eexists; (split; [reflexivity|]);
            split; past_lookups Hl; reflexivity. }
      destruct HR as (t & HR & Hw & Hc). exists t. repeat split; assumption.
  - destruct (handle _ (deleteOBCResource p1 "") w5) as [cleanupErr w6] eqn:Hclean.
    exists cleanupErr, w6.
    assert (HR : exists t, Revoke ob p w = (Done None, w6, t) /\
               observe policy_of t = [] /\ observe cleanup_of t = [(p1, "")]).
    { unfold Revoke, deleteOBCResourceLogError, bind, logf, call, ret.
      rewrite Hinit. simpl. rewrite Hinfo. simpl. rewrite Hne.
      rewrite Huser. simpl. rewrite Hkeys. rewrite Hagent. simpl.
      rewrite Hfetch. simpl.
      destruct answer as [got [fe|]]; simpl in Hpolicy.
      - destruct (as_awserr fe) as [code|]; [|discriminate].
        destruct (String.eqb code "NoSuchBucketPolicy"); [|discriminate].
        simpl. rewrite Hother. rewrite Hclean.
        destruct cleanupErr; simpl; eexists; (split; [reflexivity|]);
          split; past_lookups Hl; reflexivity.
      - inversion Hpolicy; subst got. simpl. rewrite Hother. rewrite Hclean.
        destruct cleanupErr; simpl; eexists; (split; [reflexivity|]);
          split; past_lookups Hl; reflexivity. }
    destruct HR as (t & HR & Hw & Hc). exists t. repeat split; assumption.
Qed.

End RevokeMore.

(** Splits the equations between results that case analysis leaves. *)
Ltac split_results :=
  repeat match goal with
         | H : (_, _) = (_, _) |- _ => inversion H; subst; clear H
         | H : Done _ = Done _ |- _ => inversion H; subst; clear H
         | H : Some _ = Some _ |- _ => inversion H; subst; clear H
         | H : inl _ = inl _ |- _ => inversion H; subst; clear H
         | H : inr _ = inr _ |- _ => inversion H; subst; clear H
         end.

(** Closes the leaves of an analysis by cases of a run: the observations are
    brought past the lookups and computed. *)
Ltac close_run Hl :=
  cbn [fst snd]; rewrite ?app_nil_r; past_lookups Hl; simpl;
  repeat match goal with |- _ /\ _ => split end;
  try solve [ repeat constructor
            | lia
            | intros; split_results; try discriminate; reflexivity ].

Section RevokeRuns.

Context {P : Platform} {Rd : Readers} {Wd : World}.

(** X7. In every run, Revoke asks for at most one cleanup, always with an
    empty bucket name, so that the bucket itself is never deleted, and it
    writes at most one policy.  Whenever Revoke returns an error it has asked
    for no cleanup: the user is still there for the next attempt. *)
Theorem Revoke_never_deletes_the_bucket :
  forall ob p w,
    let t := snd (Revoke ob p w) in
    Forall (fun pb => snd pb = "") (cleanups t) /\
    (length (cleanups t) <= 1)%nat /\
    (length (policyWrites t) <= 1)%nat /\
    (forall e, fst (fst (Revoke ob p w)) = Done (Some e) -> cleanups t = []).
Proof.
  intros ob p w t. subst t.
  pose proof (initializeDeleteOrRevoke_lookups ob p w) as Hl.
  unfold Revoke, deleteOBCResourceLogError, bind, logf, call, ret, panic.
  destruct (initializeDeleteOrRevoke ob p w) as [[[[p1 [e1|]]|reason] w1] t1];
    simpl in Hl; simpl; by_cases; close_run Hl.
Qed.

End RevokeRuns.

Section ProvisionRuns.

Context {P : Platform} {Rd : Readers} {Wd : World}.

(** X8. When Provision returns a bucket, it returns no error and has asked
    for no cleanup; it has created one user and one bucket, opened its S3
    session with the keys of that user, limited that user to one bucket, and
    the binding returned is composed from the provisioner that names this
    user and holds these keys. *)
Theorem Provision_success :
  forall options p w ob err,
    fst (fst (Provision options p w)) = Done (Some ob, err) ->
    let t := snd (Provision options p w) in
    err = None /\
    cleanups t = [] /\
    exists created,
      observe created_of t = [created] /\
      snd (snd created) = None /\
      ob = composeObjectBucket (with_keys created) /\
      observe session_of t = [(fst (fst (snd created)), snd (fst (snd created)))] /\
      observe bucket_created_of t = [bucketName (with_keys created)] /\
      observe limit_of t = [User_with (cephUserName (with_keys created)) (Some 1)].
Proof.
  intros options p w ob err. intros Hres t. subst t. revert Hres.
  pose proof (initializeCreateOrGrant_lookups options p w) as Hl.
  unfold Provision, setAdditionalSettings, deleteOBCResourceLogError,
    bind, logf, call, ret, panic.
  destruct (initializeCreateOrGrant options p w) as [[[[p1 [e1|]]|reason] w1] t1];
    simpl in Hl; simpl; by_cases; cbn [fst snd]; intros Hres;
    split_results; try discriminate;
    rewrite ?app_nil_r; past_lookups Hl; simpl;
    (split; [reflexivity|]); (split; [reflexivity|]);
    eexists; repeat split; reflexivity.
Qed.

End ProvisionRuns.

Section ProvisionFailures.

Context {P : Platform} {Rd : Readers} {Wd : World}.

(** X9. When Provision returns no bucket it returns an error.  If it had
    created a user, it has asked for exactly one cleanup, for the provisioner
    that names this user; the cleanup names the bucket when the bucket had
    been created, and no bucket when it had not.  If no user was created, no
    cleanup is asked for. *)
Theorem Provision_failure_cleans_up :
  forall options p w err,
    fst (fst (Provision options p w)) = Done (None, err) ->
    let t := snd (Provision options p w) in
    err <> None /\
    (forall created,
       In created (observe created_of t) -> snd (snd created) = None ->
       exists b,
         cleanups t = [(with_keys created, b)] /\
         ((b = "" /\ observe bucket_created_of t = []) \/
          (b = bucketName (with_keys created) /\ observe bucket_created_of t = [b]))) /\
    ((forall created, In created (observe created_of t) -> snd (snd created) <> None) ->
     cleanups t = []).
Proof.
  intros options p w err. intros Hres t. subst t. revert Hres.
  pose proof (initializeCreateOrGrant_lookups options p w) as Hl.
  unfold Provision, setAdditionalSettings, deleteOBCResourceLogError,
    bind, logf, call, ret, panic.
  destruct (initializeCreateOrGrant options p w) as [[[[p1 [e1|]]|reason] w1] t1];
    simpl in Hl; simpl; by_cases; cbn [fst snd]; intros Hres;
    split_results; try discriminate;
    rewrite ?app_nil_r; past_lookups Hl; simpl.
  all: split; [discriminate|].
  all: split.
  all: try (intros created Hin Hok; simpl in Hin;
       first
         [ contradiction
         | destruct Hin as [Hin|[]]; subst created; simpl in Hok;
           first
             [ discriminate
             | eexists; (split; [reflexivity|]);
               first [ left; split; reflexivity | right; split; reflexivity ] ] ]).
  all: try (intros Hall; reflexivity).
  all: try (intros Hall; exfalso; eapply Hall; [left; reflexivity | reflexivity]).
Qed.

End ProvisionFailures.

(** As [by_cases], leaving the equations it records as they are. *)
Ltac by_cases_goal := repeat (simpl; innermost_case).

Section GrantRuns.

Context {P : Platform} {Rd : Readers} {Wd : World}.


End GrantRuns.

Section GrantFailures.

Context {P : Platform} {Rd : Readers} {Wd : World}.

(** X11. When Grant returns no bucket: if it returns no error either, the
    existence check had answered that the bucket is not there, without an
    error, and there was no user created and no cleanup.  If a user had been
    created, exactly one cleanup was asked for, for the provisioner that
    names this user and with an empty bucket name, so that the bucket is
    left alone; and if no user was created there was no cleanup.  Grant
    never creates a bucket. *)
Theorem Grant_failure_cleans_up :
  forall options p w err,
    fst (fst (Grant options p w)) = Done (None, err) ->
    let t := snd (Grant options p w) in
    (err = None ->
     observe exists_of t = [(false, None)] /\ observe created_of t = []) /\
    (forall created,
       In created (observe created_of t) -> snd (snd created) = None ->
       err <> None /\ cleanups t = [(with_keys created, "")]) /\
    ((forall created, In created (observe created_of t) -> snd (snd created) <> None) ->
     cleanups t = []) /\
    observe bucket_created_of t = [].
Proof.
  intros options p w err. intros Hres t. subst t. revert Hres.
  pose proof (initializeCreateOrGrant_lookups options p w) as Hl.
  unfold Grant, setAdditionalSettings, deleteOBCResourceLogError,
    bind, logf, call, ret, panic.
  destruct (initializeCreateOrGrant options p w) as [[[[p1 [e1|]]|reason] w1] t1];
    simpl in Hl; simpl; by_cases_goal; cbn [fst snd]; intros Hres;
    split_results; try discriminate;
    rewrite ?app_nil_r; past_lookups Hl; simpl.
  all: split;
    [ first
        [ discriminate
        | intros Hnone;
          repeat match goal with
                 | H : negb ?b = true |- _ => destruct b; [discriminate H|]; clear H
                 end;
          match type of Hnone with
          | errors_Wrapf ?o _ _ = None => destruct o; [discriminate Hnone|]
          end;
          split; reflexivity ]
    | ].
  all: split.
  all: try (intros created Hin Hok; simpl in Hin;
            first
              [ contradiction
              | destruct Hin as [Hin|[]]; subst created; simpl in Hok;
                first [ discriminate | split; [discriminate | reflexivity] ] ]).
  all: split; [|reflexivity].
  all: try (intros Hall; reflexivity).
  all: try (intros Hall; exfalso; eapply Hall; [left; reflexivity | reflexivity]).
Qed.

(** X12. A failed policy fetch in Grant.  When the fetch fails with an AWS
    error other than [NoSuchBucketPolicy], Grant writes no policy and returns
    that error.  When it fails with an error that is not an AWS error, Grant
    goes on all the same and writes a policy. *)
Theorem Grant_policy_fetch_error :
  forall options p w fetched e,
    In (fetched, Some e) (observe fetch_of (snd (Grant options p w))) ->
    let t := snd (Grant options p w) in
    (forall code, as_awserr e = Some code -> code <> "NoSuchBucketPolicy" ->
       policyWrites t = [] /\ fst (fst (Grant options p w)) = Done (None, Some e)) /\
    (as_awserr e = None -> length (policyWrites t) = 1%nat).
Proof.
  intros options p w fetched e. intros Hin t. subst t. revert Hin.
  pose proof (initializeCreateOrGrant_lookups options p w) as Hl.
  unfold Grant, setAdditionalSettings, deleteOBCResourceLogError,
    bind, logf, call, ret, panic.
  destruct (initializeCreateOrGrant options p w) as [[[[p1 [e1|]]|reason] w1] t1];
    simpl in Hl; simpl; by_cases_goal; cbn [fst snd];
    rewrite ?app_nil_r; past_lookups Hl; simpl; intros Hin.
  all: try contradiction.
  all: destruct Hin as [Hin|[]]; split_results.
  all: split.
  all: try (intros code Hcode Hne; split; reflexivity).
  all: try (intros Hnone; reflexivity).
  all: try (intros code Hcode Hne; exfalso;
            repeat match goal with
                   | H : negb (String.eqb _ _) = false |- _ =>
                       apply negb_false_iff, String.eqb_eq in H
                   end;
            congruence).
  all: try (intros Hnone; exfalso; congruence).
Qed.

End GrantFailures.

Section RevokeFetch.

Context {P : Platform} {Rd : Readers} {Wd : World}.

(** X13. A failed policy fetch in Revoke.  Unless the failure is the AWS
    error [NoSuchBucketPolicy], Revoke returns the error of the fetch as it
    is, writes no policy and asks for no cleanup; this holds for an error
    that is not an AWS error too, on which Grant goes on. *)
Theorem Revoke_policy_fetch_error :
  forall ob p w fetched e,
    In (fetched, Some e) (observe fetch_of (snd (Revoke ob p w))) ->
    as_awserr e <> Some "NoSuchBucketPolicy" ->
    fst (fst (Revoke ob p w)) = Done (Some e) /\
    policyWrites (snd (Revoke ob p w)) = [] /\
    cleanups (snd (Revoke ob p w)) = [].
Proof.
  intros ob p w fetched e. intros Hin Hne. revert Hin.
  pose proof (initializeDeleteOrRevoke_lookups ob p w) as Hl.
  unfold Revoke, deleteOBCResourceLogError, bind, logf, call, ret, panic.
  destruct (initializeDeleteOrRevoke ob p w) as [[[[p1 [e1|]]|reason] w1] t1];
    simpl in Hl; simpl; by_cases_goal; cbn [fst snd];
    rewrite ?app_nil_r; past_lookups Hl; simpl; intros Hin.
  all: try contradiction.
  all: destruct Hin as [Hin|[]]; split_results.
  all: try (repeat split; reflexivity).
  all: exfalso;
    repeat match goal with
           | H : String.eqb _ _ = true |- _ => apply String.eqb_eq in H
           end;
    congruence.
Qed.

End RevokeFetch.

Section QuotaRuns.

Context {P : Platform} {Rd : Readers} {Wd : World}.

(** X14. In every run, [updateAdditionalSettings] reads at most one user and
    sends at most one quota update.  An update is sent only after the user
    was read without error; it names the user of the provisioner and always
    says whether the quota is enabled.  And nil is returned only when one
    update was sent. *)
Theorem updateAdditionalSettings_one_update :
  forall ob p w,
    let t := snd (updateAdditionalSettings ob p w) in
    (length (observe user_of t) <= 1)%nat /\
    (length (quotaUpdates t) <= 1)%nat /\
    Forall (fun q => UID q = cephUserName p /\ Enabled q <> None) (quotaUpdates t) /\
    (quotaUpdates t <> [] -> exists user, observe user_of t = [(user, None)]) /\
    (fst (fst (updateAdditionalSettings ob p w)) = Done None ->
     length (quotaUpdates t) = 1%nat).
Proof.
  intros ob p w t. subst t.
  unfold updateAdditionalSettings, bind, logf, call, ret, panic.
  by_cases_goal; cbn [fst snd]; simpl;
    repeat match goal with |- _ /\ _ => split end;
    try solve [ lia
              | repeat constructor; discriminate
              | intros H; first [ discriminate H | contradiction H; reflexivity ]
              | intros _; eexists; reflexivity
              | reflexivity ].
Qed.

End QuotaRuns.

(** One of four alternatives holds by computation. *)
Ltac one_of_four :=
  first [ left; reflexivity | right; left; reflexivity
        | right; right; left; reflexivity | right; right; right; reflexivity ].

(** Closes what is left of a statement about the updates sent: memberships
    in short lists and equations between results. *)
Ltac settle_quota :=
  repeat first [ progress intros | match goal with |- _ /\ _ => split end ];
  simpl in *;
  repeat match goal with
         | H : False |- _ => destruct H
         | H : _ \/ _ |- _ => destruct H as [H|H]
         end;
  first [ discriminate | contradiction | congruence | reflexivity
        | left; reflexivity | right; left; reflexivity ].

Section ClaimQuota.

Context {P : Platform} {Rd : Readers} {Wd : World}.

(** X15. [setAdditionalSettings] for a claim.  Without a requested limit it
    calls nothing and returns nil.  With one, the first update it sends
    enables the quota of the user and carries no limit; each limit then goes
    in an update of its own, max-objects before max-size, and only a limit
    that was requested and parsed is sent.  The quota is enabled before the
    limits are parsed: when the requested max-objects does not parse, the
    enabling update is the only one sent, and an error is returned.  When nil
    is returned every requested limit was sent. *)
Theorem setAdditionalSettings_enables_first :
  forall options p w obc,
    opt_ObjectBucketClaim options = Some obc ->
    let maxObjects := MaxObjectQuota (obc_AdditionalConfig obc) in
    let maxSize := MaxSizeQuota (obc_AdditionalConfig obc) in
    let t := snd (setAdditionalSettings options p w) in
    let enable := with_Enabled true (QuotaSpec_of (cephUserName p)) in
    let objects := with_MaxObjects (fst (strconv_Atoi maxObjects))
                     (QuotaSpec_of (cephUserName p)) in
    let size := with_MaxSize (fst (maxSizeToInt64 maxSize))
                  (QuotaSpec_of (cephUserName p)) in
    (maxObjects = "" -> maxSize = "" ->
     setAdditionalSettings options p w = (Done None, w, [])) /\
    (maxObjects <> "" \/ maxSize <> "" ->
     length (calls_of t) = length (quotaUpdates t) /\
     exists rest,
       quotaUpdates t = enable :: rest /\
       (rest = [] \/ rest = [objects] \/ rest = [size] \/ rest = [objects; size]) /\
       (In objects rest -> maxObjects <> "" /\ snd (strconv_Atoi maxObjects) = None) /\
       (In size rest -> maxSize <> "" /\ snd (maxSizeToInt64 maxSize) = None) /\
       (fst (fst (setAdditionalSettings options p w)) = Done None ->
        (maxObjects <> "" -> In objects rest) /\ (maxSize <> "" -> In size rest))) /\
    (maxObjects <> "" -> snd (strconv_Atoi maxObjects) <> None ->
     quotaUpdates t = [enable] /\
     fst (fst (setAdditionalSettings options p w)) <> Done None).
Proof.
  intros options p w obc Hobc maxObjects maxSize t enable objects size.
  subst t objects size.
  unfold setAdditionalSettings. rewrite Hobc. fold maxObjects maxSize.
  unfold bind, call, ret, panic.
  destruct (String.eqb_spec maxObjects "") as [Eo|Eo];
    destruct (String.eqb_spec maxSize "") as [Es|Es]; simpl.
  - split; [reflexivity|]. split; [intros [H|H]; contradiction|].
    intros H; contradiction.
  - split; [intros; contradiction|].
    by_cases_goal; cbn [fst snd]; simpl.
    all: split;
      [ intros _; split; [reflexivity|]; eexists; split; [reflexivity|]
      | intros H; contradiction ].
    all: (split; [one_of_four|]); settle_quota.
  - split; [intros; contradiction|].
    by_cases_goal; cbn [fst snd]; simpl.
    all: split;
      [ intros _; split; [reflexivity|]; eexists; split; [reflexivity|] |].
    all: try ((split; [one_of_four|]); settle_quota).
    all: settle_quota.
  - split; [intros; contradiction|].
    by_cases_goal; cbn [fst snd]; simpl.
    all: split;
      [ intros _; split; [reflexivity|]; eexists; split; [reflexivity|] |].
    all: try ((split; [one_of_four|]); settle_quota).
    all: settle_quota.
Qed.


End ClaimQuota.

Section NotInitialized.

Context {P : Platform} {Rd : Readers} {Wd : World}.

(** A text found in a string is found after any prefix is put before it. *)
Lemma strings_Contains_append (before s substr : string) :
  strings_Contains s substr = true ->
  strings_Contains (before ++ s) substr = true.
Proof.
  unfold strings_Contains. intros H.
  induction before as [|c before IH]; [exact H|].
  cbn [String.append String.index].
  destruct (String.prefix substr (String c (before ++ s))); [reflexivity|].
  destruct (String.index 0 substr (before ++ s)); [reflexivity | discriminate IH].
Qed.

(** The message of a wrapped error holds the message of its cause. *)
Lemma adminOpsClientError_wrapped (e : error) (msg : string) :
  strings_Contains (Error e) OperatorNotInitializedMessage = true ->
  adminOpsClientError (withMessage e msg)
    = Some (errorString OperatorNotInitializedMessage).
Proof.
  intros H. unfold adminOpsClientError. cbn [Error].
  rewrite strings_Contains_append; [reflexivity|].
  apply (strings_Contains_append ": "). exact H.
Qed.

(** An error answered to [setAdminOpsAPIClient] by the cluster lookup, by
    the credentials of the admin user or by the admin API is returned
    wrapped. *)
Lemma setAdminOpsAPIClient_wraps (p : Provisioner) (w : W) (e : error) :
  In e (observe admin_setup_error_of (snd (setAdminOpsAPIClient p w))) ->
  exists p1 msg,
    fst (fst (setAdminOpsAPIClient p w)) = Done (p1, Some (withMessage e msg)).
Proof.
  unfold setAdminOpsAPIClient, bind, call, ret, panic.
  by_cases_goal; cbn [fst snd]; simpl; intros Hin;
    repeat match goal with
           | H : False |- _ => destruct H
           | H : _ \/ _ |- _ => destruct H as [H|H]
           end;
    subst; eexists; eexists; reflexivity.
Qed.

(** Closes a case of a resolution that reached [setAdminOpsAPIClient]: the
    error seen in the trace is the one that was returned wrapped. *)
Ltac after_admin_setup Hadmin Hin Hmsg :=
  match goal with
  | Heq : setAdminOpsAPIClient ?p' ?w' = _ |- _ =>
      let px := fresh "px" in
      let msg := fresh "msg" in
      let Hx := fresh "Hx" in
      specialize (Hadmin p' w'); rewrite Heq in Hadmin; cbn [fst snd] in Hadmin;
      destruct (Hadmin Hin) as (px & msg & Hx); inversion Hx; subst;
      rewrite (adminOpsClientError_wrapped _ _ Hmsg); eexists; reflexivity
  end.

(** X16. When the cluster lookup, the credentials of the admin user or the
    admin API answer with an error whose message holds the
    operator-not-initialized text, both ways of resolving the provisioner
    state return an error that is this text alone, without the chain of
    wrapped messages. *)
Theorem initializers_report_operator_not_initialized :
  forall ob options p w e,
    strings_Contains (Error e) OperatorNotInitializedMessage = true ->
    (In e (observe admin_setup_error_of (snd (initializeDeleteOrRevoke ob p w))) ->
     exists p1,
       fst (fst (initializeDeleteOrRevoke ob p w))
         = Done (p1, Some (errorString OperatorNotInitializedMessage))) /\
    (In e (observe admin_setup_error_of (snd (initializeCreateOrGrant options p w))) ->
     exists p1,
       fst (fst (initializeCreateOrGrant options p w))
         = Done (p1, Some (errorString OperatorNotInitializedMessage))).
Proof.
  intros ob options p w e Hmsg.
  pose proof (fun p w => setAdminOpsAPIClient_wraps p w e) as Hadmin.
  split.
  - unfold initializeDeleteOrRevoke, setObjectContext, populateDomainAndPort,
      setObjectStoreDomainName, setObjectStorePort, setTlsCaCert,
      bind, logf, call, ret, panic.
    by_cases_goal; cbn [fst snd]; rewrite ?app_nil_r;
      repeat (rewrite observe_call; cbn [admin_setup_error_of app]);
      rewrite ?observe_app, ?observe_nil; cbn [app];
      intros Hin; first [ contradiction | after_admin_setup Hadmin Hin Hmsg ].
  - unfold initializeCreateOrGrant, setObjectContext, populateDomainAndPort,
      setObjectStoreDomainName, setObjectStorePort, setTlsCaCert,
      bind, logf, call, ret, panic.
    by_cases_goal; cbn [fst snd]; rewrite ?app_nil_r;
      repeat (rewrite ?observe_log; rewrite observe_call;
              cbn [admin_setup_error_of app]);
      rewrite ?observe_log, ?observe_app, ?observe_nil; cbn [app];
      intros Hin; first [ contradiction | after_admin_setup Hadmin Hin Hmsg ].
Qed.


End NotInitialized.

Section Resolved.

Context {P : Platform} {Rd : Readers} {Wd : World}.

(** X17. The provisioner that [initializeCreateOrGrant] leaves when it
    returns nil.  The bucket name is the one the storage class gives for a
    static bucket, and else the one of the options; the store name, the
    region and the endpoint are the parameters of the storage class, and the
    additional configuration is the one of the claim; the user name is left
    as it was.  An endpoint declared by the storage class decides host and
    port, which are then not empty.  The object context and the admin client
    are set, so that the calls that follow have a client to use. *)
Theorem initializeCreateOrGrant_resolved :
  forall options p w p1 w1 t1,
    initializeCreateOrGrant options p w = (Done (p1, None), w1, t1) ->
    exists obc sc,
      opt_ObjectBucketClaim options = Some obc /\
      fst (handle _ (getStorageClassWithBackoff p (obc_StorageClassName obc)) w) = inl sc /\
      bucketName p1 =
        (if snd (isStaticBucket sc) then fst (isStaticBucket sc)
         else opt_BucketName options) /\
      objectStoreName p1 = map_get (sc_Parameters sc) key_objectStoreName /\
      region p1 = map_get (sc_Parameters sc) "region" /\
      endpoint p1 = map_get (sc_Parameters sc) key_objectStoreEndpoint /\
      additionalConfigData p1 = obc_AdditionalConfig obc /\
      cephUserName p1 = cephUserName p /\
      (sc_getObjectStoreEndpoint sc <> "" ->
       storeDomainName p1 = GetIPFromEndpoint (sc_getObjectStoreEndpoint sc) /\
       storePort p1 = GetPortFromEndpoint (sc_getObjectStoreEndpoint sc) /\
       storeDomainName p1 <> "" /\ storePort p1 <> 0) /\
      objectContext p1 <> None /\
      adminOpsClient p1 <> None.
Proof.
  intros options p w p1 w1 t1.
  unfold initializeCreateOrGrant, setAdminOpsAPIClient, setObjectContext,
    populateDomainAndPort, setObjectStoreDomainName, setObjectStorePort, setTlsCaCert,
    setAdditionalConfigData, adminOpsClientError, errors_Wrapf, errors_Wrap,
    bind, logf, call, ret, panic.
  by_cases_goal; cbn [fst snd]; intros Hres; split_results; try discriminate.
  all: match goal with
       | Hsc : handle _ (getStorageClassWithBackoff _ _) _ = (inl ?sc, _),
         Hst : isStaticBucket ?sc = _
         |- exists obc sc', Some ?o = Some obc /\ _ =>
           exists o, sc; rewrite Hsc, Hst
       end.
  all: repeat match goal with
              | H : (Z.of_nat (length ?c) =? 0) = true |- _ =>
                  destruct c; [clear H | discriminate H]
              end.
  all: simpl;
    repeat first [ match goal with |- _ /\ _ => split end | progress intros ].
  all: repeat match goal with
              | H : negb _ = false |- _ => apply negb_false_iff in H
              | H : String.eqb _ _ = true |- _ => apply String.eqb_eq in H
              | H : String.eqb _ _ = false |- _ => apply String.eqb_neq in H
              | H : Z.eqb _ _ = false |- _ => apply Z.eqb_neq in H
              end.
  all: first [ reflexivity | discriminate | assumption | contradiction ].
Qed.


End Resolved.

Section PodFacts.

Import Csi.

Variable ResourceRequirements ContainerFields NodeAffinity PodAffinity : Type.
Variable GetOperatorSetting : string -> string -> string -> string * option error.
Variable OperatorSettingConfigMapName : string.
Variable YamlToContainerResource :
  string -> list (Csi.ContainerResource ResourceRequirements) * option error.
Variable GenerateNodeAffinity : string -> option NodeAffinity * option error.

#[local] Abbreviation Pod :=
  (Csi.PodSpec ResourceRequirements ContainerFields NodeAffinity PodAffinity).

(** X18. Placing a pod and giving resources to its containers do not depend
    on each other: [applyToPodSpec] leaves the containers alone and
    [applyResourcesToContainers] leaves the tolerations and the affinity
    alone, so that the two may be applied in either order, with the same
    warnings logged.  After [applyToPodSpec] the affinity of the pod holds
    the node affinity given and nothing else. *)
Theorem applyToPodSpec_commutes_with_resources :
  forall (key : string) (pod : Pod) (n : option NodeAffinity) (t : list Toleration),
    let resources :=
      applyResourcesToContainers GetOperatorSetting OperatorSettingConfigMapName
        YamlToContainerResource key in
    resources (applyToPodSpec pod n t)
      = (applyToPodSpec (fst (resources pod)) n t, snd (resources pod)) /\
    Containers (applyToPodSpec pod n t) = Containers pod /\
    pod_Affinity (fst (resources (applyToPodSpec pod n t)))
      = Some {| a_NodeAffinity := n; a_PodAffinity := None; a_PodAntiAffinity := None |}.
Proof.
  intros key pod n t resources. subst resources.
  unfold Csi.applyResourcesToContainers.
  destruct (getComputeResource GetOperatorSetting OperatorSettingConfigMapName
              YamlToContainerResource key) as [res logs].
  destruct (0 <? Z.of_nat (length res)); simpl; repeat split; reflexivity.
Qed.

(** X19. [getNodeAffinity] returns the node affinity decoded from the
    setting only when the setting was read without error, is not empty and
    was decoded without error, and then logs nothing; in every other case it
    returns the default it was given.  It logs at most one warning, and only
    when reading or decoding failed. *)
Theorem getNodeAffinity_default_unless_decoded :
  forall (name : string) (default : option NodeAffinity),
    let raw := GetOperatorSetting OperatorSettingConfigMapName name "" in
    let decoded := GenerateNodeAffinity (fst raw) in
    let result :=
      getNodeAffinity GetOperatorSetting OperatorSettingConfigMapName
        GenerateNodeAffinity name default in
    (snd raw = None /\ fst raw <> "" /\ snd decoded = None ->
     result = (fst decoded, [])) /\
    (snd raw <> None \/ fst raw = "" \/ snd decoded <> None ->
     fst result = default) /\
    (length (snd result) <= 1)%nat /\
    (snd result <> [] -> snd raw <> None \/ snd decoded <> None) /\
    (snd raw = None -> fst raw = "" -> result = (default, [])).
Proof.
  intros name default raw decoded result. subst raw decoded result.
  unfold Csi.getNodeAffinity.
  destruct (GetOperatorSetting OperatorSettingConfigMapName name "") as [raw [e|]];
    simpl;
    [| destruct (String.eqb_spec raw "") as [E|E]; simpl;
       [| destruct (GenerateNodeAffinity raw) as [v [e|]]; simpl ] ];
    repeat match goal with |- _ /\ _ => split end; intros;
    repeat match goal with
           | H : _ /\ _ |- _ => destruct H
           | H : _ \/ _ |- _ => destruct H
           end;
    first [ reflexivity | lia | congruence | contradiction
          | left; discriminate | right; discriminate ].
Qed.

End PodFacts.

Section ProvisionAlways.

Context {P : Platform} {Rd : Readers} {Wd : World}.

(** X20. In every run, Provision writes no policy and fetches none, creates
    at most one user and at most one bucket, and asks for at most one
    cleanup; a cleanup is asked for only after a user was created, and a
    bucket is created only after a user was. *)
Theorem Provision_never_writes_policy :
  forall options p w,
    let t := snd (Provision options p w) in
    policyWrites t = [] /\
    observe fetch_of t = [] /\
    (length (observe created_of t) <= 1)%nat /\
    (length (observe bucket_created_of t) <= 1)%nat /\
    (length (cleanups t) <= 1)%nat /\
    (cleanups t <> [] ->
     exists created, observe created_of t = [created] /\ snd (snd created) = None) /\
    (observe bucket_created_of t <> [] ->
     exists created, observe created_of t = [created] /\ snd (snd created) = None).
Proof.
  intros options p w t. subst t.
  pose proof (initializeCreateOrGrant_lookups options p w) as Hl.
  unfold Provision, setAdditionalSettings, deleteOBCResourceLogError,
    bind, logf, call, ret, panic.
  destruct (initializeCreateOrGrant options p w) as [[[[p1 [e1|]]|reason] w1] t1];
    simpl in Hl; simpl; by_cases_goal; cbn [fst snd];
    rewrite ?app_nil_r; past_lookups Hl; simpl;
    repeat match goal with |- _ /\ _ => split end;
    try solve [ reflexivity | lia
              | intros H; contradiction H; reflexivity
              | intros _; eexists; split; reflexivity ].
Qed.

End ProvisionAlways.

(** ** Further runs on the concrete cluster *)

Section MoreRuns.

Import Scenarios.

(** [applyResourcesToContainers_no_match] for a pod with one sidecar that
    the configured resources do not name. *)
Lemma applyResourcesToContainers_no_match_witness :
  fst (Csi.applyResourcesToContainers
         (settings [("CSI_RBD_PLUGIN_RESOURCE", "plugin")])
         "rook-ceph-operator-config" decodeResources "CSI_RBD_PLUGIN_RESOURCE" sidecar)
    = sidecar.
Proof.
  apply (applyResourcesToContainers_no_match Z unit string unit
           (settings [("CSI_RBD_PLUGIN_RESOURCE", "plugin")])
           "rook-ceph-operator-config" decodeResources "CSI_RBD_PLUGIN_RESOURCE" sidecar).
  intros c r Hc Hr. simpl in Hc. vm_compute in Hr.
  destruct Hc as [Hc|[]]. subst c.
  destruct Hr as [Hr|[Hr|[]]]; subst r; simpl; discriminate.
Defined.

(** [getPortFromConfig_in_range] for a metrics port that is set. *)
Lemma getPortFromConfig_in_range_witness :
  let port :=
    fst (Csi.getPortFromConfig (defaulting [("CSI_RBD_GRPC_METRICS_PORT", "9091")])
           "rook-ceph-operator-config" (@Sprintf platform) trimSpace
           "CSI_RBD_GRPC_METRICS_PORT" 9090) in
  0 <= port <= 65535 /\ port = 9091.
Proof.
  intros port.
  pose proof (getPortFromConfig_in_range
                (defaulting [("CSI_RBD_GRPC_METRICS_PORT", "9091")])
                "rook-ceph-operator-config" (@Sprintf platform) trimSpace
                "CSI_RBD_GRPC_METRICS_PORT" 9090 ltac:(lia)) as H.
  cbv zeta in H. destruct H as (Hrange & _).
  split; [exact Hrange | vm_compute; reflexivity].
Defined.

(** [getPortFromConfig_unset] for a liveness port that is not set. *)
Lemma getPortFromConfig_unset_witness :
  Csi.getPortFromConfig (defaulting []) "rook-ceph-operator-config"
    (@Sprintf platform) trimSpace "CSI_RBD_LIVENESS_METRICS_PORT" 9080
    = (9080, None).
Proof.
  apply getPortFromConfig_unset; [lia | vm_compute; reflexivity].
Defined.

(** [Delete_is_one_cleanup] on the binding of [obc-user] to [photos]. *)
Lemma Delete_is_one_cleanup_witness :
  let w := calm "owner" (quota false 0 0) in
  let p1 := resolved (binding []) w in
  exists t,
    Delete (binding []) fresh w = (Done None, w, t) /\
    cephUserName p1 = "obc-user" /\
    bucketName p1 = "photos" /\
    policyWrites t = [].
Proof.
  intros w0 p1.
  pose (w := w0 : W).
  pose (m := initializeDeleteOrRevoke (binding []) fresh w).
  destruct (@Delete_is_one_cleanup platform readers world (binding []) fresh w
              p1 (snd (fst m)) (snd m) None w)
    as (t & Hrun & _ & Huser & Hbucket & Hpol & _).
  - apply run_shape. vm_compute. reflexivity.
  - vm_compute. reflexivity.
  - exists t. split; [exact Hrun|]. split; [exact Huser|].
    split; [exact Hbucket | exact Hpol].
Defined.

(** [Revoke_other_user] on a bucket of [owner] whose policy lets [obc-user]
    and [reader] in: the policy written lets only [reader] in, and the user
    is cleaned up. *)
Lemma Revoke_other_user_witness :
  let w := shared "owner" in
  let p1 := resolved (binding []) w in
  exists t,
    Revoke (binding []) fresh w = (Done None, w, t) /\
    policyWrites t = [("photos", DropPolicyStatements sharedPolicy "obc-user")] /\
    cleanups t = [(p1, "")].
Proof.
  intros w0 p1.
  pose (w := w0 : W).
  pose (m := initializeDeleteOrRevoke (binding []) fresh w).
  pose proof (@Revoke_other_user platform readers world (binding []) fresh w
                p1 (snd (fst m)) (snd m) (fst (bucketInfo w)) w
                (theUser (quota false 0 0)) w
                {| AccessKey := "AK"; SecretKey := "SK" |} [] "AK"%string w
                (policyAnswer w) w (Some sharedPolicy)) as H.
  specialize (H ltac:(apply run_shape; vm_compute; reflexivity)).
  specialize (H ltac:(vm_compute; reflexivity)).
  specialize (H ltac:(vm_compute; discriminate)).
  specialize (H ltac:(vm_compute; discriminate)).
  specialize (H ltac:(vm_compute; reflexivity)).
  specialize (H ltac:(reflexivity)).
  specialize (H ltac:(vm_compute; reflexivity)).
  specialize (H ltac:(vm_compute; reflexivity)).
  specialize (H ltac:(reflexivity)).
  cbv beta iota zeta in H.
  destruct H as (out & putErr & w6 & Hput & H).
  assert (Herr : putErr = None) by (vm_compute in Hput; inversion Hput; reflexivity).
  subst putErr.
  destruct H as (cleanupErr & w7 & t & Hclean & Hrun & Hpol & Hcl).
  assert (Hw6 : w6 = w) by (vm_compute in Hput; inversion Hput; reflexivity).
  assert (Hw7 : w7 = w) by (subst w6; vm_compute in Hclean; inversion Hclean; reflexivity).
  subst w7.
  exists t. split; [exact Hrun|]. split; [|exact Hcl].
  rewrite Hpol. vm_compute. reflexivity.
Defined.

(** [Provision_success] for a claim on [photos]. *)
Lemma Provision_success_witness :
  let t := snd (Provision (claim []) fresh (calm "owner" (quota false 0 0))) in
  cleanups t = [] /\
  exists created,
    observe created_of t = [created] /\
    observe session_of t = [(fst (fst (snd created)), snd (fst (snd created)))] /\
    observe bucket_created_of t = [bucketName (with_keys created)].
Proof.
  intros t.
  pose (w := calm "owner" (quota false 0 0) : W).
  pose (ob := composeObjectBucket
                (set_secretAccessKey "SK"
                   (set_accessKeyID "AK"
                      (set_cephUserName "obc-user" (prepared (claim []) w))))).
  pose proof (@Provision_success platform readers world (claim []) fresh w ob None
                ltac:(vm_compute; reflexivity)) as H.
  cbv zeta in H.
  destruct H as (_ & Hclean & created & Hcreated & _ & _ & Hsession & Hbucket & _).
  split; [exact Hclean|].
  exists created. split; [exact Hcreated|]. split; [exact Hsession | exact Hbucket].
Defined.

(** [Provision_failure_cleans_up] when the admin API refuses the limit of
    one bucket: the bucket had been created, and the cleanup names it. *)
Lemma Provision_failure_cleans_up_witness :
  let w := limitRefused in
  let created := (set_cephUserName "obc-user" (prepared (claim []) w),
                  ("AK", "SK", @None error)) in
  cleanups (snd (Provision (claim []) fresh w)) = [(with_keys created, "photos")].
Proof.
  intros w0 created.
  pose (w := w0 : W).
  pose proof (@Provision_failure_cleans_up platform readers world (claim []) fresh w
                (Some (adminError "InvalidArgument" "InvalidArgument tx0003 rgw-a"))
                ltac:(vm_compute; reflexivity)) as H.
  cbv zeta in H. destruct H as (_ & Hclean & _).
  destruct (Hclean created) as (b & Hb & Hwhich).
  - vm_compute. left. reflexivity.
  - reflexivity.
  - destruct Hwhich as [(_ & Hnone) | (Hname & _)].
    + vm_compute in Hnone. discriminate Hnone.
    + refine (eq_trans Hb _). rewrite Hname. vm_compute. reflexivity.
Defined.


(** [Grant_failure_cleans_up] when the admin API refuses to change the new
    user: the user is cleaned up and the bucket is left alone. *)
Lemma Grant_failure_cleans_up_witness :
  let w := limitRefused in
  let created := (set_cephUserName "obc-user" (prepared (claim []) w),
                  ("AK", "SK", @None error)) in
  cleanups (snd (Grant (claim []) fresh w)) = [(with_keys created, "")].
Proof.
  intros w0 created.
  pose (w := w0 : W).
  pose proof (@Grant_failure_cleans_up platform readers world (claim []) fresh w
                (Some (adminError "InvalidArgument" "InvalidArgument tx0003 rgw-a"))
                ltac:(vm_compute; reflexivity)) as H.
  cbv zeta in H. destruct H as (_ & Hclean & _).
  destruct (Hclean created) as (_ & Hb).
  - vm_compute. left. reflexivity.
  - reflexivity.
  - exact Hb.
Defined.

(** [Grant_policy_fetch_error] when the connection breaks during the fetch:
    Grant writes a policy all the same. *)
Lemma Grant_policy_fetch_error_witness :
  length (policyWrites (snd (Grant (claim []) fresh (fetchBroken "owner")))) = 1%nat.
Proof.
  pose (w := fetchBroken "owner" : W).
  pose proof (@Grant_policy_fetch_error platform readers world (claim []) fresh w
                None connectionReset ltac:(vm_compute; left; reflexivity)) as H.
  cbv zeta in H. destruct H as (_ & Hgoes).
  apply Hgoes. reflexivity.
Defined.

(** [Revoke_policy_fetch_error] on the same broken connection: Revoke
    returns the error and touches nothing. *)
Lemma Revoke_policy_fetch_error_witness :
  let w := fetchBroken "owner" in
  fst (fst (Revoke (binding []) fresh w)) = Done (Some connectionReset) /\
  policyWrites (snd (Revoke (binding []) fresh w)) = [] /\
  cleanups (snd (Revoke (binding []) fresh w)) = [].
Proof.
  intros w0.
  pose (w := w0 : W).
  apply (@Revoke_policy_fetch_error platform readers world (binding []) fresh w
           None connectionReset).
  - vm_compute. left. reflexivity.
  - vm_compute. discriminate.
Defined.

(** [setAdditionalSettings_enables_first] for a claim whose max-objects is
    no number: the quota of the user has been enabled all the same. *)
Lemma setAdditionalSettings_enables_first_witness :
  let p := set_cephUserName "obc-user" fresh in
  let w := calm "owner" (quota false 0 0) in
  quotaUpdates (snd (setAdditionalSettings (claim [("maxObjects", "abc")]) p w))
    = [{| UID := "obc-user"; Enabled := Some true;
          MaxSize := None; MaxObjects := None |}].
Proof.
  intros p w0.
  pose (w := w0 : W).
  pose proof (@setAdditionalSettings_enables_first platform readers world
                (claim [("maxObjects", "abc")]) p w
                {| obc_Name := "photos-claim"; obc_Namespace := "default";
                   obc_StorageClassName := "rook-ceph-bucket";
                   obc_AdditionalConfig := [("maxObjects", "abc")] |}
                eq_refl) as H.
  cbv zeta in H. destruct H as (_ & _ & Hparse).
  destruct Hparse as (Hq & _).
  - vm_compute. discriminate.
  - vm_compute. discriminate.
  - exact Hq.
Defined.

(** [initializers_report_operator_not_initialized] on a cluster whose
    operator is still starting. *)
Lemma initializers_report_operator_not_initialized_witness :
  (exists p1,
     fst (fst (@initializeDeleteOrRevoke platform readers starting (binding []) fresh tt))
       = Done (p1, Some (errorString
                           "skipping reconcile since operator is still initializing"))) /\
  (exists p1,
     fst (fst (@initializeCreateOrGrant platform readers starting (claim []) fresh tt))
       = Done (p1, Some (errorString
                           "skipping reconcile since operator is still initializing"))).
Proof.
  pose proof (@initializers_report_operator_not_initialized platform readers starting
                (binding []) (claim []) fresh tt notReady
                ltac:(vm_compute; reflexivity)) as H.
  destruct H as (Hrevoke & Hgrant).
  split.
  - apply Hrevoke. vm_compute. left. reflexivity.
  - apply Hgrant. vm_compute. left. reflexivity.
Defined.

(** [initializeCreateOrGrant_resolved] for a storage class that names the
    bucket [archive]: this name replaces the one of the options. *)
Lemma initializeCreateOrGrant_resolved_witness :
  let p1 := prepared (claim []) archive in
  bucketName p1 = "archive" /\
  objectStoreName p1 = "my-store" /\
  adminOpsClient p1 <> None.
Proof.
  intros p1.
  pose (w := archive : W).
  pose (m := initializeCreateOrGrant (claim []) fresh w).
  destruct (@initializeCreateOrGrant_resolved platform readers world (claim []) fresh w
              p1 (snd (fst m)) (snd m))
    as (obc & sc & _ & Hsc & Hbucket & Hstore & _ & _ & _ & _ & _ & _ & Hclient).
  - apply run_shape. vm_compute. reflexivity.
  - assert (Hclass : sc = staticClass) by (vm_compute in Hsc; inversion Hsc; reflexivity).
    subst sc.
    split; [rewrite Hbucket; vm_compute; reflexivity|].
    split; [rewrite Hstore; vm_compute; reflexivity | exact Hclient].
Defined.

End MoreRuns.
